(** * al_framework: the dataset-curation GUI script, embedded and verified

    The Python module [al_framework.py] glues a GUI toolkit, an image viewer
    and a pretrained segmentation model.  This development embeds its
    orchestration logic:

    - the file-name conventions ([Path(..).stem], [Path(..).suffix],
      [os.path.join], the ['_seg'] markers);
    - [MainWindow.run_inference], the loop that reads every unlabeled image of
      the uncurated folder, chooses a strategy from the image's shape, calls
      the model and saves the mask;
    - [NapariWindow.__init__] and [NapariWindow.on_add_button_clicked], which
      open an image with its mask and move the pair to the curated folder;
    - [MainWindow.launch_napari_window] and [WelcomeWindow.start_main], the
      two guarded window transitions, with the callbacks that feed them
      ([item_eval_selected], [browse_eval_clicked], [browse_train_clicked]);
    - [IconProvider.icon], which picks the files shown with a thumbnail.

    Conventions of the embedding.  Python [str] is [string], Python [int] is
    [Z], a tuple of ints is [list Z].  The file system is a finite map from
    path strings to file contents.  Stateful code runs in the monad [M], which
    threads a [world] (file system and a log of the external calls made) and
    may raise a Python exception; an exception leaves the effects performed
    before it in place, as in Python.  The external libraries (numpy,
    scikit-image, cellpose) are an interface, [Imaging]; their functions are
    never unfolded.  Python floats are idealised as exact rationals.

    The model of the environment is small.  A path that is present in the
    file system holds the array [imread] returns for it: a read fails only
    on a missing path, [imsave] does not fail, and what it stored is read
    back unchanged.  [os.listdir] returns the files that lie directly in the
    folder and fails only on the empty path.  Where a statement depends on
    a library call succeeding, it is stated for image files or for a call
    that has completed. *)

From Stdlib Require Import ZArith QArith Qround Qcanon Ascii.
From stdpp Require Import base numbers gmap strings list fin_maps.

(** ** Python built-ins on strings and tuples *)

Module Py.

(** [s.startswith(p)] *)
Definition startswith (s p : string) : bool := String.prefix p s.

(** [sub in s] for two strings: [sub] occurs in [s] as a substring. *)
Fixpoint contains (sub s : string) : bool :=
  String.prefix sub s ||
  match s with
  | EmptyString => false
  | String _ s' => contains sub s'
  end.

(** [s.endswith(c)] for a one-character string [c]. *)
Fixpoint endswith_char (s : string) (c : ascii) : bool :=
  match s with
  | EmptyString => false
  | String a EmptyString => Ascii.eqb a c
  | String _ s' => endswith_char s' c
  end.

(** [s.rfind(c)]: the index of the last occurrence of the character [c];
    Python's [-1] is [None]. *)
Fixpoint rfind (c : ascii) (s : string) : option nat :=
  match s with
  | EmptyString => None
  | String a s' =>
      match rfind c s' with
      | Some i => Some (S i)
      | None => if Ascii.eqb a c then Some 0%nat else None
      end
  end.

(** The slices [s[:n]] and [s[n:]]. *)
Fixpoint slice_to (n : nat) (s : string) : string :=
  match n, s with
  | S n', String a s' => String a (slice_to n' s')
  | _, _ => EmptyString
  end.

Fixpoint slice_from (n : nat) (s : string) : string :=
  match n, s with
  | S n', String _ s' => slice_from n' s'
  | _, _ => s
  end.

(** [s.split(c)] for a one-character separator. *)
Fixpoint split (c : ascii) (s : string) : list string :=
  match s with
  | EmptyString => [EmptyString]
  | String a s' =>
      if Ascii.eqb a c then EmptyString :: split c s'
      else match split c s' with
           | x :: r => String a x :: r
           | [] => [String a EmptyString]
           end
  end.

(** [x in t] for a tuple of strings. *)
Definition str_in (x : string) (t : list string) : bool :=
  existsb (String.eqb x) t.

(** [' '.join(l)], the way [print] separates its arguments. *)
Fixpoint join_space (l : list string) : string :=
  match l with
  | [] => EmptyString
  | [x] => x
  | x :: r => x +:+ " " +:+ join_space r
  end.

(** Truth value of a string: non-empty. *)
Definition truthy (s : string) : bool :=
  match s with EmptyString => false | String _ _ => true end.

End Py.

(** ** [pathlib] and [os.path], POSIX flavour *)

Module PathLib.

(** The components [PurePosixPath] keeps when it parses a path: the
    pieces between separators that are neither empty nor ["."]. *)
Definition parts (p : string) : list string :=
  List.filter (fun x => negb (String.eqb x "") && negb (String.eqb x "."))
              (Py.split "/" p).

(** [Path(p).name]: the final component, [''] when there is none. *)
Definition name (p : string) : string := List.last (parts p) "".

(** [Path(p).suffix]:
    [i = name.rfind('.'); name[i:] if 0 < i < len(name) - 1 else '']. *)
Definition suffix (p : string) : string :=
  let nm := name p in
  match Py.rfind "." nm with
  | Some i =>
      if (0 <? i)%nat && (i <? String.length nm - 1)%nat
      then Py.slice_from i nm else ""
  | None => ""
  end.

(** [Path(p).stem]: [name[:i]] under the same test, else [name]. *)
Definition stem (p : string) : string :=
  let nm := name p in
  match Py.rfind "." nm with
  | Some i =>
      if (0 <? i)%nat && (i <? String.length nm - 1)%nat
      then Py.slice_to i nm else nm
  | None => nm
  end.

End PathLib.

Module OsPath.

(** [os.path.join(a, b)] ([posixpath.join] with two arguments). *)
Definition join (a b : string) : string :=
  if Py.startswith b "/" then b
  else if negb (Py.truthy a) || Py.endswith_char a "/" then a +:+ b
  else a +:+ "/" +:+ b.

End OsPath.

(** ** The external libraries *)

(** numpy arrays and the three library functions the script calls on them.
    [rescale img scale channel_axis] is [skimage.transform.rescale],
    [resize img output_shape] is [skimage.transform.resize(.., order=0)], and
    [model_eval img z_axis] is the mask, the first component of what
    [models.Cellpose(..).eval(img, z_axis=..)] returns. *)
Class Imaging := {
  ndarray : Type;
  np_shape : ndarray -> list Z;
  rescale : ndarray -> Qc -> option Z -> ndarray;
  model_eval : ndarray -> option Z -> ndarray;
  resize : ndarray -> list Z -> ndarray;
}.

(** ** Exceptions, the world and the monad *)

Inductive exn :=
| IndexError
| KeyError
| ZeroDivisionError
| FileNotFoundError
| SystemExit.

Inductive result (A : Type) :=
| Ok (a : A)
| Raise (e : exn).

Arguments Ok {A} a.
Arguments Raise {A} e.

(** The calls that reach outside the script, in the order they are made. *)
Inductive event `{Imaging} :=
| EvListdir (path : string)
| EvExists (path : string)
| EvImread (path : string)
| EvImsave (path : string) (arr : ndarray)
| EvReplace (src dst : string)
| EvRemove (path : string)
| EvModelEval (img : ndarray) (z_axis : option Z)
| EvPrint (text : string)
| EvMsgBox (text : string).

Record world `{Imaging} := World {
  fs : gmap string ndarray;
  log : list event;
}.

Definition M `{Imaging} (A : Type) : Type := world -> result A * world.

Definition ret `{Imaging} {A} (a : A) : M A := fun w => (Ok a, w).

Definition raise `{Imaging} {A} (e : exn) : M A := fun w => (Raise e, w).

Definition bind `{Imaging} {A B} (m : M A) (k : A -> M B) : M B :=
  fun w =>
    match m w with
    | (Ok a, w') => k a w'
    | (Raise e, w') => (Raise e, w')
    end.

Notation "'let*' x ':=' m 'in' k" := (bind m (fun x => k))
  (at level 10, x pattern, m at level 100, k at level 200).
Notation "m ';;' k" := (bind m (fun _ => k))
  (at level 100, k at level 200, right associativity).

Definition lift `{Imaging} {A} (r : result A) : M A := fun w => (r, w).

Definition emit `{Imaging} (e : event) : M unit :=
  fun w => (Ok tt, World _ (fs w) (log w ++ [e])).

Definition get_fs `{Imaging} : M (gmap string ndarray) := fun w => (Ok (fs w), w).

Definition put_fs `{Imaging} (f : gmap string ndarray) : M unit :=
  fun w => (Ok tt, World _ f (log w)).

(** [for x in l: body(x)] *)
Fixpoint for_each `{Imaging} {A} (l : list A) (body : A -> M unit) : M unit :=
  match l with
  | [] => ret tt
  | x :: r => body x ;; for_each r body
  end.

(** ** Python arithmetic and indexing *)

(** [t[i]] on a tuple, negative indices counting from the end. *)
Definition py_index {A} (t : list A) (i : Z) : result A :=
  let n := Z.of_nat (length t) in
  let j := if (i <? 0)%Z then (i + n)%Z else i in
  if (0 <=? j)%Z && (j <? n)%Z then
    match t !! Z.to_nat j with
    | Some x => Ok x
    | None => Raise IndexError
    end
  else Raise IndexError.

(** [a / b] on floats, idealised: exact in [Qc], raising on a zero divisor. *)
Definition py_truediv (a b : Qc) : result Qc :=
  if decide (b = Qc_of_Z 0) then Raise ZeroDivisionError else Ok (a / b)%Qc.

(** [t[-1] == v], for a test that the source guards by [len(t) == 3]. *)
Definition last_eqb (t : list Z) (v : Z) : bool :=
  match py_index t (-1) with
  | Ok x => (x =? v)%Z
  | Raise _ => false
  end.

(** ** The operating system and the I/O libraries *)

(** The file system holds regular files only, keyed by their path string;
    every directory exists.  [dir_prefix d] is what [os.path.join] puts in
    front of a relative name. *)
Definition dir_prefix (d : string) : string := OsPath.join d "".

(** A plain file name: non-empty and without a separator, what a directory
    listing and a file view hand out. *)
Definition plain_name (n : string) : bool :=
  Py.truthy n && negb (Py.contains "/" n).

(** The entry of directory prefix [pre] that the file at [key] is, if it is
    directly inside. *)
Definition dir_entry (pre key : string) : option string :=
  if Py.startswith key pre then
    let rest := Py.slice_from (String.length pre) key in
    if Py.truthy rest && negb (Py.contains "/" rest) then Some rest else None
  else None.

(** The names of the files directly inside [d], in the order the map
    enumerates them. *)
Definition listing `{Imaging} (f : gmap string ndarray) (d : string) : list string :=
  omap (dir_entry (dir_prefix d)) (map_to_list f).*1.

(** [os.listdir(d)] (Python leaves the order of the result unspecified; the
    empty path names no directory). *)
Definition os_listdir `{Imaging} (d : string) : M (list string) :=
  emit (EvListdir d) ;;
  if Py.truthy d then
    let* f := get_fs in
    ret (listing f d)
  else raise FileNotFoundError.

(** [os.path.exists(p)] *)
Definition os_path_exists `{Imaging} (p : string) : M bool :=
  emit (EvExists p) ;;
  let* f := get_fs in
  ret (bool_decide (is_Some (f !! p))).

(** [skimage.io.imread(p)] *)
Definition imread `{Imaging} (p : string) : M ndarray :=
  emit (EvImread p) ;;
  let* f := get_fs in
  match f !! p with
  | Some a => ret a
  | None => raise FileNotFoundError
  end.

(** [skimage.io.imsave(p, arr)] *)
Definition imsave `{Imaging} (p : string) (arr : ndarray) : M unit :=
  emit (EvImsave p arr) ;;
  let* f := get_fs in
  put_fs (<[p := arr]> f).

(** [os.replace(src, dst)]: rename, overwriting [dst]. *)
Definition os_replace `{Imaging} (src dst : string) : M unit :=
  emit (EvReplace src dst) ;;
  let* f := get_fs in
  match f !! src with
  | Some a => put_fs (<[dst := a]> (delete src f))
  | None => raise FileNotFoundError
  end.

(** [os.remove(p)] *)
Definition os_remove `{Imaging} (p : string) : M unit :=
  emit (EvRemove p) ;;
  let* f := get_fs in
  match f !! p with
  | Some _ => put_fs (delete p f)
  | None => raise FileNotFoundError
  end.

(** [print(a, b, ..)] *)
Definition print `{Imaging} (args : list string) : M unit :=
  emit (EvPrint (Py.join_space args)).

(** A [QMessageBox] with the given text, shown modally. *)
Definition msg_exec `{Imaging} (text : string) : M unit := emit (EvMsgBox text).

(** [model.eval(img, z_axis=z)], keeping the mask. *)
Definition eval_model `{Imaging} (img : ndarray) (z : option Z) : M ndarray :=
  emit (EvModelEval img z) ;;
  ret (model_eval img z).

(** [sys.exit()] *)
Definition sys_exit `{Imaging} {A} : M A := raise SystemExit.

(** ** Module constants *)

Definition accepted_types : list string := [".jpg"; ".jpeg"; ".png"; ".tiff"; ".tif"].

(** [repr] of a tuple of strings, as [print] shows [accepted_types]. *)
Definition repr_str_tuple (t : list string) : string :=
  let quoted := map (fun x => "'" +:+ x +:+ "'") t in
  let fix commas (l : list string) : string :=
    match l with
    | [] => ""
    | [x] => x
    | x :: r => x +:+ ", " +:+ commas r
    end in
  match quoted with
  | [x] => "(" +:+ x +:+ ",)"
  | _ => "(" +:+ commas quoted +:+ ")"
  end.

Definition stack_warning : string :=
  "Warning: 3D image stack found. We are assuming your first dimension is your stack dimension. Please cross check this.".

Definition not_supported_text : string :=
  "Image type not supported. Only 2D and 3D image shapes currently supported. 3D stacks must be of type grayscale. " +:+
  "                            Currently supported image file formats are: ".

Definition select_image_text : string :=
  "Please first select an image you wish to visualise. The selected image must belong be an original images, not a mask.".

Definition select_folders_text : string :=
  "You need to specify a folder both for your uncurated and curated dataset (even if the curated folder is currently empty). Please go back and select folders for both.".

(** ** The viewer window: [class NapariWindow] *)

(** The classes of [napari.layers] a viewer can hold. *)
Inductive layer_type := Image | Labels | Points | Shapes.

Global Instance layer_type_eq_dec : EqDecision layer_type.
Proof. solve_decision. Defined.

Record layer `{Imaging} := Layer {
  layer_kind : layer_type;
  layer_name : string;
  layer_data : ndarray;
}.

Record NapariWindow `{Imaging} := MkNapariWindow {
  nw_img_filename : string;
  nw_eval_data_path : string;
  nw_train_data_path : string;
  nw_img : ndarray;
  nw_layers : list layer;      (* self.viewer.layers *)
  nw_visible : bool;
}.

(** The name of the mask that belongs to an image:
    [Path(img_filename).stem + '_seg.tiff']. *)
Definition seg_name_of (img_filename : string) : string :=
  PathLib.stem img_filename +:+ "_seg.tiff".

(** [seg = imread(join(d, name)) if os.path.exists(join(d, name)) else None] *)
Definition read_seg_if_exists `{Imaging} (d name : string) : M (option ndarray) :=
  let* found := os_path_exists (OsPath.join d name) in
  if found : bool then
    let* seg := imread (OsPath.join d name) in ret (Some seg)
  else ret None.

(** [NapariWindow.__init__].  [add_image] and [add_labels] append an Image and
    a Labels layer; napari chooses their names, and no theorem below depends
    on the names written here. *)
Definition NapariWindow_init `{Imaging}
    (img_filename eval_data_path train_data_path : string) : M NapariWindow :=
  let potential_seg_name := seg_name_of img_filename in
  let* in_eval := os_path_exists (OsPath.join eval_data_path img_filename) in
  let* (img, seg) :=
    if in_eval : bool then
      let* img := imread (OsPath.join eval_data_path img_filename) in
      let* seg := read_seg_if_exists eval_data_path potential_seg_name in
      ret (img, seg)
    else
      let* img := imread (OsPath.join train_data_path img_filename) in
      let* seg := read_seg_if_exists train_data_path potential_seg_name in
      ret (img, seg) in
  let layers := [Layer _ Image "Image" img] in
  let layers :=
    match seg with
    | Some s => layers ++ [Layer _ Labels "seg" s]
    | None => layers
    end in
  ret (MkNapariWindow _ img_filename eval_data_path train_data_path img layers true).

(** [NapariWindow._get_layer_names] *)
Definition get_layer_names `{Imaging} (self : NapariWindow) (ty : layer_type)
    : list string :=
  let layer_names :=
    map layer_name
        (List.filter (fun l => bool_decide (layer_kind l = ty)) (nw_layers self)) in
  match layer_names with
  | _ :: _ => [] ++ layer_names
  | [] => []
  end.

(** [self.viewer.layers[key]] with a string key: the first layer of that
    name. *)
Definition layers_getitem `{Imaging} (layers : list layer) (key : string)
    : result layer :=
  match List.find (fun l => String.eqb (layer_name l) key) layers with
  | Some l => Ok l
  | None => Raise KeyError
  end.

(** [NapariWindow.on_add_button_clicked] *)
Definition on_add_button_clicked `{Imaging} (self : NapariWindow) : M NapariWindow :=
  let label_names := get_layer_names self Labels in
  let* first_name := lift (py_index label_names 0) in
  let* lay := lift (layers_getitem (nw_layers self) first_name) in
  let seg := layer_data lay in
  os_replace (OsPath.join (nw_eval_data_path self) (nw_img_filename self))
             (OsPath.join (nw_train_data_path self) (nw_img_filename self)) ;;
  let seg_name := seg_name_of (nw_img_filename self) in
  imsave (OsPath.join (nw_train_data_path self) seg_name) seg ;;
  let* found := os_path_exists (OsPath.join (nw_eval_data_path self) seg_name) in
  (if found : bool then os_remove (OsPath.join (nw_eval_data_path self) seg_name)
   else ret tt) ;;
  ret (MkNapariWindow _ (nw_img_filename self) (nw_eval_data_path self)
         (nw_train_data_path self) (nw_img self) (nw_layers self) false).

(** ** The main window: [class MainWindow] *)

Record MainWindow `{Imaging} := MkMainWindow {
  mw_eval_data_path : string;
  mw_train_data_path : string;
  cur_selected_img : option string;
  nap_win : option NapariWindow;
  mw_visible : bool;
}.

(** [MainWindow.__init__]: nothing selected, no viewer, shown. *)
Definition MainWindow_init `{Imaging} (eval_data_path train_data_path : string)
    : MainWindow :=
  MkMainWindow _ eval_data_path train_data_path None None true.

(** [item_eval_selected] and [item_train_selected]: both store [item.data()]. *)
Definition item_selected `{Imaging} (self : MainWindow) (item_data : string)
    : MainWindow :=
  MkMainWindow _ (mw_eval_data_path self) (mw_train_data_path self)
    (Some item_data) (nap_win self) (mw_visible self).

(** [not self.cur_selected_img or '_seg.tiff' in self.cur_selected_img] *)
Definition launch_refused (cur : option string) : bool :=
  match cur with
  | None => true
  | Some s => negb (Py.truthy s) || Py.contains "_seg.tiff" s
  end.

(** [MainWindow.launch_napari_window] *)
Definition launch_napari_window `{Imaging} (self : MainWindow) : M MainWindow :=
  if launch_refused (cur_selected_img self) then
    msg_exec select_image_text ;;
    ret self
  else
    let* nw := NapariWindow_init (default "" (cur_selected_img self))
                 (mw_eval_data_path self) (mw_train_data_path self) in
    ret (MkMainWindow _ (mw_eval_data_path self) (mw_train_data_path self)
           (cur_selected_img self) (Some nw) (mw_visible self)).

(** The test of the first branch of [run_inference], with Python's
    precedence ([and] binds tighter than [or]):
    [suffix in (".jpg", ".jpeg", ".png") or (suffix in (".tiff", ".tif") and
     len(orig_size)==2 or (len(orig_size)==3 and (orig_size[-1]==3 or
     orig_size[-1]==4)))]. *)
Definition cond_2d (img_filename : string) (orig_size : list Z) : bool :=
  Py.str_in (PathLib.suffix img_filename) [".jpg"; ".jpeg"; ".png"]
  || (Py.str_in (PathLib.suffix img_filename) [".tiff"; ".tif"]
        && (length orig_size =? 2)%nat
      || ((length orig_size =? 3)%nat
            && (last_eqb orig_size 3 || last_eqb orig_size 4))).

(** The test of the [elif]:
    [suffix in (".tiff", ".tif") and len(orig_size)==3]. *)
Definition cond_3d (img_filename : string) (orig_size : list Z) : bool :=
  Py.str_in (PathLib.suffix img_filename) [".tiff"; ".tif"]
  && (length orig_size =? 3)%nat.

(** [1/rescale_factor] with [rescale_factor = max_dim/512]. *)
Definition inverse_rescale_factor (max_dim : Z) : result Qc :=
  match py_truediv (Qc_of_Z max_dim) (Qc_of_Z 512) with
  | Ok rescale_factor => py_truediv (Qc_of_Z 1) rescale_factor
  | Raise e => Raise e
  end.

(** The body of the loop of [run_inference], for one [img_filename]. *)
Definition run_inference_body `{Imaging} (self : MainWindow) (img_filename : string)
    : M unit :=
  if Py.contains "_seg" img_filename then ret tt
  else
    let* img := imread (OsPath.join (mw_eval_data_path self) img_filename) in
    let orig_size := np_shape img in
    let seg_name := seg_name_of img_filename in
    let* mask :=
      if cond_2d img_filename orig_size then
        let* height := lift (py_index orig_size 0) in
        let* width := lift (py_index orig_size 1) in
        let max_dim := Z.max height width in
        let* scale := lift (inverse_rescale_factor max_dim) in
        let img := rescale img scale None in
        let* mask := eval_model img None in
        ret (resize mask [height; width])
      else if cond_3d img_filename orig_size then
        print [stack_warning] ;;
        let* height := lift (py_index orig_size 1) in
        let* width := lift (py_index orig_size 2) in
        let max_dim := Z.max height width in
        let* scale := lift (inverse_rescale_factor max_dim) in
        let img := rescale img scale (Some 0%Z) in
        let* mask := eval_model img (Some 0%Z) in
        let* depth := lift (py_index orig_size 0) in
        ret (resize mask [depth; height; width])
      else
        print [not_supported_text; repr_str_tuple accepted_types; "Exiting now."] ;;
        sys_exit in
    imsave (OsPath.join (mw_eval_data_path self) seg_name) mask.

(** [list_files]: the entries of the uncurated folder with an accepted
    suffix. *)
Definition list_files (names : list string) : list string :=
  List.filter (fun file => Py.str_in (PathLib.suffix file) accepted_types) names.

(** [MainWindow.run_inference].  The model object it builds first has no
    effect on the world; its [eval] is [model_eval]. *)
Definition run_inference `{Imaging} (self : MainWindow) : M unit :=
  let* names := os_listdir (mw_eval_data_path self) in
  for_each (list_files names) (run_inference_body self).

(** ** The welcome window: [class WelcomeWindow] *)

Record WelcomeWindow `{Imaging} := MkWelcomeWindow {
  filename_train : string;
  filename_val : string;
  mw : option MainWindow;
  ww_visible : bool;
}.

(** [WelcomeWindow.__init__]: both folders unset, shown. *)
Definition WelcomeWindow_init `{Imaging} : WelcomeWindow :=
  MkWelcomeWindow _ "" "" None true.

(** [browse_eval_clicked]; [chosen] is what the directory dialog returned,
    [None] when it was cancelled. *)
Definition browse_eval_clicked `{Imaging} (self : WelcomeWindow)
    (chosen : option string) : WelcomeWindow :=
  MkWelcomeWindow _ (filename_train self) (default (filename_val self) chosen)
    (mw self) (ww_visible self).

(** [browse_train_clicked] *)
Definition browse_train_clicked `{Imaging} (self : WelcomeWindow)
    (chosen : option string) : WelcomeWindow :=
  MkWelcomeWindow _ (default (filename_train self) chosen) (filename_val self)
    (mw self) (ww_visible self).

(** [WelcomeWindow.start_main] *)
Definition start_main `{Imaging} (self : WelcomeWindow) : M WelcomeWindow :=
  if Py.truthy (filename_train self) && Py.truthy (filename_val self) then
    ret (MkWelcomeWindow _ (filename_train self) (filename_val self)
           (Some (MainWindow_init (filename_val self) (filename_train self)))
           false)
  else
    msg_exec select_folders_text ;;
    ret self.

(** ** A runnable instance of the library interface *)

(** Arrays reduced to their shape.  [rescale] scales every axis but the
    channel axis and rounds; the mask of the model has one entry per pixel of
    a single image (two axes) or per voxel of a stack (three axes); [resize]
    returns the requested shape, keeping a trailing axis the request leaves
    out, as scikit-image does. *)
Definition scale_dim (s : Qc) (d : Z) : Z :=
  Qfloor (Qc_of_Z d * s + Qc_of_Z 1 / (Qc_of_Z 2))%Qc.

Definition shape_rescale (img : list Z) (s : Qc) (channel_axis : option Z) : list Z :=
  imap (fun i d => if bool_decide (channel_axis = Some (Z.of_nat i)) then d
                   else scale_dim s d) img.

Definition shape_eval (img : list Z) (z_axis : option Z) : list Z :=
  match z_axis with
  | None => take 2 img
  | Some _ => take 3 img
  end.

Definition shape_resize (m : list Z) (output_shape : list Z) : list Z :=
  output_shape ++ drop (length output_shape) m.

Definition shape_imaging : Imaging :=
  {| ndarray := list Z;
     np_shape := fun a => a;
     rescale := shape_rescale;
     model_eval := shape_eval;
     resize := shape_resize |}.

(** An empty world and a few windows over it, used to run the functions. *)
Definition world0 (files : list (string * list Z)) : @world shape_imaging :=
  @World shape_imaging (list_to_map files) [].

Definition main_window0 (e t : string) (cur : option string) : @MainWindow shape_imaging :=
  @MkMainWindow shape_imaging e t cur None true.

(** ** One iteration of the loop, as a relation *)

(** [iteration E n c r evs wr]: run for the file name [n] when the file
    [join(E, n)] holds [c] (or is missing), the body of the loop ends in [r],
    makes the calls [evs], and saves the mask [wr], if any, under
    [join(E, seg_name)].  One constructor per path through the body. *)
Inductive iteration `{Imaging} (E n : string) :
    option ndarray -> result unit -> list event -> option ndarray -> Prop :=
| it_skip c :
    Py.contains "_seg" n = true ->
    iteration E n c (Ok tt) [] None
| it_missing :
    Py.contains "_seg" n = false ->
    iteration E n None (Raise FileNotFoundError) [EvImread (OsPath.join E n)] None
| it_2d img height width rest scale :
    Py.contains "_seg" n = false ->
    cond_2d n (np_shape img) = true ->
    np_shape img = height :: width :: rest ->
    inverse_rescale_factor (Z.max height width) = Ok scale ->
    let input := rescale img scale None in
    let mask := resize (model_eval input None) [height; width] in
    iteration E n (Some img) (Ok tt)
      [EvImread (OsPath.join E n); EvModelEval input None;
       EvImsave (OsPath.join E (seg_name_of n)) mask]
      (Some mask)
| it_2d_index img :
    Py.contains "_seg" n = false ->
    cond_2d n (np_shape img) = true ->
    (length (np_shape img) < 2)%nat ->
    iteration E n (Some img) (Raise IndexError) [EvImread (OsPath.join E n)] None
| it_2d_zero img height width rest :
    Py.contains "_seg" n = false ->
    cond_2d n (np_shape img) = true ->
    np_shape img = height :: width :: rest ->
    Z.max height width = 0%Z ->
    iteration E n (Some img) (Raise ZeroDivisionError) [EvImread (OsPath.join E n)] None
| it_3d img depth height width scale :
    Py.contains "_seg" n = false ->
    cond_2d n (np_shape img) = false ->
    cond_3d n (np_shape img) = true ->
    np_shape img = [depth; height; width] ->
    inverse_rescale_factor (Z.max height width) = Ok scale ->
    let input := rescale img scale (Some 0%Z) in
    let mask := resize (model_eval input (Some 0%Z)) [depth; height; width] in
    iteration E n (Some img) (Ok tt)
      [EvImread (OsPath.join E n); EvPrint stack_warning;
       EvModelEval input (Some 0%Z);
       EvImsave (OsPath.join E (seg_name_of n)) mask]
      (Some mask)
| it_3d_zero img depth height width :
    Py.contains "_seg" n = false ->
    cond_2d n (np_shape img) = false ->
    cond_3d n (np_shape img) = true ->
    np_shape img = [depth; height; width] ->
    Z.max height width = 0%Z ->
    iteration E n (Some img) (Raise ZeroDivisionError)
      [EvImread (OsPath.join E n); EvPrint stack_warning] None
| it_unsupported img :
    Py.contains "_seg" n = false ->
    cond_2d n (np_shape img) = false ->
    cond_3d n (np_shape img) = false ->
    iteration E n (Some img) (Raise SystemExit)
      [EvImread (OsPath.join E n);
       EvPrint (Py.join_space
                  [not_supported_text; repr_str_tuple accepted_types; "Exiting now."])]
      None.

(** The file system after an iteration that saved [wr]. *)
Definition save_mask `{Imaging} (E n : string) (wr : option ndarray)
    (f : gmap string ndarray) : gmap string ndarray :=
  match wr with
  | Some mask => <[OsPath.join E (seg_name_of n) := mask]> f
  | None => f
  end.

(** A run of the loop over the names [l], every iteration reading what the
    file system [f0] held when the loop started. *)
Inductive loop_run `{Imaging} (E : string) (f0 : gmap string ndarray) :
    list string -> result unit -> list event -> Prop :=
| run_done : loop_run E f0 [] (Ok tt) []
| run_next n l evs1 wr r evs :
    iteration E n (f0 !! OsPath.join E n) (Ok tt) evs1 wr ->
    loop_run E f0 l r evs ->
    loop_run E f0 (n :: l) r (evs1 ++ evs)
| run_stop n l e evs1 wr :
    iteration E n (f0 !! OsPath.join E n) (Raise e) evs1 wr ->
    loop_run E f0 (n :: l) (Raise e) evs1.

(** The files the loop reads keep the content they had when it started:
    [f] agrees with [f0] on every path of [E] whose name has no ['_seg']. *)
Definition stable `{Imaging} (E : string) (f0 f : gmap string ndarray) : Prop :=
  forall n, Py.contains "_seg" n = false ->
            f !! OsPath.join E n = f0 !! OsPath.join E n.

(** ** The specification's own words *)

(** An unlabeled image of an accepted type: an accepted suffix and no
    ['_seg'] in the name. *)
Definition unlabeled (n : string) : bool :=
  Py.str_in (PathLib.suffix n) accepted_types && negb (Py.contains "_seg" n).

(** "2D RGB or grayscale (suffix .jpg/.jpeg/.png, or a .tiff/.tif with 2
    dimensions, or a .tiff/.tif with 3 dimensions whose last dimension is 3
    or 4)". *)
Definition spec_2d_case (n : string) (shape : list Z) : Prop :=
  PathLib.suffix n ∈ [".jpg"; ".jpeg"; ".png"]
  \/ (PathLib.suffix n ∈ [".tiff"; ".tif"] /\ length shape = 2%nat)
  \/ (PathLib.suffix n ∈ [".tiff"; ".tif"] /\ length shape = 3%nat
      /\ (last shape = Some 3%Z \/ last shape = Some 4%Z)).

(** "a .tiff/.tif with 3 dimensions not matching the RGB/RGBA case". *)
Definition spec_3d_case (n : string) (shape : list Z) : Prop :=
  PathLib.suffix n ∈ [".tiff"; ".tif"] /\ length shape = 3%nat
  /\ ~ (last shape = Some 3%Z \/ last shape = Some 4%Z).

(** "rescale by 512/max(height,width), eval, resize mask back to
    (height,width)". *)
Definition spec_2d_strategy `{Imaging} (img : ndarray) (height width : Z) : ndarray :=
  let scale := (Qc_of_Z 512 / Qc_of_Z (Z.max height width))%Qc in
  resize (model_eval (rescale img scale None) None) [height; width].

(** "rescale with channel_axis=0, eval with z_axis=0, resize mask back to
    (depth,height,width)". *)
Definition spec_3d_strategy `{Imaging} (img : ndarray) (depth height width : Z) : ndarray :=
  let scale := (Qc_of_Z 512 / Qc_of_Z (Z.max height width))%Qc in
  resize (model_eval (rescale img scale (Some 0%Z)) (Some 0%Z)) [depth; height; width].

(** "an image of unsupported shape (one whose suffix/shape combination
    matches neither the 2D branch nor the 3D-stack branch)". *)
Definition unsupported_shape (n : string) (shape : list Z) : Prop :=
  ~ spec_2d_case n shape /\ ~ spec_3d_case n shape.

(** The calls made between the world [w] and the later world [w']. *)
Definition new_log `{Imaging} (w w' : world) : list event :=
  drop (length (log w)) (log w').

(** The iteration for the name [m] completes: the file is skipped or gets
    its mask. *)
Definition completes `{Imaging} (E : string) (f : gmap string ndarray) (m : string)
    : Prop :=
  exists evs wr, iteration E m (f !! OsPath.join E m) (Ok tt) evs wr.

(** The message of the unsupported branch, as printed. *)
Definition not_supported_message : string :=
  Py.join_space [not_supported_text; repr_str_tuple accepted_types; "Exiting now."].

(** "for each unlabeled image in them [the two directories] ... invokes the
    external segmentation model": every unlabeled image of either folder is
    read and the model is called on a rescaling of it. *)
Definition walks_both_folders `{Imaging} (self : MainWindow) (w : world) : Prop :=
  forall d n,
    d ∈ [mw_eval_data_path self; mw_train_data_path self] ->
    n ∈ listing (fs w) d ->
    unlabeled n = true ->
    exists img scale axis z,
      fs w !! OsPath.join d n = Some img
      /\ EvModelEval (rescale img scale axis) z
         ∈ new_log w (snd (run_inference self w)).

(** The corrected mask of a viewer window:
    [self.viewer.layers[label_names[0]].data]. *)
Definition corrected_mask `{Imaging} (self : NapariWindow) : result ndarray :=
  match py_index (get_layer_names self Labels) 0 with
  | Ok first_name =>
      match layers_getitem (nw_layers self) first_name with
      | Ok lay => Ok (layer_data lay)
      | Raise e => Raise e
      end
  | Raise e => Raise e
  end.

(** "the image file is moved from eval_data_path to train_data_path, the
    corrected mask is written into train_data_path as stem + '_seg.tiff' ...
    afterwards neither the image nor its mask remains in the uncurated
    directory": the file system [f'] after the click, for the image content
    [img] and the corrected mask [seg]. *)
Definition pair_moved `{Imaging} (self : NapariWindow) (img seg : ndarray)
    (f' : gmap string ndarray) : Prop :=
  let E := nw_eval_data_path self in
  let T := nw_train_data_path self in
  let name := nw_img_filename self in
  f' !! OsPath.join E name = None
  /\ f' !! OsPath.join T name = Some img
  /\ f' !! OsPath.join T (seg_name_of name) = Some seg
  /\ f' !! OsPath.join E (seg_name_of name) = None.

(** The data of the Labels layer a viewer window shows, if it shows one. *)
Definition labels_of `{Imaging} (nw : NapariWindow) : option ndarray :=
  layer_data <$> List.find (fun l => bool_decide (layer_kind l = Labels)) (nw_layers nw).

(** "opens a viewer window": the call returns with a visible viewer window on
    the selected image and shows no message box. *)
Definition viewer_opened `{Imaging} (self : MainWindow) (w : world) : Prop :=
  exists self' nw,
    fst (launch_napari_window self w) = Ok self'
    /\ nap_win self' = Some nw
    /\ nw_visible nw = true
    /\ Some (nw_img_filename nw) = cur_selected_img self
    /\ forall t, EvMsgBox t ∉ new_log w (snd (launch_napari_window self w)).

(** "an image is currently selected and its filename does not contain
    '_seg.tiff'". *)
Definition image_selected (cur : option string) : Prop :=
  exists s, cur = Some s /\ s <> "" /\ Py.contains "_seg.tiff" s = false.

(** ** Sample worlds for running the script *)

Definition demo_main : @MainWindow shape_imaging := main_window0 "/uncurated" "/curated" None.

(** An RGB photograph, a grayscale stack, an old mask and a text file. *)
Definition demo_world : @world shape_imaging :=
  world0 [("/uncurated/a.png", [1024; 768; 3]%Z);
          ("/uncurated/b.tif", [10; 256; 256]%Z);
          ("/uncurated/a_seg.tiff", [3; 3]%Z);
          ("/uncurated/notes.txt", [1]%Z)].

(** The same with a four-dimensional TIFF, which no branch accepts. *)
Definition demo_world_4d : @world shape_imaging :=
  world0 [("/uncurated/a.png", [1024; 768; 3]%Z);
          ("/uncurated/t.tif", [2; 10; 256; 256]%Z)].

(** An unlabeled image that lies in the curated folder only. *)
Definition demo_world_curated : @world shape_imaging :=
  world0 [("/curated/z.png", [5; 5]%Z)].

(** A viewer window on [a.png] with a corrected mask, and the world it was
    opened in. *)
Definition demo_viewer (e t : string) : @NapariWindow shape_imaging :=
  @MkNapariWindow shape_imaging "a.png" e t [4; 4]%Z
    [@Layer shape_imaging Image "Image" [4; 4]%Z;
     @Layer shape_imaging Labels "seg" [4; 4; 1]%Z] true.

Definition demo_viewer_world (e : string) : @world shape_imaging :=
  world0 [(OsPath.join e "a.png", [4; 4]%Z);
          (OsPath.join e "a_seg.tiff", [4; 4]%Z)].

(** A viewer window in which no Labels layer is left. *)
Definition demo_viewer_unlabeled : @NapariWindow shape_imaging :=
  @MkNapariWindow shape_imaging "a.png" "/uncurated" "/curated" [4; 4]%Z
    [@Layer shape_imaging Image "Image" [4; 4]%Z] true.

(** A file shown in the tree view of the uncurated folder, inside a
    sub-folder. *)
Definition demo_world_nested : @world shape_imaging :=
  world0 [("/uncurated/run1/b.png", [8; 8]%Z)].

(** The viewer window of [demo_viewer] once it is closed. *)
Definition demo_viewer_closed (e t : string) : @NapariWindow shape_imaging :=
  @MkNapariWindow shape_imaging "a.png" e t [4; 4]%Z
    [@Layer shape_imaging Image "Image" [4; 4]%Z;
     @Layer shape_imaging Labels "seg" [4; 4; 1]%Z] false.

(** A main window with [a.png] selected, and welcome windows with one and
    with both folders chosen. *)
Definition demo_main_selected : @MainWindow shape_imaging :=
  main_window0 "/uncurated" "/curated" (Some "a.png").

Definition demo_welcome_one : @WelcomeWindow shape_imaging :=
  browse_eval_clicked (@WelcomeWindow_init shape_imaging) (Some "/uncurated").

Definition demo_welcome_both : @WelcomeWindow shape_imaging :=
  browse_train_clicked demo_welcome_one (Some "/curated").

(** ** Notions for whole runs of the loop *)

(** The path of the mask of the file [n] in the folder [E]. *)
Definition seg_path (E n : string) : string := OsPath.join E (seg_name_of n).

(** The loop computes the mask [mask] for the file [n] when the folder holds
    the files [f]: the iteration for [n] completes and saves [mask]. *)
Definition segments `{Imaging} (E : string) (f : gmap string ndarray)
    (n : string) (mask : ndarray) : Prop :=
  exists evs, iteration E n (f !! OsPath.join E n) (Ok tt) evs (Some mask).

(** No two files of [l] that the loop does not skip share a stem, so no two
    share a mask file. *)
Definition distinct_stems (l : list string) : Prop :=
  forall a b, a ∈ l -> b ∈ l ->
    Py.contains "_seg" a = false -> Py.contains "_seg" b = false ->
    PathLib.stem a = PathLib.stem b -> a = b.

(** The same files, as far as the loop does not skip them. *)
Definition same_images (l1 l2 : list string) : Prop :=
  forall n, Py.contains "_seg" n = false -> (n ∈ l1 <-> n ∈ l2).

(** ** The icons of the file views: [class IconProvider] *)

(** [s.endswith(suffix)] *)
Definition py_endswith (s suffix : string) : bool :=
  (String.length suffix <=? String.length s)%nat
  && String.eqb (Py.slice_from (String.length s - String.length suffix) s) suffix.

(** [s.endswith(t)] for a tuple [t] of suffixes. *)
Definition py_endswith_any (s : string) (t : list string) : bool :=
  existsb (py_endswith s) t.

(** What [icon] returns: the [QIcon] of a 512 x 512 pixmap loaded from a
    file, or the icon [QFileIconProvider] gives by itself. *)
Inductive file_icon := Thumbnail (fn : string) | DefaultIcon (fn : string).

(** [IconProvider.icon], for the file information of the path [fn]. *)
Definition IconProvider_icon (fn : string) : file_icon :=
  if py_endswith_any fn accepted_types then Thumbnail fn else DefaultIcon fn.

(** ** Sequences of clicks in the welcome window *)

(** A click on one of the two browse buttons, with what its directory
    dialog returned. *)
Inductive browse_click :=
| BrowseEval (chosen : option string)
| BrowseTrain (chosen : option string).

Definition browse `{Imaging} (self : WelcomeWindow) (c : browse_click) : WelcomeWindow :=
  match c with
  | BrowseEval chosen => browse_eval_clicked self chosen
  | BrowseTrain chosen => browse_train_clicked self chosen
  end.

(** The folder confirmed last in the dialogs of the uncurated and of the
    curated folder. *)
Definition last_eval_choice (cs : list browse_click) : option string :=
  last (omap (fun c => match c with BrowseEval chosen => chosen | _ => None end) cs).

Definition last_train_choice (cs : list browse_click) : option string :=
  last (omap (fun c => match c with BrowseTrain chosen => chosen | _ => None end) cs).

(** ** Handled conditions *)

(** A callback handles a condition when it deals with it by itself: it
    tells the user in a message box and returns, and no exception leaves
    it. *)
Definition handled `{Imaging} {A : Type} (m : M A) (w : world) : Prop :=
  exists a text, fst (m w) = Ok a /\ EvMsgBox text ∈ new_log w (snd (m w)).

(** "no other error condition in the program is handled": apart from the
    exit of [run_inference], no callback of the program handles anything. *)
Definition no_other_error_handled `{Imaging} : Prop :=
  forall w,
    (forall self : WelcomeWindow, ~ handled (start_main self) w)
    /\ (forall self : MainWindow, ~ handled (launch_napari_window self) w).

(** ** Proof tactics *)

(** Unfold the primitive actions of the monad and reduce the projections. *)
Ltac run_monad :=
  unfold read_seg_if_exists, imread, imsave, os_replace, os_remove, os_path_exists,
    eval_model, print, msg_exec, sys_exit;
  unfold bind, emit, get_fs, put_fs, ret, raise, lift;
  cbn [fs log fst snd].

(** Split a membership in an explicit list of calls into its cases, dropping
    the calls of another kind. *)
Ltac elem_of_events H :=
  repeat (apply elem_of_cons in H as [H|H]; [try discriminate H|]);
  try (by apply elem_of_nil in H).

(** ** Facts about strings *)

Section StringFacts.

Implicit Types (s p a b sub : string) (c : ascii).

Lemma app_cons_str x a s : String x a +:+ s = String x (a +:+ s).
Proof. reflexivity. Qed.

Lemma app_nil_l_str s : "" +:+ s = s.
Proof. reflexivity. Qed.

Lemma app_nil_r_str s : s +:+ "" = s.
Proof. induction s as [|x s IH]; [done | by rewrite app_cons_str, IH]. Qed.

Lemma app_assoc_str a b s : (a +:+ b) +:+ s = a +:+ (b +:+ s).
Proof. induction a as [|x a IH]; [done | by rewrite !app_cons_str, IH]. Qed.

Lemma length_app_str a b : String.length (a +:+ b) = (String.length a + String.length b)%nat.
Proof. induction a as [|x a IH]; [done | by rewrite app_cons_str; simpl; rewrite IH]. Qed.

Lemma str_prefix_cons x y p s :
  String.prefix (String x p) (String y s) = bool_decide (x = y) && String.prefix p s.
Proof. simpl. destruct (ascii_dec x y); by case_bool_decide. Qed.

Lemma str_prefix_app p s : String.prefix p (p +:+ s) = true.
Proof.
  induction p as [|x p IH]; [by destruct s |].
  rewrite app_cons_str, str_prefix_cons, IH. by rewrite bool_decide_eq_true_2.
Qed.

Lemma str_prefix_inv p s :
  String.prefix p s = true -> s = p +:+ Py.slice_from (String.length p) s.
Proof.
  revert s. induction p as [|x p IH]; intros [|y s]; try done.
  rewrite str_prefix_cons, app_cons_str. intros [Hxy H]%andb_true_iff.
  apply bool_decide_eq_true in Hxy as ->. simpl. f_equal. by apply IH.
Qed.

Lemma contains_prefix sub s : String.prefix sub s = true -> Py.contains sub s = true.
Proof. intros H. destruct s; simpl in *; rewrite H; done. Qed.

Lemma contains_cons sub x s :
  Py.contains sub s = true -> Py.contains sub (String x s) = true.
Proof. intros H. cbn [Py.contains]. rewrite H. apply orb_true_r. Qed.

Lemma contains_app_l sub a s :
  Py.contains sub s = true -> Py.contains sub (a +:+ s) = true.
Proof.
  intros H. induction a as [|x a IH]; [done |].
  rewrite app_cons_str. by apply contains_cons.
Qed.

Lemma str_prefix_app_r sub s b :
  String.prefix sub s = true -> String.prefix sub (s +:+ b) = true.
Proof.
  revert s. induction sub as [|x sub IH]; intros [|y s].
  - by destruct b.
  - by rewrite app_cons_str.
  - done.
  - rewrite app_cons_str, !str_prefix_cons.
    intros [-> H]%andb_true_iff. by rewrite IH.
Qed.

Lemma contains_app_r sub s b :
  Py.contains sub s = true -> Py.contains sub (s +:+ b) = true.
Proof.
  induction s as [|x s IH]; intros H.
  - simpl in H. rewrite orb_false_r in H. destruct sub; [|done].
    rewrite app_nil_l_str. by destruct b.
  - cbn [Py.contains] in H. apply orb_true_iff in H as [H|H].
    + apply contains_prefix. by apply (str_prefix_app_r _ (String x s)).
    + rewrite app_cons_str. apply contains_cons. by apply IH.
Qed.

Lemma contains_mid sub a b : Py.contains sub (a +:+ sub +:+ b) = true.
Proof. apply contains_app_l, contains_prefix, str_prefix_app. Qed.

Lemma contains_cons_inv sub x s :
  Py.contains sub (String x s) = false -> Py.contains sub s = false.
Proof. cbn [Py.contains]. intros H. by apply orb_false_iff in H as [_ H]. Qed.

(** Membership of a character, the case [sub] has length one. *)
Lemma contains_char_cons c x s :
  Py.contains (String c "") (String x s) = bool_decide (c = x) || Py.contains (String c "") s.
Proof.
  cbn [Py.contains]. rewrite str_prefix_cons. f_equal.
  destruct s; simpl; by rewrite andb_true_r.
Qed.

Lemma contains_char_app c a b :
  Py.contains (String c "") (a +:+ b)
  = Py.contains (String c "") a || Py.contains (String c "") b.
Proof.
  induction a as [|x a IH].
  - by rewrite app_nil_l_str.
  - rewrite app_cons_str, !contains_char_cons, IH. by rewrite orb_assoc.
Qed.

Lemma slice_to_from n s : Py.slice_to n s +:+ Py.slice_from n s = s.
Proof.
  revert s. induction n as [|n IH]; intros [|x s]; try done.
  simpl. by rewrite app_cons_str, IH.
Qed.

Lemma contains_char_slice_to c n s :
  Py.contains (String c "") s = false -> Py.contains (String c "") (Py.slice_to n s) = false.
Proof.
  intros H. rewrite <- (slice_to_from n s), contains_char_app in H.
  by apply orb_false_iff in H as [? _].
Qed.

Lemma rfind_slice_from c s i :
  Py.rfind c s = Some i -> exists rest, Py.slice_from i s = String c rest.
Proof.
  revert i. induction s as [|x s IH]; intros i; simpl; [done |].
  destruct (Py.rfind c s) as [j|] eqn:Hj.
  - intros [= <-]. simpl. by apply IH.
  - destruct (Ascii.eqb_spec x c) as [->|]; [|done].
    intros [= <-]. simpl. eauto.
Qed.

Lemma endswith_char_contains s c :
  Py.endswith_char s c = true -> Py.contains (String c "") s = true.
Proof.
  induction s as [|x s IH]; [done |].
  rewrite contains_char_cons. simpl. destruct s as [|y s].
  - intros ->%Ascii.eqb_eq. by rewrite bool_decide_eq_true_2.
  - intros H. rewrite IH by done. apply orb_true_r.
Qed.

Lemma endswith_char_app s x b c :
  Py.endswith_char (s +:+ String x b) c = Py.endswith_char (String x b) c.
Proof.
  induction s as [|y s IH]; [done |].
  rewrite app_cons_str. cbn [Py.endswith_char].
  destruct (s +:+ String x b) eqn:E.
  - destruct s; discriminate.
  - exact IH.
Qed.

(** Two ways of cutting the same string overlap. *)
Lemma str_app_eq_inv a b a' b' :
  a +:+ b = a' +:+ b' ->
  (exists q, a' = a +:+ q /\ b = q +:+ b') \/ (exists q, a = a' +:+ q /\ b' = q +:+ b).
Proof.
  revert a'. induction a as [|x a IH]; intros a' H.
  - left. by exists a'.
  - destruct a' as [|y a'].
    + right. by exists (String x a).
    + rewrite !app_cons_str in H. injection H as -> H.
      destruct (IH _ H) as [(q & -> & ->)|(q & -> & ->)]; [left | right]; by exists q.
Qed.

End StringFacts.

(** ** Facts about paths *)

Section PathFacts.

Implicit Types (p d n m : string).

Lemma split_no_slash p :
  Forall (fun x => Py.contains "/" x = false) (Py.split "/" p).
Proof.
  induction p as [|a p IH]; simpl.
  - by constructor.
  - destruct (Ascii.eqb_spec a "/") as [->|Ha].
    + by constructor.
    + destruct (Py.split "/" p) as [|x r]; inversion IH; subst.
      * constructor; [|done]. rewrite contains_char_cons.
        by rewrite bool_decide_eq_false_2 by congruence.
      * constructor; [|done]. rewrite contains_char_cons.
        by rewrite bool_decide_eq_false_2 by congruence.
Qed.

Lemma split_plain p : Py.contains "/" p = false -> Py.split "/" p = [p].
Proof.
  induction p as [|a p IH]; [done |].
  rewrite contains_char_cons. intros [Ha Hp]%orb_false_iff.
  apply bool_decide_eq_false in Ha. simpl.
  destruct (Ascii.eqb_spec a "/") as [->|_]; [done |].
  by rewrite IH.
Qed.

Lemma name_no_slash p : Py.contains "/" (PathLib.name p) = false.
Proof.
  unfold PathLib.name, PathLib.parts.
  assert (Forall (fun x => Py.contains "/" x = false)
            (List.filter
               (fun x => negb (String.eqb x "") && negb (String.eqb x "."))
               (Py.split "/" p))) as H.
  { apply Forall_forall. intros x [Hx _]%list_elem_of_In%filter_In.
    pose proof (split_no_slash p) as Hs. rewrite Forall_forall in Hs.
    by apply Hs, list_elem_of_In. }
  induction H as [|x l Hx Hl IH]; [done |].
  destruct l; [done | exact IH].
Qed.

Lemma name_plain n : plain_name n = true -> n <> "." -> PathLib.name n = n.
Proof.
  unfold plain_name. intros [Hn Hs]%andb_true_iff Hdot.
  apply negb_true_iff in Hs.
  unfold PathLib.name, PathLib.parts. rewrite split_plain by done. simpl.
  destruct (String.eqb_spec n "") as [->|_]; [done |].
  destruct (String.eqb_spec n ".") as [->|_]; done.
Qed.

Lemma stem_suffix p : PathLib.stem p +:+ PathLib.suffix p = PathLib.name p.
Proof.
  unfold PathLib.stem, PathLib.suffix.
  destruct (Py.rfind "." (PathLib.name p)) as [i|]; [|apply app_nil_r_str].
  destruct ((0 <? i)%nat && (i <? String.length (PathLib.name p) - 1)%nat).
  - apply slice_to_from.
  - apply app_nil_r_str.
Qed.

Lemma suffix_dot p : PathLib.suffix p = "" \/ exists r, PathLib.suffix p = String "." r.
Proof.
  unfold PathLib.suffix.
  destruct (Py.rfind "." (PathLib.name p)) as [i|] eqn:Hi; [|by left].
  destruct ((0 <? i)%nat && (i <? String.length (PathLib.name p) - 1)%nat); [|by left].
  right. by apply rfind_slice_from.
Qed.

Lemma stem_no_slash p : Py.contains "/" (PathLib.stem p) = false.
Proof.
  pose proof (name_no_slash p) as H. unfold PathLib.stem.
  destruct (Py.rfind "." (PathLib.name p)) as [i|]; [|done].
  destruct ((0 <? i)%nat && (i <? String.length (PathLib.name p) - 1)%nat); [|done].
  by apply contains_char_slice_to.
Qed.

Lemma seg_name_plain n : plain_name (seg_name_of n) = true.
Proof.
  unfold plain_name, seg_name_of. apply andb_true_iff. split.
  - destruct (PathLib.stem n); done.
  - by rewrite contains_char_app, stem_no_slash.
Qed.

Lemma seg_name_contains_seg n : Py.contains "_seg" (seg_name_of n) = true.
Proof. unfold seg_name_of. apply (contains_mid "_seg" _ ".tiff"). Qed.

Lemma seg_name_contains_seg_tiff n : Py.contains "_seg.tiff" (seg_name_of n) = true.
Proof.
  unfold seg_name_of. rewrite <- (app_nil_r_str "_seg.tiff").
  apply (contains_mid "_seg.tiff" _ "").
Qed.

Lemma plain_not_rooted n : plain_name n = true -> Py.startswith n "/" = false.
Proof.
  unfold plain_name. intros [_ Hs]%andb_true_iff. apply negb_true_iff in Hs.
  destruct (Py.startswith n "/") eqn:E; [|done].
  unfold Py.startswith in E. apply contains_prefix in E. congruence.
Qed.

Lemma seg_name_ne n : seg_name_of n <> n.
Proof.
  intros Heq.
  assert (plain_name n = true) as Hn by (rewrite <- Heq; apply seg_name_plain).
  destruct (decide (n = ".")) as [->|Hdot]; [done |].
  pose proof (stem_suffix n) as Hss. rewrite (name_plain n Hn Hdot) in Hss.
  unfold seg_name_of in Heq. rewrite <- Hss in Heq at 2.
  apply (inj (String.app _)) in Heq.
  destruct (suffix_dot n) as [E|[r E]]; rewrite E in Heq; discriminate.
Qed.

Lemma dir_prefix_cases d :
  dir_prefix d = "" \/ Py.endswith_char (dir_prefix d) "/" = true.
Proof.
  unfold dir_prefix, OsPath.join. simpl.
  destruct d as [|a d]; [by left | right]. simpl Py.truthy. simpl negb.
  rewrite orb_false_l.
  destruct (Py.endswith_char (String a d) "/") eqn:E.
  - by rewrite app_nil_r_str.
  - rewrite app_nil_r_str. by rewrite endswith_char_app.
Qed.

Lemma join_relative d n :
  Py.startswith n "/" = false -> OsPath.join d n = dir_prefix d +:+ n.
Proof.
  intros Hn. unfold dir_prefix, OsPath.join. rewrite Hn. simpl.
  destruct (negb (Py.truthy d) || Py.endswith_char d "/").
  - by rewrite app_nil_r_str.
  - by rewrite app_nil_r_str, app_assoc_str.
Qed.

Lemma join_plain d n : plain_name n = true -> OsPath.join d n = dir_prefix d +:+ n.
Proof. intros Hn. by apply join_relative, plain_not_rooted. Qed.

(** A directory prefix followed by a plain name determines both. *)
Lemma prefix_name_inj d1 d2 n1 n2 :
  plain_name n1 = true -> plain_name n2 = true ->
  dir_prefix d1 +:+ n1 = dir_prefix d2 +:+ n2 ->
  dir_prefix d1 = dir_prefix d2 /\ n1 = n2.
Proof.
  assert (forall p q n n', (p +:+ q = "" \/ Py.endswith_char (p +:+ q) "/" = true) ->
            plain_name n = true -> n = q +:+ n' -> q = "") as Hq.
  { intros p q n n' Hp [_ Hs]%andb_true_iff ->. apply negb_true_iff in Hs.
    rewrite contains_char_app in Hs. apply orb_false_iff in Hs as [Hs _].
    destruct q as [|x q]; [done |].
    destruct Hp as [Hp|Hp]; [by destruct p |].
    rewrite endswith_char_app in Hp. apply endswith_char_contains in Hp. congruence. }
  intros H1 H2 Heq.
  destruct (str_app_eq_inv _ _ _ _ Heq) as [(q & Hd & Hn)|(q & Hd & Hn)].
  - assert (q = "") as ->.
    { apply (Hq (dir_prefix d1) q n1 n2); [|done..]. rewrite <- Hd. apply dir_prefix_cases. }
    rewrite app_nil_r_str in Hd. by rewrite app_nil_l_str in Hn.
  - assert (q = "") as ->.
    { apply (Hq (dir_prefix d2) q n2 n1); [|done..]. rewrite <- Hd. apply dir_prefix_cases. }
    rewrite app_nil_r_str in Hd. by rewrite app_nil_l_str in Hn.
Qed.

Lemma join_plain_inj d1 d2 n1 n2 :
  plain_name n1 = true -> plain_name n2 = true ->
  OsPath.join d1 n1 = OsPath.join d2 n2 ->
  dir_prefix d1 = dir_prefix d2 /\ n1 = n2.
Proof.
  intros H1 H2. rewrite !join_plain by done. by apply prefix_name_inj.
Qed.

(** The path a mask is saved under is never the path of a file the loop of
    [run_inference] reads: the names it reads do not contain ['_seg']. *)
Lemma seg_path_fresh d m n :
  Py.contains "_seg" n = false -> OsPath.join d (seg_name_of m) <> OsPath.join d n.
Proof.
  intros Hn Heq. rewrite (join_plain d (seg_name_of m)) in Heq by apply seg_name_plain.
  destruct (Py.startswith n "/") eqn:Hr.
  - unfold OsPath.join in Heq at 1. rewrite Hr in Heq. rewrite <- Heq in Hn.
    rewrite contains_app_l in Hn; [done | apply seg_name_contains_seg].
  - rewrite join_relative in Heq by done. apply (inj (String.app _)) in Heq.
    rewrite <- Heq, seg_name_contains_seg in Hn. done.
Qed.

End PathFacts.

(** ** Facts about Python arithmetic and indexing *)

Section PythonFacts.

(** A non-negative index is a plain list lookup. *)
Lemma py_index_nonneg {A} (l : list A) (i : Z) :
  (0 <= i)%Z ->
  py_index l i = match l !! Z.to_nat i with
                 | Some x => Ok x
                 | None => Raise IndexError
                 end.
Proof.
  intros Hi. unfold py_index.
  destruct (Z.ltb_spec i 0) as [?|_]; [lia |].
  destruct (Z.leb_spec 0 i) as [_|?]; [|lia].
  destruct (Z.ltb_spec i (Z.of_nat (length l))) as [Hlt|Hge]; [done |].
  simpl. rewrite (proj2 (lookup_ge_None l (Z.to_nat i))); [done | lia].
Qed.

Lemma py_index_0 {A} (x : A) (l : list A) : py_index (x :: l) 0 = Ok x.
Proof. by rewrite py_index_nonneg. Qed.

Lemma py_index_1 {A} (x y : A) (l : list A) : py_index (x :: y :: l) 1 = Ok y.
Proof. by rewrite py_index_nonneg. Qed.

Lemma py_index_2 {A} (x y z : A) (l : list A) : py_index (x :: y :: z :: l) 2 = Ok z.
Proof. by rewrite py_index_nonneg. Qed.

Lemma py_index_short {A} (l : list A) (i : Z) :
  (0 <= i)%Z -> (length l <= Z.to_nat i)%nat -> py_index l i = Raise IndexError.
Proof.
  intros Hi Hl. rewrite py_index_nonneg by done.
  by rewrite (proj2 (lookup_ge_None l (Z.to_nat i))).
Qed.

Lemma last_eqb_3 (a b c v : Z) : last_eqb [a; b; c] v = (c =? v)%Z.
Proof. reflexivity. Qed.

Lemma Qc_of_Z_512 : Qc_of_Z 512 <> Qc_of_Z 0.
Proof. intros H%Z2Qc_inj. discriminate. Qed.

Lemma inverse_rescale_factor_zero : inverse_rescale_factor 0 = Raise ZeroDivisionError.
Proof. reflexivity. Qed.

(** [1/(max_dim/512)] is [512/max_dim]. *)
Lemma inverse_rescale_factor_ok (m : Z) :
  m <> 0%Z -> inverse_rescale_factor m = Ok (Qc_of_Z 512 / Qc_of_Z m)%Qc.
Proof.
  intros Hm. unfold inverse_rescale_factor, py_truediv.
  rewrite decide_False by apply Qc_of_Z_512.
  assert (Qc_of_Z m <> Qc_of_Z 0) as Hm' by (by intros H%Z2Qc_inj).
  rewrite Z2Qc_inj_0 in Hm'.
  rewrite decide_False.
  - f_equal. rewrite Z2Qc_inj_1. field. split; [done |].
    pose proof Qc_of_Z_512 as H. by rewrite Z2Qc_inj_0 in H.
  - rewrite Z2Qc_inj_0. intros H. apply Hm'.
    apply (f_equal (fun q => (q * Qc_of_Z 512)%Qc)) in H.
    rewrite Qcmult_0_l in H. rewrite <- H. field.
    pose proof Qc_of_Z_512 as H'. by rewrite Z2Qc_inj_0 in H'.
Qed.

Lemma inverse_rescale_factor_cases (m : Z) :
  (m = 0%Z /\ inverse_rescale_factor m = Raise ZeroDivisionError)
  \/ (m <> 0%Z /\ inverse_rescale_factor m = Ok (Qc_of_Z 512 / Qc_of_Z m)%Qc).
Proof.
  destruct (decide (m = 0%Z)) as [->|Hm]; [left | right]; split; try done.
  by apply inverse_rescale_factor_ok.
Qed.

End PythonFacts.

(** ** The loop body follows [iteration] *)

Section Body.

Context `{Imaging}.
Implicit Types (self : MainWindow) (w : world) (n : string).

Lemma world_eta w : World _ (fs w) (log w) = w.
Proof. by destruct w. Qed.


Lemma body_iteration self n w :
  exists r evs wr,
    iteration (mw_eval_data_path self) n
      (fs w !! OsPath.join (mw_eval_data_path self) n) r evs wr
    /\ run_inference_body self n w
       = (r, World _ (save_mask (mw_eval_data_path self) n wr (fs w)) (log w ++ evs)).
Proof.
  unfold run_inference_body.
  destruct (Py.contains "_seg" n) eqn:Hseg.
  { exists (Ok tt), [], None. split; [by apply it_skip |].
    unfold ret, save_mask. by rewrite app_nil_r, world_eta. }
  run_monad.
  destruct (fs w !! OsPath.join (mw_eval_data_path self) n) as [img|] eqn:Himg.
  2:{ exists (Raise FileNotFoundError), [EvImread (OsPath.join (mw_eval_data_path self) n)], None.
      split; [by apply it_missing | done]. }
  destruct (cond_2d n (np_shape img)) eqn:H2d.
  - destruct (np_shape img) as [|height [|width rest]] eqn:Hshape.
    + eexists _, _, None. split.
      * apply it_2d_index; rewrite ?Hshape; [done | done | simpl; lia].
      * by rewrite py_index_short by (simpl; lia).
    + eexists _, _, None. split.
      * apply it_2d_index; rewrite ?Hshape; [done | done | simpl; lia].
      * rewrite py_index_0. by rewrite py_index_short by (simpl; lia).
    + rewrite py_index_0, py_index_1.
      destruct (inverse_rescale_factor_cases (Z.max height width)) as [[Hz E]|[Hz E]];
        rewrite E.
      * eexists _, _, None. split; [|done].
        eapply (it_2d_zero _ _ img); rewrite ?Hshape; done.
      * eexists _, _, (Some _). split.
        -- eapply (it_2d _ _ img); rewrite ?Hshape; done.
        -- unfold save_mask. cbn [fs log]. by rewrite <- !app_assoc.
  - destruct (cond_3d n (np_shape img)) eqn:H3d.
    + assert (length (np_shape img) = 3%nat) as Hlen.
      { unfold cond_3d in H3d. apply andb_true_iff in H3d as [_ H3d].
        by apply Nat.eqb_eq in H3d. }
      destruct (np_shape img) as [|depth [|height [|width [|? ?]]]] eqn:Hshape;
        try discriminate Hlen.
      rewrite py_index_1, py_index_2. cbn [fs log].
      destruct (inverse_rescale_factor_cases (Z.max height width)) as [[Hz E]|[Hz E]];
        rewrite E.
      * eexists _, _, None. split; [|by rewrite <- !app_assoc].
        eapply (it_3d_zero _ _ img); rewrite ?Hshape; done.
      * rewrite py_index_0. cbn [fs log].
        eexists _, _, (Some _). split.
        -- eapply (it_3d _ _ img); rewrite ?Hshape; done.
        -- unfold save_mask. cbn [fs log]. by rewrite <- !app_assoc.
    + eexists _, _, None. split; [by apply it_unsupported |].
      cbn [fs log]. by rewrite <- !app_assoc.
Qed.

(** An iteration is determined by the file name and the content read. *)
Lemma iteration_det E n c r evs wr r' evs' wr' :
  iteration E n c r evs wr -> iteration E n c r' evs' wr' ->
  r = r' /\ evs = evs' /\ wr = wr'.
Proof.
  intros H1 H2.
  destruct H1; inversion H2; clear H2; subst;
    repeat match goal with x := _ |- _ => subst x end;
    try congruence;
    repeat match goal with
    | H : np_shape ?i = _, H' : np_shape ?i = _ |- _ =>
        rewrite H in H'; injection H' as ; subst
    | H : np_shape ?i = _, H' : (length (np_shape ?i) < 2)%nat |- _ =>
        rewrite H in H'; simpl in H'; lia
    | H : Z.max ?a ?b = 0%Z, H' : inverse_rescale_factor (Z.max ?a ?b) = Ok _ |- _ =>
        rewrite H, inverse_rescale_factor_zero in H'; discriminate H'
    | H : inverse_rescale_factor ?m = Ok _, H' : inverse_rescale_factor ?m = Ok _ |- _ =>
        rewrite H in H'; injection H' as ; subst
    end;
    try done.
Qed.

(** The body only ever touches the file system by saving one mask. *)
Lemma body_unsupported self n w img :
  Py.contains "_seg" n = false ->
  fs w !! OsPath.join (mw_eval_data_path self) n = Some img ->
  cond_2d n (np_shape img) = false ->
  cond_3d n (np_shape img) = false ->
  run_inference_body self n w
  = (Raise SystemExit,
     World _ (fs w)
       (log w ++ [EvImread (OsPath.join (mw_eval_data_path self) n);
                  EvPrint (Py.join_space [not_supported_text;
                                          repr_str_tuple accepted_types;
                                          "Exiting now."])])).
Proof.
  intros Hseg Himg H2 H3.
  destruct (body_iteration self n w) as (r & evs & wr & Hit & ->).
  rewrite Himg in Hit.
  by destruct (iteration_det _ _ _ _ _ _ _ _ _ Hit (it_unsupported _ _ img Hseg H2 H3))
    as (-> & -> & ->).
Qed.

End Body.

(** ** The loop follows [loop_run] *)

Section Loop.

Context `{Imaging}.
Implicit Types (self : MainWindow) (w : world) (n : string) (l : list string).
Implicit Types (f : gmap string ndarray).

Lemma stable_refl E f : stable E f f.
Proof. by intros n _. Qed.

Lemma stable_save E f0 f m wr : stable E f0 f -> stable E f0 (save_mask E m wr f).
Proof.
  intros Hst n Hn. destruct wr as [mask|]; simpl; [|by apply Hst].
  rewrite lookup_insert_ne by by apply seg_path_fresh. by apply Hst.
Qed.

Lemma iteration_content E n c c' r evs wr :
  (Py.contains "_seg" n = false -> c = c') ->
  iteration E n c r evs wr -> iteration E n c' r evs wr.
Proof.
  intros Hc Hit. destruct (Py.contains "_seg" n) eqn:Hn.
  - inversion Hit; subst; try congruence. by apply it_skip.
  - by rewrite <- Hc.
Qed.

Lemma for_each_cons {A} (x : A) (r : list A) (body : A -> M unit) w :
  for_each (x :: r) body w
  = match body x w with
    | (Ok _, w1) => for_each r body w1
    | (Raise e, w1) => (Raise e, w1)
    end.
Proof. reflexivity. Qed.

Lemma for_each_app {A} (pre post : list A) (body : A -> M unit) w :
  for_each (pre ++ post) body w
  = match for_each pre body w with
    | (Ok _, w1) => for_each post body w1
    | (Raise e, w1) => (Raise e, w1)
    end.
Proof.
  revert w. induction pre as [|x pre IH]; intros w; [done |].
  rewrite <- app_comm_cons, !for_each_cons.
  destruct (body x w) as [[[]|e] w1]; [apply IH | done].
Qed.

(** A loop that raises stopped at some element, after completing the ones
    before it. *)
Lemma for_each_raise_inv {A} (l : list A) (body : A -> M unit) w e w' :
  for_each l body w = (Raise e, w') ->
  exists pre x post w1,
    l = pre ++ x :: post
    /\ for_each pre body w = (Ok tt, w1)
    /\ body x w1 = (Raise e, w').
Proof.
  revert w. induction l as [|x l IH]; intros w; [done |].
  rewrite for_each_cons. destruct (body x w) as [[[]|e1] w1] eqn:Hx.
  - intros (pre & y & post & w2 & -> & Hpre & Hy)%IH.
    exists (x :: pre), y, post, w2. split; [done |].
    by rewrite for_each_cons, Hx.
  - intros [= -> ->]. by exists [], x, l, w.
Qed.

Lemma loop_run_sound self l f0 w :
  let E := mw_eval_data_path self in
  stable E f0 (fs w) ->
  exists r evs f',
    loop_run E f0 l r evs
    /\ stable E f0 f'
    /\ for_each l (run_inference_body self) w = (r, World _ f' (log w ++ evs)).
Proof.
  intros E. revert w. induction l as [|n l IH]; intros w Hst.
  - exists (Ok tt), [], (fs w). split; [constructor |]. split; [done |].
    unfold for_each, ret. by rewrite app_nil_r, world_eta.
  - rewrite for_each_cons.
    destruct (body_iteration self n w) as (r1 & evs1 & wr & Hit & ->).
    fold E in Hit |- *.
    apply (iteration_content _ _ _ (f0 !! OsPath.join E n)) in Hit; [|by apply Hst].
    destruct r1 as [[]|e].
    + destruct (IH (World _ (save_mask E n wr (fs w)) (log w ++ evs1)))
        as (r & evs & f' & Hrun & Hst' & ->); [by apply stable_save |].
      exists r, (evs1 ++ evs), f'. split; [by econstructor |]. split; [done |].
      cbn [log]. by rewrite app_assoc.
    + exists (Raise e), evs1, (save_mask E n wr (fs w)).
      split; [by econstructor |]. split; [by apply stable_save | done].
Qed.

(** Every call a run makes belongs to the iteration of one of the names. *)
Lemma loop_run_event E f0 l r evs e :
  loop_run E f0 l r evs -> e ∈ evs ->
  exists n r1 evs1 wr,
    n ∈ l /\ iteration E n (f0 !! OsPath.join E n) r1 evs1 wr /\ e ∈ evs1.
Proof.
  induction 1 as [|n l evs1 wr r evs Hit Hrun IH|n l e1 evs1 wr Hit]; intros He.
  - by apply elem_of_nil in He.
  - apply elem_of_app in He as [He|He].
    + exists n, (Ok tt), evs1, wr. split; [left | done].
    + destruct (IH He) as (m & r1 & evs2 & wr2 & Hm & Hit2 & He2).
      exists m, r1, evs2, wr2. split; [by right | done].
  - exists n, (Raise e1), evs1, wr. split; [left | done].
Qed.

(** In a run that completes, every name had its iteration, and the calls of
    that iteration are part of the run. *)
Lemma loop_run_complete E f0 l evs n :
  loop_run E f0 l (Ok tt) evs -> n ∈ l ->
  exists evs1 wr,
    iteration E n (f0 !! OsPath.join E n) (Ok tt) evs1 wr /\ evs1 ⊆ evs.
Proof.
  intros Hrun. remember (Ok tt) as r eqn:Hr.
  induction Hrun as [|m l evs1 wr r evs Hit Hrun IH|]; intros Hn; [|subst r|done].
  - by apply elem_of_nil in Hn.
  - apply elem_of_cons in Hn as [->|Hn].
    + exists evs1, wr. split; [done |]. intros e He. apply elem_of_app. by left.
    + destruct (IH eq_refl Hn) as (evs2 & wr2 & Hit2 & Hsub).
      exists evs2, wr2. split; [done |]. intros e He. apply elem_of_app. right. by apply Hsub.
Qed.

(** The file after a prefix of completed iterations is reached: its own
    iteration runs, and its calls are among those of the loop. *)
Lemma loop_run_reached E f0 pre n post r evs :
  loop_run E f0 (pre ++ n :: post) r evs ->
  Forall (completes E f0) pre ->
  exists r1 evs1 wr,
    iteration E n (f0 !! OsPath.join E n) r1 evs1 wr
    /\ (forall e, e ∈ evs1 -> e ∈ evs).
Proof.
  revert r evs. induction pre as [|a pre IH]; intros r evs Hrun Hpre.
  - simpl in Hrun.
    inversion Hrun as [|? ? evs1 wr ? evs2 Hit Hrest|? ? e evs1 wr Hit]; subst.
    + exists (Ok tt), evs1, wr. split; [done |]. intros e He. apply elem_of_app. by left.
    + by exists (Raise e), evs, wr.
  - apply Forall_cons in Hpre as [(evsa & wra & Ha) Hpre]. simpl in Hrun.
    inversion Hrun as [|? ? evs1 wr ? evs2 Hit Hrest|? ? e evs1 wr Hit]; subst.
    + destruct (IH _ _ Hrest Hpre) as (r1 & evs3 & wr3 & Hn & Hsub).
      exists r1, evs3, wr3. split; [done |]. intros e He. apply elem_of_app. right.
      by apply Hsub.
    + by destruct (iteration_det _ _ _ _ _ _ _ _ _ Ha Hit) as (? & _).
Qed.

(** [run_inference] lists the uncurated folder and runs the loop. *)
Lemma run_inference_unfold self w :
  Py.truthy (mw_eval_data_path self) = true ->
  run_inference self w
  = for_each (list_files (listing (fs w) (mw_eval_data_path self)))
      (run_inference_body self)
      (World _ (fs w) (log w ++ [EvListdir (mw_eval_data_path self)])).
Proof.
  intros HE. unfold run_inference, os_listdir. rewrite HE.
  unfold bind, emit, get_fs, ret. by cbn [fs log].
Qed.

Lemma run_inference_no_folder self w :
  Py.truthy (mw_eval_data_path self) = false ->
  run_inference self w
  = (Raise FileNotFoundError,
     World _ (fs w) (log w ++ [EvListdir (mw_eval_data_path self)])).
Proof.
  intros HE. unfold run_inference, os_listdir. rewrite HE.
  unfold bind, emit, raise. by cbn [fs log].
Qed.

(** The shape of every run of [run_inference]. *)
Lemma run_inference_run self w :
  let E := mw_eval_data_path self in
  exists r evs f',
    run_inference self w = (r, World _ f' (log w ++ EvListdir E :: evs))
    /\ stable E (fs w) f'
    /\ ((Py.truthy E = true /\ loop_run E (fs w) (list_files (listing (fs w) E)) r evs)
        \/ (Py.truthy E = false /\ r = Raise FileNotFoundError /\ evs = [])).
Proof.
  intros E. destruct (Py.truthy E) eqn:HE.
  - rewrite run_inference_unfold by done. fold E.
    destruct (loop_run_sound self (list_files (listing (fs w) E)) (fs w)
                (World _ (fs w) (log w ++ [EvListdir E])))
      as (r & evs & f' & Hrun & Hst & ->); [apply stable_refl |].
    exists r, evs, f'. cbn [log]. rewrite <- app_assoc. split; [done |].
    split; [done |]. by left.
  - rewrite run_inference_no_folder by done. fold E.
    exists (Raise FileNotFoundError), [], (fs w). split; [done |].
    split; [apply stable_refl |]. by right.
Qed.

End Loop.

(** ** The branch tests against the specification's cases *)

Section Branches.

Implicit Types (n : string) (shape : list Z).

Lemma str_in_elem_of (x : string) (t : list string) : Py.str_in x t = true <-> x ∈ t.
Proof.
  unfold Py.str_in. rewrite existsb_exists. split.
  - intros (y & Hy%list_elem_of_In & ->%String.eqb_eq). done.
  - intros Hx. exists x. split; [by apply list_elem_of_In | apply String.eqb_refl].
Qed.

Lemma last_eqb_last shape v :
  length shape = 3%nat -> last_eqb shape v = true <-> last shape = Some v.
Proof.
  intros Hlen. destruct shape as [|a [|b [|c [|? ?]]]]; try discriminate Hlen.
  rewrite last_eqb_3. simpl. rewrite Z.eqb_eq. split; congruence.
Qed.

Lemma tiff_not_plain_2d (x : string) :
  x ∈ [".tiff"; ".tif"] -> Py.str_in x [".jpg"; ".jpeg"; ".png"] = false.
Proof. intros Hx. repeat (apply elem_of_cons in Hx as [->|Hx]; [done |]). by apply elem_of_nil in Hx. Qed.

Lemma spec_2d_case_cond n shape : spec_2d_case n shape -> cond_2d n shape = true.
Proof.
  unfold spec_2d_case, cond_2d.
  intros [Hs|[[Hs Hl]|(Hs & Hl & Hlast)]].
  - apply str_in_elem_of in Hs. by rewrite Hs.
  - apply str_in_elem_of in Hs. rewrite Hs, Hl. simpl. apply orb_true_r.
  - rewrite Hl. simpl.
    assert (last_eqb shape 3 || last_eqb shape 4 = true) as ->.
    { apply orb_true_iff. destruct Hlast as [Hlast|Hlast]; [left | right];
        by apply last_eqb_last. }
    by rewrite !orb_true_r.
Qed.

Lemma spec_3d_case_cond n shape :
  spec_3d_case n shape -> cond_2d n shape = false /\ cond_3d n shape = true.
Proof.
  unfold spec_3d_case, cond_2d, cond_3d. intros (Hs & Hl & Hlast).
  rewrite (tiff_not_plain_2d _ Hs). apply str_in_elem_of in Hs. rewrite Hs, Hl.
  split; [|done]. simpl. apply orb_false_iff. split; apply not_true_iff_false.
  - intros Hv%last_eqb_last; [|done]. apply Hlast. by left.
  - intros Hv%last_eqb_last; [|done]. apply Hlast. by right.
Qed.

(** With an accepted suffix the code's tests are exactly the
    specification's cases. *)
Lemma accepted_suffix_cases (x : string) :
  Py.str_in x accepted_types = true ->
  x ∈ [".jpg"; ".jpeg"; ".png"] \/ x ∈ [".tiff"; ".tif"].
Proof.
  intros Hx%str_in_elem_of. unfold accepted_types in Hx.
  repeat (apply elem_of_cons in Hx as [->|Hx];
          [first [left; set_solver | right; set_solver] |]).
  by apply elem_of_nil in Hx.
Qed.

Lemma cond_2d_spec n shape :
  Py.str_in (PathLib.suffix n) accepted_types = true ->
  cond_2d n shape = true <-> spec_2d_case n shape.
Proof.
  intros Hacc. split; [|apply spec_2d_case_cond].
  unfold cond_2d, spec_2d_case. intros Hc.
  destruct (accepted_suffix_cases _ Hacc) as [Hs|Hs]; [by left |].
  rewrite (tiff_not_plain_2d _ Hs) in Hc. simpl in Hc.
  apply orb_true_iff in Hc as [Hc|Hc].
  - apply andb_true_iff in Hc as [_ Hl%Nat.eqb_eq]. right. by left.
  - apply andb_true_iff in Hc as [Hl%Nat.eqb_eq Hc]. right. right.
    split; [done |]. split; [done |].
    apply orb_true_iff in Hc as [Hc|Hc]; [left | right]; by apply last_eqb_last.
Qed.

Lemma cond_3d_spec n shape :
  cond_2d n shape = false /\ cond_3d n shape = true <-> spec_3d_case n shape.
Proof.
  split; [|apply spec_3d_case_cond].
  unfold cond_2d, cond_3d, spec_3d_case. intros [H2 H3].
  apply andb_true_iff in H3 as [Hs%str_in_elem_of Hl%Nat.eqb_eq].
  split; [done |]. split; [done |].
  rewrite Hl in H2. simpl in H2.
  apply orb_false_iff in H2 as [_ H2]. apply orb_false_iff in H2 as [_ H2].
  apply orb_false_iff in H2 as [Ha Hb].
  intros [Hv|Hv]; apply last_eqb_last in Hv; congruence.
Qed.

(** An accepted file whose shape fits neither case is a TIFF that has
    neither two nor three dimensions. *)
Lemma unsupported_spec n shape :
  Py.str_in (PathLib.suffix n) accepted_types = true ->
  cond_2d n shape = false /\ cond_3d n shape = false
  <-> PathLib.suffix n ∈ [".tiff"; ".tif"]
      /\ length shape <> 2%nat /\ length shape <> 3%nat.
Proof.
  intros Hacc. unfold cond_2d, cond_3d. split.
  - intros [H2 H3].
    destruct (accepted_suffix_cases _ Hacc) as [Hs|Hs].
    { apply str_in_elem_of in Hs. by rewrite Hs in H2. }
    split; [done |]. apply str_in_elem_of in Hs. rewrite Hs in H2, H3.
    simpl in H3. apply Nat.eqb_neq in H3. split; [|done].
    apply orb_false_iff in H2 as [_ H2]. apply orb_false_iff in H2 as [H2 _].
    simpl in H2. by apply Nat.eqb_neq in H2.
  - intros (Hs & Hl2 & Hl3). rewrite (tiff_not_plain_2d _ Hs).
    apply str_in_elem_of in Hs. rewrite Hs.
    apply Nat.eqb_neq in Hl2, Hl3. by rewrite Hl2, Hl3.
Qed.

End Branches.

Section Strategy.

Context `{Imaging}.


End Strategy.

(** ** Directory listings *)

Section Listing.

Context `{Imaging}.
Implicit Types (f : gmap string ndarray) (d n : string).

Lemma slice_from_app (p s : string) : Py.slice_from (String.length p) (p +:+ s) = s.
Proof. induction p as [|a p IH]; [by destruct s |]. by rewrite app_cons_str. Qed.

Lemma dir_entry_spec pre key n :
  dir_entry pre key = Some n <-> key = pre +:+ n /\ plain_name n = true.
Proof.
  unfold dir_entry, plain_name, Py.startswith. split.
  - destruct (String.prefix pre key) eqn:Hp; [|done].
    apply str_prefix_inv in Hp.
    destruct (Py.truthy _ && negb _) eqn:Hn; [|done].
    intros [= <-]. split; [done | exact Hn].
  - intros [-> Hn]. by rewrite str_prefix_app, slice_from_app, Hn.
Qed.

(** A listing holds exactly the plain names of the files in the folder. *)
Lemma listing_spec f d n :
  n ∈ listing f d <-> plain_name n = true /\ is_Some (f !! (dir_prefix d +:+ n)).
Proof.
  unfold listing. rewrite list_elem_of_omap. split.
  - intros (key & Hkey & [-> Hn]%dir_entry_spec). split; [done |].
    apply list_elem_of_fmap in Hkey as ([k v] & -> & Hkv).
    apply elem_of_map_to_list in Hkv. by exists v.
  - intros [Hn [v Hv]]. exists (dir_prefix d +:+ n). split.
    + apply list_elem_of_fmap. exists (dir_prefix d +:+ n, v). split; [done |].
      by apply elem_of_map_to_list.
    + by apply dir_entry_spec.
Qed.

Lemma listing_plain f d n : n ∈ listing f d -> plain_name n = true.
Proof. by intros [? _]%listing_spec. Qed.

Lemma listing_exists f d n : n ∈ listing f d -> is_Some (f !! OsPath.join d n).
Proof. intros [Hn Hf]%listing_spec. by rewrite join_plain. Qed.

Lemma elem_of_list_files n (names : list string) :
  n ∈ list_files names
  <-> n ∈ names /\ Py.str_in (PathLib.suffix n) accepted_types = true.
Proof. unfold list_files. by rewrite list_elem_of_In, filter_In, <- list_elem_of_In. Qed.

Lemma new_log_app (w w' : world) evs : log w' = log w ++ evs -> new_log w w' = evs.
Proof. intros Hl. unfold new_log. rewrite Hl. apply drop_app_length. Qed.

End Listing.

(** ** What a run of [run_inference] does *)

Section Inference.

Context `{Imaging}.
Implicit Types (self : MainWindow) (w : world) (n : string).


(** Every call of a run is the listing of the uncurated folder or belongs
    to the iteration of an accepted file of that folder. *)
Lemma run_inference_event self w e :
  let E := mw_eval_data_path self in
  e ∈ new_log w (snd (run_inference self w)) ->
  e = EvListdir E
  \/ exists n r1 evs1 wr,
      n ∈ listing (fs w) E
      /\ Py.str_in (PathLib.suffix n) accepted_types = true
      /\ iteration E n (fs w !! OsPath.join E n) r1 evs1 wr
      /\ e ∈ evs1.
Proof.
  intros E. destruct (run_inference_run self w) as (r & evs & f' & -> & _ & Hrun).
  fold E in Hrun |- *. cbn [snd]. rewrite (new_log_app _ _ (EvListdir E :: evs)) by done.
  intros [->|He]%elem_of_cons; [by left |]. right.
  destruct Hrun as [[_ Hrun]|(_ & _ & ->)]; [|by apply elem_of_nil in He].
  destruct (loop_run_event _ _ _ _ _ _ Hrun He) as (n & r1 & evs1 & wr & Hn & Hit & He1).
  apply elem_of_list_files in Hn as [Hn Hacc]. by exists n, r1, evs1, wr.
Qed.

(** Every mask a run saves is the mask of an unlabeled image of the
    uncurated folder, computed by one of the two strategies from what that
    image held when the run started, and saved under the image's stem. *)
Lemma run_inference_save self w p mask :
  let E := mw_eval_data_path self in
  EvImsave p mask ∈ new_log w (snd (run_inference self w)) ->
  exists n img,
    n ∈ listing (fs w) E
    /\ unlabeled n = true
    /\ fs w !! OsPath.join E n = Some img
    /\ p = OsPath.join E (seg_name_of n)
    /\ ((exists height width rest scale,
            spec_2d_case n (np_shape img)
            /\ np_shape img = height :: width :: rest
            /\ mask = resize (model_eval (rescale img scale None) None) [height; width])
        \/ (exists depth height width scale,
            spec_3d_case n (np_shape img)
            /\ np_shape img = [depth; height; width]
            /\ mask = resize (model_eval (rescale img scale (Some 0%Z)) (Some 0%Z))
                        [depth; height; width])).
Proof.
  intros E He. apply run_inference_event in He as [He|He]; [done |].
  destruct He as (n & r1 & evs1 & wr & Hn & Hacc & Hit & He). fold E in Hn, Hit.
  exists n. inversion Hit as [| |img h wd rest s Hseg H2 Hsh Hs input m Hc
                               | | |img d h wd s Hseg H2 H3 Hsh Hs input m Hc| |];
    subst; elem_of_events He.
  - injection He as -> ->. exists img. split; [done |].
    split; [unfold unlabeled; by rewrite Hacc, Hseg |]. split; [done |]. split; [done |].
    left. exists h, wd, rest, s. split; [by apply cond_2d_spec |]. done.
  - injection He as -> ->. exists img. split; [done |].
    split; [unfold unlabeled; by rewrite Hacc, Hseg |]. split; [done |]. split; [done |].
    right. exists d, h, wd, s. split; [by apply cond_3d_spec |]. done.
Qed.

(** An iteration that saves has completed, on a name without ['_seg'],
    and has saved under the mask name of its file. *)
Lemma iteration_save_path_inv E n c r evs wr p mask :
  iteration E n c r evs wr -> EvImsave p mask ∈ evs ->
  p = OsPath.join E (seg_name_of n) /\ Py.contains "_seg" n = false /\ r = Ok tt.
Proof.
  intros Hit Hev.
  inversion Hit; subst; elem_of_events Hev; injection Hev as -> _; done.
Qed.

(** The calls of the iteration of a file that the run reaches are calls of
    the run. *)
Lemma run_inference_reached self w pre n post :
  let E := mw_eval_data_path self in
  Py.truthy E = true ->
  list_files (listing (fs w) E) = pre ++ n :: post ->
  Forall (completes E (fs w)) pre ->
  exists r1 evs1 wr,
    iteration E n (fs w !! OsPath.join E n) r1 evs1 wr
    /\ (forall e, e ∈ evs1 -> e ∈ new_log w (snd (run_inference self w))).
Proof.
  intros E HE Hl Hpre.
  destruct (run_inference_run self w) as (r & evs & f' & -> & _ & Hrun).
  fold E in Hrun |- *. destruct Hrun as [[_ Hrun]|[? _]]; [|congruence].
  rewrite Hl in Hrun.
  destruct (loop_run_reached _ _ _ _ _ _ _ Hrun Hpre) as (r1 & evs1 & wr & Hit & Hsub).
  exists r1, evs1, wr. split; [done |]. intros e He. cbn [snd].
  rewrite (new_log_app _ _ (EvListdir E :: evs)) by done. right. by apply Hsub.
Qed.

(** The calls of a reached iteration in each of the two cases. *)
Lemma run_inference_reached_2d self w pre n post img height width rest :
  let E := mw_eval_data_path self in
  Py.truthy E = true ->
  list_files (listing (fs w) E) = pre ++ n :: post ->
  Forall (completes E (fs w)) pre ->
  Py.contains "_seg" n = false ->
  fs w !! OsPath.join E n = Some img ->
  spec_2d_case n (np_shape img) ->
  np_shape img = height :: width :: rest ->
  Z.max height width <> 0%Z ->
  EvImsave (OsPath.join E (seg_name_of n)) (spec_2d_strategy img height width)
    ∈ new_log w (snd (run_inference self w)).
Proof.
  intros E HE Hl Hpre Hseg Himg Hcase Hsh Hmax.
  destruct (run_inference_reached self w pre n post HE Hl Hpre)
    as (r1 & evs1 & wr & Hit & Hsub). fold E in Hit, Hsub. rewrite Himg in Hit.
  pose proof (it_2d E n img height width rest _ Hseg (spec_2d_case_cond _ _ Hcase) Hsh
                (inverse_rescale_factor_ok _ Hmax)) as Hit2.
  destruct (iteration_det _ _ _ _ _ _ _ _ _ Hit Hit2) as (_ & -> & _).
  apply Hsub. do 2 apply list_elem_of_further. apply list_elem_of_here.
Qed.

Lemma run_inference_reached_3d self w pre n post img depth height width :
  let E := mw_eval_data_path self in
  Py.truthy E = true ->
  list_files (listing (fs w) E) = pre ++ n :: post ->
  Forall (completes E (fs w)) pre ->
  Py.contains "_seg" n = false ->
  fs w !! OsPath.join E n = Some img ->
  spec_3d_case n (np_shape img) ->
  np_shape img = [depth; height; width] ->
  Z.max height width <> 0%Z ->
  EvImsave (OsPath.join E (seg_name_of n)) (spec_3d_strategy img depth height width)
    ∈ new_log w (snd (run_inference self w)).
Proof.
  intros E HE Hl Hpre Hseg Himg Hcase Hsh Hmax.
  destruct (run_inference_reached self w pre n post HE Hl Hpre)
    as (r1 & evs1 & wr & Hit & Hsub). fold E in Hit, Hsub. rewrite Himg in Hit.
  destruct (spec_3d_case_cond _ _ Hcase) as [H2 H3].
  pose proof (it_3d E n img depth height width _ Hseg H2 H3 Hsh
                (inverse_rescale_factor_ok _ Hmax)) as Hit3.
  destruct (iteration_det _ _ _ _ _ _ _ _ _ Hit Hit3) as (_ & -> & _).
  apply Hsub. do 3 apply list_elem_of_further. apply list_elem_of_here.
Qed.

(** The mask of an iteration that completes on an unlabeled image: the
    result of the strategy of its case, computed from that image. *)
Lemma iteration_mask E n img evs wr :
  Py.str_in (PathLib.suffix n) accepted_types = true ->
  Py.contains "_seg" n = false ->
  iteration E n (Some img) (Ok tt) evs wr ->
  exists mask,
    wr = Some mask
    /\ EvImsave (OsPath.join E (seg_name_of n)) mask ∈ evs
    /\ ((exists height width rest,
            spec_2d_case n (np_shape img)
            /\ np_shape img = height :: width :: rest
            /\ Z.max height width <> 0%Z
            /\ mask = spec_2d_strategy img height width)
        \/ (exists depth height width,
              spec_3d_case n (np_shape img)
              /\ np_shape img = [depth; height; width]
              /\ Z.max height width <> 0%Z
              /\ mask = spec_3d_strategy img depth height width)).
Proof.
  intros Hacc Hseg Hit.
  inversion Hit as [| |? h wd rest s ? H2 Hsh Hs input m Hc
                     | | |? d h wd s ? H2 H3 Hsh Hs input m Hc| |]; subst; [congruence | |].
  - exists m. split; [done |].
    split; [do 2 apply list_elem_of_further; apply list_elem_of_here |].
    left. exists h, wd, rest.
    destruct (inverse_rescale_factor_cases (Z.max h wd)) as [[Hz E0]|[Hz E0]];
      rewrite E0 in Hs; [done |]. injection Hs as <-.
    split; [by apply cond_2d_spec |]. done.
  - exists m. split; [done |].
    split; [do 3 apply list_elem_of_further; apply list_elem_of_here |].
    right. exists d, h, wd.
    destruct (inverse_rescale_factor_cases (Z.max h wd)) as [[Hz E0]|[Hz E0]];
      rewrite E0 in Hs; [done |]. injection Hs as <-.
    split; [by apply cond_3d_spec |]. done.
Qed.

(** C2.  The mask [run_inference] writes for an image has the resolution of
    that image.  Every unlabeled image the run reaches (the files before it
    in the listing have been skipped or segmented) and that falls in the 2D
    case gets the mask of the 2D strategy, computed from this image, saved
    under its own mask name, and the shape of that mask is the first two
    entries of the image's shape; in the 3D case it gets the mask of the 3D
    strategy and the shape of that mask is the image's shape.  When the run
    completes this holds of every unlabeled image of the folder.
    Conversely every mask the run saves is such a mask.  The libraries are
    assumed to behave as documented: [resize] returns the requested shape
    for an input with no more axes than requested, and the model returns a
    mask with two axes for a single image and three for a stack. *)
Theorem run_inference_restores_resolution self w :
  let E := mw_eval_data_path self in
  let files := list_files (listing (fs w) E) in
  let calls := new_log w (snd (run_inference self w)) in
  (forall m shape, (length (np_shape m) <= length shape)%nat ->
                   np_shape (resize m shape) = shape) ->
  (forall x z, (length (np_shape (model_eval x z))
                <= match z with None => 2 | Some _ => 3 end)%nat) ->
  (forall pre n post img,
      Py.truthy E = true ->
      files = pre ++ n :: post ->
      Forall (completes E (fs w)) pre ->
      Py.contains "_seg" n = false ->
      fs w !! OsPath.join E n = Some img ->
      (forall height width rest,
          spec_2d_case n (np_shape img) ->
          np_shape img = height :: width :: rest ->
          Z.max height width <> 0%Z ->
          EvImsave (OsPath.join E (seg_name_of n)) (spec_2d_strategy img height width)
            ∈ calls
          /\ np_shape (spec_2d_strategy img height width) = [height; width]
          /\ [height; width] = take 2 (np_shape img))
      /\ (forall depth height width,
            spec_3d_case n (np_shape img) ->
            np_shape img = [depth; height; width] ->
            Z.max height width <> 0%Z ->
            EvImsave (OsPath.join E (seg_name_of n))
              (spec_3d_strategy img depth height width) ∈ calls
            /\ np_shape (spec_3d_strategy img depth height width) = np_shape img))
  /\ (fst (run_inference self w) = Ok tt ->
      forall n, n ∈ listing (fs w) E -> unlabeled n = true ->
      exists img mask,
        fs w !! OsPath.join E n = Some img
        /\ EvImsave (OsPath.join E (seg_name_of n)) mask ∈ calls
        /\ ((spec_2d_case n (np_shape img)
             /\ (exists height width rest,
                    np_shape img = height :: width :: rest
                    /\ mask = spec_2d_strategy img height width)
             /\ np_shape mask = take 2 (np_shape img)
             /\ length (np_shape mask) = 2%nat)
            \/ (spec_3d_case n (np_shape img)
                /\ (exists depth height width,
                       np_shape img = [depth; height; width]
                       /\ mask = spec_3d_strategy img depth height width)
                /\ np_shape mask = np_shape img)))
  /\ (forall p mask,
      EvImsave p mask ∈ calls ->
      exists n img,
        n ∈ listing (fs w) E
        /\ unlabeled n = true
        /\ fs w !! OsPath.join E n = Some img
        /\ p = OsPath.join E (seg_name_of n)
        /\ ((spec_2d_case n (np_shape img)
             /\ (exists height width rest,
                    np_shape img = height :: width :: rest
                    /\ mask = spec_2d_strategy img height width)
             /\ np_shape mask = take 2 (np_shape img)
             /\ length (np_shape mask) = 2%nat)
            \/ (spec_3d_case n (np_shape img)
                /\ (exists depth height width,
                       np_shape img = [depth; height; width]
                       /\ mask = spec_3d_strategy img depth height width)
                /\ np_shape mask = np_shape img))).
Proof.
  intros E files calls Hresize Heval.
  assert (forall img h wd, np_shape (spec_2d_strategy img h wd) = [h; wd]) as Hsh2.
  { intros img h wd. unfold spec_2d_strategy. by rewrite Hresize by apply (Heval _ None). }
  assert (forall img d h wd, np_shape (spec_3d_strategy img d h wd) = [d; h; wd]) as Hsh3.
  { intros img d h wd. unfold spec_3d_strategy.
    by rewrite Hresize by apply (Heval _ (Some 0%Z)). }
  assert (forall n img mask,
            (exists height width rest,
                spec_2d_case n (np_shape img)
                /\ np_shape img = height :: width :: rest
                /\ Z.max height width <> 0%Z
                /\ mask = spec_2d_strategy img height width)
            \/ (exists depth height width,
                  spec_3d_case n (np_shape img)
                  /\ np_shape img = [depth; height; width]
                  /\ Z.max height width <> 0%Z
                  /\ mask = spec_3d_strategy img depth height width) ->
            (spec_2d_case n (np_shape img)
             /\ (exists height width rest,
                    np_shape img = height :: width :: rest
                    /\ mask = spec_2d_strategy img height width)
             /\ np_shape mask = take 2 (np_shape img)
             /\ length (np_shape mask) = 2%nat)
            \/ (spec_3d_case n (np_shape img)
                /\ (exists depth height width,
                       np_shape img = [depth; height; width]
                       /\ mask = spec_3d_strategy img depth height width)
                /\ np_shape mask = np_shape img)) as Hshape.
  { intros n img mask [(h & wd & rest & Hc & Hsh & _ & ->)|(d & h & wd & Hc & Hsh & _ & ->)];
      [left | right]; (split; [done |]).
    - split; [by exists h, wd, rest |]. by rewrite Hsh2, Hsh.
    - split; [by exists d, h, wd |]. by rewrite Hsh3, Hsh. }
  split; [|split].
  - intros pre n post img HE Hl Hpre Hseg Himg. split.
    + intros h wd rest Hc Hsh Hmax. split; [|split; [apply Hsh2 | by rewrite Hsh]].
      by apply (run_inference_reached_2d self w pre n post img h wd rest).
    + intros d h wd Hc Hsh Hmax. split; [|by rewrite Hsh3, Hsh].
      by apply (run_inference_reached_3d self w pre n post img d h wd).
  - intros Hok n Hn Hun.
    apply andb_true_iff in Hun as [Hacc Hseg%negb_true_iff].
    destruct (run_inference_run self w) as (r & evs & f' & Hrun & _ & Hloop).
    subst calls. rewrite Hrun in Hok |- *. cbn [fst snd] in Hok |- *. subst r.
    fold E in Hloop |- *. rewrite (new_log_app _ _ (EvListdir E :: evs)) by done.
    destruct Hloop as [[_ Hloop]|(_ & ? & _)]; [|done].
    assert (n ∈ list_files (listing (fs w) E)) as Hin by by apply elem_of_list_files.
    destruct (loop_run_complete _ _ _ _ _ Hloop Hin) as (evs1 & wr & Hit & Hsub).
    destruct (listing_exists _ _ _ Hn) as [img Himg]. rewrite Himg in Hit.
    destruct (iteration_mask E n img evs1 wr Hacc Hseg Hit) as (mask & _ & Hev & Hm).
    exists img, mask. split; [done |]. split; [right; by apply Hsub |]. by apply Hshape.
  - intros p mask Hev.
    apply run_inference_event in Hev as [Hev|(n & r1 & evs1 & wr & Hn & Hacc & Hit & Hev)];
      [done |]. fold E in Hn, Hit.
    pose proof (iteration_save_path_inv _ _ _ _ _ _ _ _ Hit Hev) as (-> & Hseg & Hr).
    destruct (listing_exists _ _ _ Hn) as [img Himg]. rewrite Himg in Hit. subst r1.
    destruct (iteration_mask E n img evs1 wr Hacc Hseg Hit) as (mask' & _ & Hev' & Hm).
    assert (mask' = mask) as ->.
    { inversion Hit; subst; elem_of_events Hev; elem_of_events Hev'; congruence. }
    exists n, img. split; [done |].
    split; [unfold unlabeled; by rewrite Hacc, Hseg |]. do 2 (split; [done |]).
    by apply Hshape.
Qed.

End Inference.

(** ** Runs that stop *)

Section Stops.

Context `{Imaging}.
Implicit Types (self : MainWindow) (w : world) (n : string) (l : list string).
Implicit Types (f : gmap string ndarray).

Lemma loop_run_det E f0 l r evs r' evs' :
  loop_run E f0 l r evs -> loop_run E f0 l r' evs' -> r = r' /\ evs = evs'.
Proof.
  intros Hrun. revert r' evs'.
  induction Hrun as [|n l evs1 wr r evs Hit Hrun IH|n l e evs1 wr Hit];
    intros r' evs' Hrun'; inversion Hrun' as [|? ? evs2 wr2 ? evs3 Hit2 Hrun2|? ? e2 evs2 wr2 Hit2];
    subst.
  - done.
  - destruct (iteration_det _ _ _ _ _ _ _ _ _ Hit Hit2) as (_ & -> & _).
    by destruct (IH _ _ Hrun2) as [-> ->].
  - by destruct (iteration_det _ _ _ _ _ _ _ _ _ Hit Hit2) as (? & _ & _).
  - by destruct (iteration_det _ _ _ _ _ _ _ _ _ Hit Hit2) as (? & _ & _).
  - by destruct (iteration_det _ _ _ _ _ _ _ _ _ Hit Hit2) as ([= ->] & -> & _).
Qed.

Lemma loop_run_raise_inv E f0 l e evs :
  loop_run E f0 l (Raise e) evs ->
  exists pre n post evs0 evs1 wr,
    l = pre ++ n :: post
    /\ Forall (completes E f0) pre
    /\ iteration E n (f0 !! OsPath.join E n) (Raise e) evs1 wr
    /\ evs = evs0 ++ evs1.
Proof.
  intros Hrun. remember (Raise e) as r eqn:Hr.
  induction Hrun as [|n l evs1 wr r evs Hit Hrun IH|n l e1 evs1 wr Hit]; [done | |].
  - destruct (IH Hr) as (pre & m & post & evs0 & evs2 & wr2 & -> & Hpre & Hm & ->).
    exists (n :: pre), m, post, (evs1 ++ evs0), evs2, wr2.
    split; [done |]. split; [|by rewrite app_assoc].
    constructor; [by exists evs1, wr | done].
  - injection Hr as ->. by exists [], n, l, [], evs1, wr.
Qed.

Lemma loop_run_stop_at E f0 pre n post e evs1 wr :
  Forall (completes E f0) pre ->
  iteration E n (f0 !! OsPath.join E n) (Raise e) evs1 wr ->
  exists evs, loop_run E f0 (pre ++ n :: post) (Raise e) evs.
Proof.
  intros Hpre Hn. induction Hpre as [|m pre (evs2 & wr2 & Hm) _ (evs & IH)].
  - exists evs1. by econstructor.
  - exists (evs2 ++ evs). simpl. by econstructor.
Qed.

(** No exception is caught: a run raises [e] exactly when the first
    iteration that does not complete raises [e]. *)
Lemma run_inference_raises self w e :
  let E := mw_eval_data_path self in
  Py.truthy E = true ->
  fst (run_inference self w) = Raise e
  <-> exists pre n post evs1 wr,
        list_files (listing (fs w) E) = pre ++ n :: post
        /\ Forall (completes E (fs w)) pre
        /\ iteration E n (fs w !! OsPath.join E n) (Raise e) evs1 wr.
Proof.
  intros E HE.
  destruct (run_inference_run self w) as (r & evs & f' & -> & _ & Hrun).
  fold E in Hrun. destruct Hrun as [[_ Hrun]|[? _]]; [|congruence]. cbn [fst]. split.
  - intros ->.
    destruct (loop_run_raise_inv _ _ _ _ _ Hrun)
      as (pre & n & post & evs0 & evs1 & wr & Hl & Hpre & Hn & _).
    by exists pre, n, post, evs1, wr.
  - intros (pre & n & post & evs1 & wr & Hl & Hpre & Hn).
    destruct (loop_run_stop_at E (fs w) pre n post e evs1 wr Hpre Hn) as [evs' Hrun'].
    rewrite <- Hl in Hrun'. by destruct (loop_run_det _ _ _ _ _ _ _ Hrun Hrun') as [-> _].
Qed.

Lemma iteration_exit_inv E n c evs wr :
  iteration E n c (Raise SystemExit) evs wr ->
  Py.contains "_seg" n = false
  /\ evs = [EvImread (OsPath.join E n); EvPrint not_supported_message]
  /\ wr = None
  /\ exists img, c = Some img
                 /\ cond_2d n (np_shape img) = false
                 /\ cond_3d n (np_shape img) = false.
Proof. intros Hit. inversion Hit; subst. do 3 (split; [done |]). by eexists. Qed.

Lemma unsupported_shape_cond n (shape : list Z) :
  Py.str_in (PathLib.suffix n) accepted_types = true ->
  unsupported_shape n shape <-> cond_2d n shape = false /\ cond_3d n shape = false.
Proof.
  intros Hacc. unfold unsupported_shape.
  rewrite <- (cond_2d_spec n shape Hacc), <- (cond_3d_spec n shape).
  destruct (cond_2d n shape), (cond_3d n shape); intuition congruence.
Qed.

(** An iteration saves a mask only under the stem of its file. *)
Lemma iteration_save_inv E n c r evs wr p mask :
  iteration E n c r evs wr -> EvImsave p mask ∈ evs ->
  p = OsPath.join E (seg_name_of n) /\ wr = Some mask.
Proof.
  intros Hit Hin. inversion Hit; subst; elem_of_events Hin; by injection Hin as <- <-.
Qed.

Lemma iteration_save_event E n c r evs mask :
  iteration E n c r evs (Some mask) ->
  EvImsave (OsPath.join E (seg_name_of n)) mask ∈ evs.
Proof. intros Hit. inversion Hit; subst; set_solver. Qed.

(** The loop changes the file system only by saving masks: after any run of
    it, every path holds what it held before or a mask saved in the run, and
    every path a mask was saved under still holds a mask saved in the run. *)
Lemma for_each_saves self l w :
  exists evs,
    log (snd (for_each l (run_inference_body self) w)) = log w ++ evs
    /\ (forall p,
          fs (snd (for_each l (run_inference_body self) w)) !! p = fs w !! p
          \/ exists mask,
               fs (snd (for_each l (run_inference_body self) w)) !! p = Some mask
               /\ EvImsave p mask ∈ evs)
    /\ (forall p mask,
          EvImsave p mask ∈ evs ->
          exists mask',
            fs (snd (for_each l (run_inference_body self) w)) !! p = Some mask'
            /\ EvImsave p mask' ∈ evs).
Proof.
  revert w. induction l as [|n l IH]; intros w.
  - exists []. cbn [for_each ret snd]. rewrite app_nil_r. split; [done |].
    split; [by left | intros ? ? Hin; by apply elem_of_nil in Hin].
  - rewrite for_each_cons.
    destruct (body_iteration self n w) as (r1 & evs1 & wr & Hit & ->).
    set (E := mw_eval_data_path self) in *.
    assert (forall p,
              save_mask E n wr (fs w) !! p = fs w !! p
              \/ exists mask, save_mask E n wr (fs w) !! p = Some mask
                              /\ EvImsave p mask ∈ evs1) as Hstep.
    { intros p. destruct wr as [mask|]; [|by left]. cbn [save_mask].
      destruct (decide (OsPath.join E (seg_name_of n) = p)) as [<-|Hne].
      - right. exists mask. rewrite lookup_insert_eq. split; [done |].
        by eapply iteration_save_event.
      - left. by rewrite lookup_insert_ne. }
    assert (forall p mask, EvImsave p mask ∈ evs1 ->
              save_mask E n wr (fs w) !! p = Some mask) as Hsaved.
    { intros p mask Hin.
      destruct (iteration_save_inv _ _ _ _ _ _ _ _ Hit Hin) as [-> ->].
      apply lookup_insert_eq. }
    destruct r1 as [[]|e].
    + destruct (IH (World _ (save_mask E n wr (fs w)) (log w ++ evs1)))
        as (evs2 & Hlog & Hfs & Hmasks).
      cbn [fs log] in Hlog, Hfs, Hmasks.
      exists (evs1 ++ evs2). split; [by rewrite Hlog, app_assoc |]. split.
      * intros p. destruct (Hfs p) as [Heq|(mask & Hp & Hin)].
        -- rewrite Heq. destruct (Hstep p) as [->|(mask & Hp & Hin)]; [by left | right].
           exists mask. split; [done |]. apply elem_of_app. by left.
        -- right. exists mask. split; [done |]. apply elem_of_app. by right.
      * intros p mask [Hin|Hin]%elem_of_app.
        -- destruct (Hfs p) as [Heq|(mask' & Hp & Hin')].
           ++ exists mask. rewrite Heq. split; [by apply Hsaved |].
              apply elem_of_app. by left.
           ++ exists mask'. split; [done |]. apply elem_of_app. by right.
        -- destruct (Hmasks p mask Hin) as (mask' & Hp & Hin').
           exists mask'. split; [done |]. apply elem_of_app. by right.
    + exists evs1. cbn [snd fs log]. split; [done |]. split; [exact Hstep |].
      intros p mask Hin. exists mask. split; [by apply Hsaved | done].
Qed.

(** C7.  When [run_inference] exits on an unsupported image, the loop had
    completed the files before that image, and the world it leaves is the
    world it had reached then, with two more calls logged: the read of the
    offending image and the message.  So no mask is saved for that image,
    the file system is left as the earlier iterations made it, and every
    path a mask was saved under in the run still holds a mask saved in the
    run. *)
Theorem run_inference_exit_keeps_masks self w :
  let E := mw_eval_data_path self in
  let files := list_files (listing (fs w) E) in
  let w0 := World _ (fs w) (log w ++ [EvListdir E]) in
  fst (run_inference self w) = Raise SystemExit ->
  exists pre n post w1,
    files = pre ++ n :: post
    /\ for_each pre (run_inference_body self) w0 = (Ok tt, w1)
    /\ snd (run_inference self w)
       = World _ (fs w1)
           (log w1 ++ [EvImread (OsPath.join E n); EvPrint not_supported_message])
    /\ (forall p mask,
          EvImsave p mask ∉ new_log w1 (snd (run_inference self w)))
    /\ (forall p mask,
          EvImsave p mask ∈ new_log w (snd (run_inference self w)) ->
          exists mask',
            fs (snd (run_inference self w)) !! p = Some mask'
            /\ EvImsave p mask' ∈ new_log w (snd (run_inference self w))).
Proof.
  intros E files w0 Hexit.
  destruct (Py.truthy E) eqn:HE.
  2:{ by rewrite run_inference_no_folder in Hexit. }
  rewrite run_inference_unfold in Hexit |- * by done. fold E files w0 in Hexit |- *.
  destruct (for_each_saves self files w0) as (evs & Hlog & _ & Hmasks).
  destruct (for_each files (run_inference_body self) w0) as [r w'] eqn:Hrun.
  cbn [fst snd] in Hexit, Hlog, Hmasks |- *. subst r.
  destruct (for_each_raise_inv _ _ _ _ _ Hrun) as (pre & n & post & w1 & Hl & Hpre & Hn).
  exists pre, n, post, w1. do 2 (split; [done |]).
  destruct (body_iteration self n w1) as (r & evs1 & wr & Hit & Hbody).
  rewrite Hbody in Hn. injection Hn as -> <-. fold E in Hit, Hlog, Hmasks |- *.
  apply iteration_exit_inv in Hit as (_ & -> & -> & _).
  split; [done |]. split.
  - intros p mask.
    rewrite (new_log_app w1 _ [EvImread (OsPath.join E n); EvPrint not_supported_message])
      by done.
    intros Hin. elem_of_events Hin.
  - intros p mask. subst w0. cbn [log] in Hlog.
    rewrite (new_log_app w _ (EvListdir E :: evs)) by by rewrite Hlog, <- app_assoc.
    intros [Hin|Hin]%elem_of_cons; [discriminate Hin |].
    destruct (Hmasks p mask Hin) as (mask' & Hp & Hin').
    exists mask'. split; [done | by right].
Qed.

End Stops.

(** ** Which files reach the model *)

Section Walk.

Context `{Imaging}.
Implicit Types (self : MainWindow) (w : world) (n : string).


(** C6, as the code has it.  [run_inference] lists one folder, the
    uncurated one.  When it completes, the model has been called on a
    rescaling of every unlabeled image of that folder.  Whether it
    completes or not, it reads only unlabeled images of that folder and
    calls the model only on rescalings of them; a file of the folder whose
    name contains ['_seg'] or whose suffix is not accepted is never
    read. *)
Theorem run_inference_walks_uncurated self w :
  let E := mw_eval_data_path self in
  let calls := new_log w (snd (run_inference self w)) in
  (forall d, EvListdir d ∈ calls -> d = E)
  /\ (fst (run_inference self w) = Ok tt ->
      forall n, n ∈ listing (fs w) E -> unlabeled n = true ->
      exists img scale axis z,
        fs w !! OsPath.join E n = Some img
        /\ EvModelEval (rescale img scale axis) z ∈ calls)
  /\ (forall p, EvImread p ∈ calls ->
      exists n, n ∈ listing (fs w) E /\ unlabeled n = true /\ p = OsPath.join E n)
  /\ (forall x z, EvModelEval x z ∈ calls ->
      exists n img scale axis,
        n ∈ listing (fs w) E /\ unlabeled n = true
        /\ fs w !! OsPath.join E n = Some img
        /\ x = rescale img scale axis)
  /\ (forall n, n ∈ listing (fs w) E -> unlabeled n = false ->
      EvImread (OsPath.join E n) ∉ calls).
Proof.
  intros E calls.
  assert (forall p, EvImread p ∈ calls ->
            exists n, n ∈ listing (fs w) E /\ unlabeled n = true
                      /\ p = OsPath.join E n) as Hreads.
  { intros p [Hev|(n & r1 & evs1 & wr & Hn & Hacc & Hit & Hev)]%run_inference_event;
      [done |]. fold E in Hn, Hit.
    exists n. split; [done |].
    inversion Hit; subst; elem_of_events Hev; injection Hev as ->;
      (split; [unfold unlabeled; by rewrite Hacc, H1 | done]). }
  split; [|split; [|split; [exact Hreads | split]]].
  - intros d [Hev|(n & r1 & evs1 & wr & _ & _ & Hit & Hev)]%run_inference_event;
      [by injection Hev |].
    inversion Hit; subst; elem_of_events Hev.
  - intros Hok n Hn Hun. subst calls.
    destruct (run_inference_run self w) as (r & evs & f' & Hrun & _ & Hloop).
    rewrite Hrun in Hok |- *. cbn [fst snd] in Hok |- *. subst r. fold E in Hloop |- *.
    rewrite (new_log_app _ _ (EvListdir E :: evs)) by done.
    destruct Hloop as [[_ Hloop]|(_ & ? & _)]; [|done].
    apply andb_true_iff in Hun as [Hacc Hseg%negb_true_iff].
    assert (n ∈ list_files (listing (fs w) E)) as Hin by by apply elem_of_list_files.
    destruct (loop_run_complete _ _ _ _ _ Hloop Hin) as (evs1 & wr & Hit & Hsub).
    inversion Hit as [| |img h wd rest s ? ? ? ? input m Hc
                       | | |img d h wd s ? ? ? ? ? input m Hc| |]; subst; try congruence.
    + exists img, s, None, None. split; [done |]. right. apply Hsub. set_solver.
    + exists img, s, (Some 0%Z), (Some 0%Z). split; [done |]. right. apply Hsub. set_solver.
  - intros x z [Hev|(n & r1 & evs1 & wr & Hn & Hacc & Hit & Hev)]%run_inference_event;
      [done |]. fold E in Hn, Hit.
    exists n.
    inversion Hit as [| |img h wd rest s Hseg ? ? ? input m Hc
                       | | |img d h wd s Hseg ? ? ? ? input m Hc| |];
      subst; elem_of_events Hev; injection Hev as -> ->.
    + exists img, s, None. split; [done |].
      split; [unfold unlabeled; by rewrite Hacc, Hseg | done].
    + exists img, s, (Some 0%Z). split; [done |].
      split; [unfold unlabeled; by rewrite Hacc, Hseg | done].
  - intros n Hn Hun Hev.
    destruct (Hreads _ Hev) as (n' & Hn' & Hun' & Heq).
    apply join_plain_inj in Heq as [_ ->]; [congruence | |];
      by eapply listing_plain.
Qed.

End Walk.

(** C6, as stated, fails: an unlabeled image that lies only in the curated
    folder is never passed to the model. *)
Lemma curated_folder_not_walked : ~ walks_both_folders demo_main demo_world_curated.
Proof.
  intros Hwalk.
  destruct (Hwalk "/curated" "z.png") as (img & scale & axis & z & _ & Hcall).
  - set_solver.
  - vm_compute. apply list_elem_of_here.
  - reflexivity.
  - assert (new_log demo_world_curated (snd (run_inference demo_main demo_world_curated))
            = [EvListdir "/uncurated"]) as Hlog by (vm_compute; reflexivity).
    rewrite Hlog in Hcall. apply list_elem_of_singleton in Hcall. discriminate Hcall.
Qed.

(** ** The viewer window *)

Section Viewer.

Context `{Imaging}.
Implicit Types (self : NapariWindow) (w : world).


Lemma bool_decide_is_Some {A} (o : option A) :
  bool_decide (is_Some o) = match o with Some _ => true | None => false end.
Proof. by destruct o. Qed.

(** What [on_add_button_clicked] does, case by case. *)
Lemma on_add_button_clicked_run self w :
  let E := nw_eval_data_path self in
  let T := nw_train_data_path self in
  let name := nw_img_filename self in
  let seg_name := seg_name_of name in
  on_add_button_clicked self w =
  match corrected_mask self with
  | Raise e => (Raise e, w)
  | Ok seg =>
      match fs w !! OsPath.join E name with
      | None =>
          (Raise FileNotFoundError,
           World _ (fs w)
             (log w ++ [EvReplace (OsPath.join E name) (OsPath.join T name)]))
      | Some img =>
          let f2 := <[OsPath.join T seg_name := seg]>
                      (<[OsPath.join T name := img]>
                         (delete (OsPath.join E name) (fs w))) in
          (Ok (MkNapariWindow _ name E T (nw_img self) (nw_layers self) false),
           World _ (delete (OsPath.join E seg_name) f2)
             (log w ++
              [EvReplace (OsPath.join E name) (OsPath.join T name);
               EvImsave (OsPath.join T seg_name) seg;
               EvExists (OsPath.join E seg_name)] ++
              match f2 !! OsPath.join E seg_name with
              | Some _ => [EvRemove (OsPath.join E seg_name)]
              | None => []
              end))
      end
  end.
Proof.
  intros E T name seg_name. unfold on_add_button_clicked, corrected_mask.
  fold E T name seg_name. unfold lift at 1, bind at 1.
  destruct (py_index (get_layer_names self Labels) 0) as [first_name|e];
    [|done].
  unfold lift at 1, bind at 1.
  destruct (layers_getitem (nw_layers self) first_name) as [lay|e];
    [|done].
  run_monad.
  destruct (fs w !! OsPath.join E name) as [img|]; [|done].
  cbn [fs log].
  set (f2 := <[OsPath.join T seg_name := layer_data lay]> _).
  rewrite bool_decide_is_Some.
  destruct (f2 !! OsPath.join E seg_name) as [old|] eqn:Hold.
  - cbn [fs log]. rewrite Hold. by rewrite <- !app_assoc.
  - rewrite (delete_id f2) by done. by rewrite <- !app_assoc.
Qed.

(** What [NapariWindow.__init__] does, case by case. *)
Lemma NapariWindow_init_run (name E T : string) w :
  let seg_name := seg_name_of name in
  let window img seg :=
    MkNapariWindow _ name E T img
      (match seg with
       | Some s => [Layer _ Image "Image" img] ++ [Layer _ Labels "seg" s]
       | None => [Layer _ Image "Image" img]
       end) true in
  let calls d :=
    match fs w !! OsPath.join d seg_name with
    | Some _ => [EvExists (OsPath.join d seg_name); EvImread (OsPath.join d seg_name)]
    | None => [EvExists (OsPath.join d seg_name)]
    end in
  NapariWindow_init name E T w =
  match fs w !! OsPath.join E name with
  | Some img =>
      (Ok (window img (fs w !! OsPath.join E seg_name)),
       World _ (fs w)
         (log w ++ [EvExists (OsPath.join E name); EvImread (OsPath.join E name)]
               ++ calls E))
  | None =>
      match fs w !! OsPath.join T name with
      | Some img =>
          (Ok (window img (fs w !! OsPath.join T seg_name)),
           World _ (fs w)
             (log w ++ [EvExists (OsPath.join E name); EvImread (OsPath.join T name)]
                   ++ calls T))
      | None =>
          (Raise FileNotFoundError,
           World _ (fs w)
             (log w ++ [EvExists (OsPath.join E name); EvImread (OsPath.join T name)]))
      end
  end.
Proof.
  intros seg_name window calls. unfold NapariWindow_init. fold seg_name.
  run_monad. subst calls. cbn beta.
  rewrite !bool_decide_is_Some.
  destruct (fs w !! OsPath.join E name) as [img|] eqn:Himg.
  - simpl. rewrite Himg. simpl. rewrite bool_decide_is_Some.
    destruct (fs w !! OsPath.join E seg_name) as [seg|] eqn:Hseg.
    + simpl. rewrite Hseg. simpl. by rewrite <- !app_assoc.
    + simpl. by rewrite <- !app_assoc.
  - simpl.
    destruct (fs w !! OsPath.join T name) as [img|] eqn:Himg'.
    2:{ simpl. by rewrite <- !app_assoc. }
    simpl. rewrite bool_decide_is_Some.
    destruct (fs w !! OsPath.join T seg_name) as [seg|] eqn:Hseg.
    + simpl. rewrite Hseg. simpl. by rewrite <- !app_assoc.
    + simpl. by rewrite <- !app_assoc.
Qed.

Lemma get_layer_names_no_labels self :
  (forall l, l ∈ nw_layers self -> layer_kind l <> Labels) ->
  get_layer_names self Labels = [].
Proof.
  intros Hno. unfold get_layer_names.
  assert (List.filter (fun l => bool_decide (layer_kind l = Labels)) (nw_layers self) = [])
    as ->; [|done].
  induction (nw_layers self) as [|l ls IH]; [done |]. simpl.
  rewrite bool_decide_eq_false_2 by (apply Hno; left).
  apply IH. intros l' Hl'. apply Hno. by right.
Qed.

(** C8.  With no Labels layer in the viewer, [label_names[0]] raises
    [IndexError] before anything else happens: the click leaves the world,
    that is both folders and the record of calls, exactly as it was. *)
Theorem click_without_labels self w :
  (forall l, l ∈ nw_layers self -> layer_kind l <> Labels) ->
  get_layer_names self Labels = []
  /\ on_add_button_clicked self w = (Raise IndexError, w).
Proof.
  intros Hno. pose proof (get_layer_names_no_labels self Hno) as Hnames.
  split; [done |].
  rewrite on_add_button_clicked_run. unfold corrected_mask. by rewrite Hnames.
Qed.



(** Every mask the click saves, probes or removes carries the image's
    stem. *)
Lemma on_add_button_clicked_names self w :
  let calls := new_log w (snd (on_add_button_clicked self w)) in
  let seg_name := seg_name_of (nw_img_filename self) in
  (forall p mask, EvImsave p mask ∈ calls ->
     p = OsPath.join (nw_train_data_path self) seg_name
     /\ corrected_mask self = Ok mask)
  /\ (forall p, EvExists p ∈ calls \/ EvRemove p ∈ calls ->
        p = OsPath.join (nw_eval_data_path self) seg_name).
Proof.
  intros calls seg_name. subst calls. rewrite on_add_button_clicked_run.
  fold seg_name.
  destruct (corrected_mask self) as [seg|e].
  2:{ cbn [snd]. rewrite (new_log_app w w []) by by rewrite app_nil_r.
      split; [intros ? ? Hin | intros ? [Hin|Hin]]; by apply elem_of_nil in Hin. }
  destruct (fs w !! _) as [img|].
  2:{ cbn [snd]. erewrite new_log_app by done.
      split; [intros ? ? Hin | intros ? [Hin|Hin]]; elem_of_events Hin. }
  cbn [snd]. erewrite new_log_app by done.
  split; [intros p mask Hin | intros p [Hin|Hin]];
    apply elem_of_app in Hin as [Hin|Hin]; elem_of_events Hin;
    try (by injection Hin as <-); try (by injection Hin as <- <-);
    destruct (_ !! _); elem_of_events Hin; by injection Hin as <-.
Qed.

(** The files [NapariWindow.__init__] probes and reads are the image and
    the mask of its stem, in one of the two folders, and the Labels layer it
    shows is that mask file of the folder the image was found in. *)
Lemma NapariWindow_init_names (name E T : string) w :
  let calls := new_log w (snd (NapariWindow_init name E T w)) in
  let seg_name := seg_name_of name in
  (forall p, EvExists p ∈ calls \/ EvImread p ∈ calls ->
     p ∈ [OsPath.join E name; OsPath.join T name;
          OsPath.join E seg_name; OsPath.join T seg_name])
  /\ (forall nw, fst (NapariWindow_init name E T w) = Ok nw ->
        labels_of nw
        = fs w !! OsPath.join
                    (if bool_decide (is_Some (fs w !! OsPath.join E name))
                     then E else T) seg_name).
Proof.
  intros calls seg_name. subst calls. rewrite NapariWindow_init_run.
  fold seg_name. rewrite bool_decide_is_Some.
  destruct (fs w !! OsPath.join E name) as [img|];
    [|destruct (fs w !! OsPath.join T name) as [img|]];
    cbn [fst snd]; (erewrite new_log_app by done); split.
  - intros p [Hin|Hin]; destruct (fs w !! OsPath.join E seg_name);
      elem_of_events Hin; injection Hin as <-; set_solver.
  - intros nw [= <-]. by destruct (fs w !! OsPath.join E seg_name).
  - intros p [Hin|Hin]; destruct (fs w !! OsPath.join T seg_name);
      elem_of_events Hin; injection Hin as <-; set_solver.
  - intros nw [= <-]. by destruct (fs w !! OsPath.join T seg_name).
  - intros p [Hin|Hin]; elem_of_events Hin; injection Hin as <-; set_solver.
  - done.
Qed.

End Viewer.

(** ** The naming convention of masks *)

Section Names.

Context `{Imaging}.

(** An iteration that completes on a name without ['_seg'] has saved a
    mask under the mask name of its file. *)
Lemma iteration_ok_save_event E n c evs wr :
  iteration E n c (Ok tt) evs wr -> Py.contains "_seg" n = false ->
  exists mask, EvImsave (OsPath.join E (seg_name_of n)) mask ∈ evs.
Proof.
  intros Hit Hseg. inversion Hit; subst; [congruence | |]; eexists.
  - do 2 apply list_elem_of_further. apply list_elem_of_here.
  - do 3 apply list_elem_of_further. apply list_elem_of_here.
Qed.

(** C3.  Every mask file the script writes or looks up is named by the stem
    of its image followed by ['_seg.tiff'].  [run_inference] saves only
    under such names in the uncurated folder, and it does save: the
    iteration of every unlabeled image it reaches and completes, hence of
    every unlabeled image of the folder when the run completes, saves a
    mask under the image's stem and ['_seg.tiff'].  A click on 'Add to
    training data' that completes has saved the corrected mask under this
    name in the curated folder, where the file then holds it unless the two
    folders give one path, and it probes and removes only this name in the
    uncurated folder.  The viewer window probes and reads, besides the
    image, only this name; whenever it is constructed it has probed this
    name in the folder it found the image in, has read the file when it is
    there, and shows the file of this name as its Labels layer. *)
Theorem mask_names_share_stem :
  (forall (self : MainWindow) (w : world) p mask,
      EvImsave p mask ∈ new_log w (snd (run_inference self w)) ->
      exists n,
        n ∈ listing (fs w) (mw_eval_data_path self)
        /\ unlabeled n = true
        /\ p = OsPath.join (mw_eval_data_path self) (PathLib.stem n +:+ "_seg.tiff"))
  /\ (forall (self : NapariWindow) (w : world) p mask,
      EvImsave p mask ∈ new_log w (snd (on_add_button_clicked self w)) ->
      corrected_mask self = Ok mask
      /\ p = OsPath.join (nw_train_data_path self)
               (PathLib.stem (nw_img_filename self) +:+ "_seg.tiff"))
  /\ (forall (self : NapariWindow) (w : world) p,
      EvExists p ∈ new_log w (snd (on_add_button_clicked self w))
      \/ EvRemove p ∈ new_log w (snd (on_add_button_clicked self w)) ->
      p = OsPath.join (nw_eval_data_path self)
            (PathLib.stem (nw_img_filename self) +:+ "_seg.tiff"))
  /\ (forall (name E T : string) (w : world),
      (forall p,
          EvExists p ∈ new_log w (snd (NapariWindow_init name E T w))
          \/ EvImread p ∈ new_log w (snd (NapariWindow_init name E T w)) ->
          p ∈ [OsPath.join E name; OsPath.join T name;
               OsPath.join E (PathLib.stem name +:+ "_seg.tiff");
               OsPath.join T (PathLib.stem name +:+ "_seg.tiff")])
      /\ (forall nw,
          fst (NapariWindow_init name E T w) = Ok nw ->
          labels_of nw
          = fs w !! OsPath.join
                      (if bool_decide (is_Some (fs w !! OsPath.join E name))
                       then E else T)
                      (PathLib.stem name +:+ "_seg.tiff")))
  /\ (forall (self : MainWindow) (w : world) pre n post,
      let E := mw_eval_data_path self in
      Py.truthy E = true ->
      list_files (listing (fs w) E) = pre ++ n :: post ->
      Forall (completes E (fs w)) pre ->
      Py.contains "_seg" n = false ->
      completes E (fs w) n ->
      exists mask,
        EvImsave (OsPath.join E (PathLib.stem n +:+ "_seg.tiff")) mask
          ∈ new_log w (snd (run_inference self w)))
  /\ (forall (self : MainWindow) (w : world),
      let E := mw_eval_data_path self in
      fst (run_inference self w) = Ok tt ->
      forall n, n ∈ listing (fs w) E -> unlabeled n = true ->
      exists mask,
        EvImsave (OsPath.join E (PathLib.stem n +:+ "_seg.tiff")) mask
          ∈ new_log w (snd (run_inference self w)))
  /\ (forall (self : NapariWindow) (w : world) self',
      let E := nw_eval_data_path self in
      let T := nw_train_data_path self in
      let seg_name := PathLib.stem (nw_img_filename self) +:+ "_seg.tiff" in
      fst (on_add_button_clicked self w) = Ok self' ->
      exists seg,
        corrected_mask self = Ok seg
        /\ EvImsave (OsPath.join T seg_name) seg
             ∈ new_log w (snd (on_add_button_clicked self w))
        /\ EvExists (OsPath.join E seg_name)
             ∈ new_log w (snd (on_add_button_clicked self w))
        /\ (OsPath.join E seg_name <> OsPath.join T seg_name ->
            fs (snd (on_add_button_clicked self w)) !! OsPath.join T seg_name = Some seg))
  /\ (forall (name E T : string) (w : world) nw,
      let D := if bool_decide (is_Some (fs w !! OsPath.join E name)) then E else T in
      let seg_name := PathLib.stem name +:+ "_seg.tiff" in
      fst (NapariWindow_init name E T w) = Ok nw ->
      EvExists (OsPath.join D seg_name) ∈ new_log w (snd (NapariWindow_init name E T w))
      /\ (is_Some (fs w !! OsPath.join D seg_name) ->
          EvImread (OsPath.join D seg_name)
            ∈ new_log w (snd (NapariWindow_init name E T w)))).
Proof.
  split; [|split; [|split; [|split; [|split; [|split; [|split]]]]]].
  - intros self w p mask Hin.
    destruct (run_inference_save self w p mask Hin) as (n & img & Hn & Hun & _ & Hp & _).
    by exists n.
  - intros self w p mask Hin.
    destruct (on_add_button_clicked_names self w) as [Hsave _].
    by destruct (Hsave p mask Hin).
  - intros self w p Hin.
    destruct (on_add_button_clicked_names self w) as [_ Hprobe].
    by apply Hprobe.
  - intros name E T w. apply NapariWindow_init_names.
  - intros self w pre n post E HE Hl Hpre Hseg (evs' & wr' & Hok).
    destruct (run_inference_reached self w pre n post HE Hl Hpre)
      as (r1 & evs1 & wr & Hit & Hsub). fold E in Hit, Hsub.
    destruct (iteration_det _ _ _ _ _ _ _ _ _ Hit Hok) as (-> & _ & _).
    destruct (iteration_ok_save_event _ _ _ _ _ Hit Hseg) as [mask Hev].
    exists mask. by apply Hsub.
  - intros self w E Hok n Hn Hun.
    apply andb_true_iff in Hun as [Hacc Hseg%negb_true_iff].
    destruct (run_inference_run self w) as (r & evs & f' & Hrun & _ & Hloop).
    rewrite Hrun in Hok |- *. cbn [fst snd] in Hok |- *. subst r.
    fold E in Hloop |- *. rewrite (new_log_app _ _ (EvListdir E :: evs)) by done.
    destruct Hloop as [[_ Hloop]|(_ & ? & _)]; [|done].
    assert (n ∈ list_files (listing (fs w) E)) as Hin by by apply elem_of_list_files.
    destruct (loop_run_complete _ _ _ _ _ Hloop Hin) as (evs1 & wr & Hit & Hsub).
    destruct (iteration_ok_save_event _ _ _ _ _ Hit Hseg) as [mask Hev].
    exists mask. right. by apply Hsub.
  - intros self w self' E T seg_name Hok.
    rewrite on_add_button_clicked_run in Hok |- *. fold E T in Hok |- *.
    destruct (corrected_mask self) as [seg|e]; [|done].
    destruct (fs w !! OsPath.join E (nw_img_filename self)) as [img|]; [|done].
    exists seg. split; [done |]. cbn [snd fs]. erewrite new_log_app by done.
    split; [apply list_elem_of_further, list_elem_of_here |].
    split; [do 2 apply list_elem_of_further; apply list_elem_of_here |].
    intros Hne. rewrite lookup_delete_ne by done. apply lookup_insert_eq.
  - intros name E T w nw D seg_name Hok. subst D.
    rewrite NapariWindow_init_run in Hok |- *. case_bool_decide as HE.
    + destruct HE as [img HE]. rewrite HE. cbn [snd].
      erewrite new_log_app by done. fold (seg_name_of name).
      destruct (fs w !! OsPath.join E (seg_name_of name)) as [s|] eqn:Hs.
      * split; [do 2 apply list_elem_of_further; apply list_elem_of_here |].
        intros _. do 3 apply list_elem_of_further. apply list_elem_of_here.
      * split; [do 2 apply list_elem_of_further; apply list_elem_of_here |].
        unfold seg_name, seg_name_of. unfold seg_name_of in Hs. rewrite Hs.
        by intros [? ?].
    + assert (fs w !! OsPath.join E name = None) as HEn.
      { destruct (fs w !! OsPath.join E name) eqn:Hx; [|done]. exfalso. apply HE. by eexists. }
      rewrite HEn in Hok |- *.
      destruct (fs w !! OsPath.join T name) as [img|] eqn:HT; [|done]. cbn [snd].
      erewrite new_log_app by done. fold (seg_name_of name).
      destruct (fs w !! OsPath.join T (seg_name_of name)) as [s|] eqn:Hs.
      * split; [do 2 apply list_elem_of_further; apply list_elem_of_here |].
        intros _. do 3 apply list_elem_of_further. apply list_elem_of_here.
      * split; [do 2 apply list_elem_of_further; apply list_elem_of_here |].
        unfold seg_name, seg_name_of. unfold seg_name_of in Hs. rewrite Hs.
        by intros [? ?].
Qed.

End Names.

(** ** The guarded window transitions *)

Section Windows.

Context `{Imaging}.

Lemma truthy_nonempty (s : string) : Py.truthy s = true <-> s <> "".
Proof. by destruct s. Qed.

Lemma launch_refused_spec (cur : option string) :
  launch_refused cur = false <-> image_selected cur.
Proof.
  unfold launch_refused, image_selected. destruct cur as [s|].
  - rewrite orb_false_iff, negb_false_iff, truthy_nonempty. split.
    + intros [Hs Hc]. by exists s.
    + by intros (? & [= <-] & Hs & Hc).
  - split; [done | by intros (? & ? & _)].
Qed.

(** The construction of the viewer window shows no box and writes no file;
    its first two calls probe the image in the uncurated folder and read it
    there, or in the curated folder when the probe fails. *)
Lemma NapariWindow_init_calls (name E T : string) w :
  (forall t, EvMsgBox t ∉ new_log w (snd (NapariWindow_init name E T w)))
  /\ fs (snd (NapariWindow_init name E T w)) = fs w
  /\ exists rest,
       new_log w (snd (NapariWindow_init name E T w))
       = EvExists (OsPath.join E name)
           :: EvImread (OsPath.join
                          (if bool_decide (is_Some (fs w !! OsPath.join E name))
                           then E else T) name)
           :: rest.
Proof.
  rewrite NapariWindow_init_run.
  assert (forall d (l : list event),
            (forall t, EvMsgBox t ∉ l) ->
            forall t,
              EvMsgBox t ∉ l ++ match fs w !! OsPath.join d (seg_name_of name) with
                                | Some _ => [EvExists (OsPath.join d (seg_name_of name));
                                             EvImread (OsPath.join d (seg_name_of name))]
                                | None => [EvExists (OsPath.join d (seg_name_of name))]
                                end) as Hbox.
  { intros d l Hl t [Hin|Hin]%elem_of_app; [by apply (Hl t) |].
    destruct (fs w !! _); elem_of_events Hin. }
  assert (forall x y t, EvMsgBox t ∉ [EvExists x; EvImread y]) as Htwo.
  { intros x y t Hin. elem_of_events Hin. }
  destruct (fs w !! OsPath.join E name) as [img|] eqn:HE;
    [|destruct (fs w !! OsPath.join T name) as [img|] eqn:HT]; cbn [snd fs];
    erewrite new_log_app by done.
  - rewrite bool_decide_eq_true_2 by by eexists.
    split; [by apply Hbox |]. split; [done |]. by eexists.
  - rewrite bool_decide_eq_false_2 by by intros [? ?].
    split; [by apply Hbox |]. split; [done |]. by eexists.
  - rewrite bool_decide_eq_false_2 by by intros [? ?].
    split; [by apply Htwo |]. split; [done |]. by eexists.
Qed.

(** Past its guard [launch_napari_window] is the construction of the viewer
    window for the selected name. *)
Lemma launch_napari_window_selected (self : MainWindow) (w : world) s :
  cur_selected_img self = Some s ->
  image_selected (cur_selected_img self) ->
  launch_napari_window self w
  = match NapariWindow_init s (mw_eval_data_path self) (mw_train_data_path self) w with
    | (Ok nw, w') =>
        (Ok (MkMainWindow _ (mw_eval_data_path self) (mw_train_data_path self)
               (Some s) (Some nw) (mw_visible self)), w')
    | (Raise e, w') => (Raise e, w')
    end.
Proof.
  intros Hs Hsel. apply launch_refused_spec in Hsel.
  unfold launch_napari_window. rewrite Hsel, Hs.
  change (default "" (Some s)) with s. unfold bind, ret.
  by destruct (NapariWindow_init _ _ _ w) as [[nw|e] w'].
Qed.

(** C10, as the code has it.  When no image is selected, or the selected
    name contains ['_seg.tiff'], [launch_napari_window] shows the warning
    box and changes nothing else.  Otherwise it shows no box, writes no
    file and builds the viewer window without looking at the selection any
    further: the construction probes the selected name in the uncurated
    folder and reads it there, or in the curated folder when the probe
    fails.  For a selected file of an accepted image type that lies in one
    of the two folders the window opens.  When the selected file is in
    neither folder the read fails with [FileNotFoundError] and no window
    opens. *)
Theorem launch_napari_window_guard (self : MainWindow) (w : world) :
  let E := mw_eval_data_path self in
  let T := mw_train_data_path self in
  let cur := cur_selected_img self in
  let calls := new_log w (snd (launch_napari_window self w)) in
  (~ image_selected cur ->
     launch_napari_window self w
     = (Ok self, World _ (fs w) (log w ++ [EvMsgBox select_image_text])))
  /\ (forall s, cur = Some s -> image_selected cur ->
        (forall t, EvMsgBox t ∉ calls)
        /\ fs (snd (launch_napari_window self w)) = fs w
        /\ (exists rest,
               calls
               = EvExists (OsPath.join E s)
                   :: EvImread (OsPath.join
                                  (if bool_decide (is_Some (fs w !! OsPath.join E s))
                                   then E else T) s)
                   :: rest)
        /\ (Py.str_in (PathLib.suffix s) accepted_types = true ->
            is_Some (fs w !! OsPath.join E s) \/ is_Some (fs w !! OsPath.join T s) ->
            viewer_opened self w)
        /\ (fs w !! OsPath.join E s = None -> fs w !! OsPath.join T s = None ->
            fst (launch_napari_window self w) = Raise FileNotFoundError)).
Proof.
  intros E T cur calls. split.
  - intros Hno. unfold launch_napari_window. fold cur.
    destruct (launch_refused cur) eqn:Href; [done |].
    by apply launch_refused_spec in Href.
  - intros s Hs Hsel.
    pose proof (launch_napari_window_selected self w s Hs Hsel) as Hrun. fold E T in Hrun.
    destruct (NapariWindow_init_calls s E T w) as (Hbox & Hfs & Hcalls).
    assert (snd (launch_napari_window self w) = snd (NapariWindow_init s E T w)) as Hsnd.
    { rewrite Hrun. by destruct (NapariWindow_init s E T w) as [[nw|e] w']. }
    subst calls. rewrite Hsnd. do 3 (split; [done |]). split.
    + intros _ Hfound. unfold viewer_opened. rewrite Hsnd.
      assert (exists nw, fst (NapariWindow_init s E T w) = Ok nw
                         /\ nw_visible nw = true /\ nw_img_filename nw = s)
        as (nw & Hnw & Hvis & Hname).
      { rewrite NapariWindow_init_run.
        destruct (fs w !! OsPath.join E s) as [img|] eqn:HE;
          [|destruct (fs w !! OsPath.join T s) as [img|] eqn:HT].
        - by eexists.
        - by eexists.
        - destruct Hfound as [[? ?]|[? ?]]; done. }
      rewrite Hrun. destruct (NapariWindow_init s E T w) as [[nw'|e] w']; [|done].
      injection Hnw as ->. eexists _, nw. cbn [fst nap_win].
      do 3 (split; [done |]). split; [by rewrite Hname | done].
    + intros HE HT. rewrite Hrun, NapariWindow_init_run, HE, HT. done.
Qed.

(** C9.  [start_main] creates the main window exactly when both folder
    strings are non-empty: then the welcome window is hidden and holds a
    main window on the pair (uncurated, curated), and no box is shown;
    when either is empty it shows the warning box and leaves the welcome
    window as it was, visible and without a new main window. *)
Theorem start_main_guard (self : WelcomeWindow) (w : world) :
  (filename_train self <> "" /\ filename_val self <> "" ->
     start_main self w
     = (Ok (MkWelcomeWindow _ (filename_train self) (filename_val self)
              (Some (MainWindow_init (filename_val self) (filename_train self)))
              false),
        w))
  /\ (filename_train self = "" \/ filename_val self = "" ->
        start_main self w
        = (Ok self, World _ (fs w) (log w ++ [EvMsgBox select_folders_text])))
  /\ (forall self', fst (start_main self w) = Ok self' ->
        mw self' <> mw self ->
        filename_train self <> "" /\ filename_val self <> "").
Proof.
  unfold start_main. split; [|split].
  - intros [Ht%truthy_nonempty Hv%truthy_nonempty]. by rewrite Ht, Hv.
  - intros [Hempty|Hempty]; rewrite Hempty; [done |].
    by rewrite andb_false_r.
  - intros self'. rewrite <- !truthy_nonempty.
    destruct (Py.truthy (filename_train self)), (Py.truthy (filename_val self));
      cbn [andb]; try done; by intros [= <-].
Qed.

End Windows.

(** ** What is handled and what is not *)

Section Errors.

Context `{Imaging}.

Lemma new_log_refl (w : world) : new_log w w = [].
Proof. apply new_log_app. by rewrite app_nil_r. Qed.

(** Which callbacks answer with a message box. *)
Lemma start_main_handled (self : WelcomeWindow) (w : world) :
  handled (start_main self) w <-> filename_train self = "" \/ filename_val self = "".
Proof.
  unfold handled, start_main. split.
  - intros (a & t & _ & Hbox).
    destruct (Py.truthy (filename_train self)) eqn:Ht;
      [destruct (Py.truthy (filename_val self)) eqn:Hv |].
    + cbn [andb snd] in Hbox. unfold ret in Hbox. cbn [snd] in Hbox.
      rewrite new_log_refl in Hbox. by apply elem_of_nil in Hbox.
    + right. by destruct (filename_val self).
    + left. by destruct (filename_train self).
  - intros Hempty.
    assert (Py.truthy (filename_train self) && Py.truthy (filename_val self) = false) as ->.
    { destruct Hempty as [-> | ->]; [done | apply andb_false_r]. }
    exists self, select_folders_text. split; [done |].
    run_monad. erewrite new_log_app by done. apply list_elem_of_here.
Qed.

Lemma launch_napari_window_handled (self : MainWindow) (w : world) :
  handled (launch_napari_window self) w <-> ~ image_selected (cur_selected_img self).
Proof.
  unfold handled. split.
  - intros (a & t & _ & Hbox) Hsel.
    destruct Hsel as (s & Hs & Hne & Hc).
    assert (image_selected (cur_selected_img self)) as Hsel by by exists s.
    rewrite (launch_napari_window_selected self w s Hs Hsel) in Hbox.
    destruct (NapariWindow_init_calls s (mw_eval_data_path self) (mw_train_data_path self) w)
      as (Hno & _).
    destruct (NapariWindow_init _ _ _ w) as [[nw|e] w']; by apply (Hno t).
  - intros Hno. unfold launch_napari_window.
    destruct (launch_refused (cur_selected_img self)) eqn:Href;
      [|by apply launch_refused_spec in Href].
    exists self, select_image_text. split; [done |].
    run_monad. erewrite new_log_app by done. apply list_elem_of_here.
Qed.

Lemma run_inference_not_handled (self : MainWindow) (w : world) :
  ~ handled (run_inference self) w.
Proof.
  intros (a & t & _ & Hbox).
  apply run_inference_event in Hbox as [Hbox|(n & r1 & evs1 & wr & _ & _ & Hit & Hbox)];
    [done |].
  inversion Hit; subst; elem_of_events Hbox.
Qed.

Lemma on_add_button_clicked_not_handled (self : NapariWindow) (w : world) :
  ~ handled (on_add_button_clicked self) w.
Proof.
  intros (a & t & _ & Hbox). rewrite on_add_button_clicked_run in Hbox.
  destruct (corrected_mask self) as [seg|e].
  - destruct (fs w !! _) as [img|]; cbn [snd] in Hbox;
      erewrite new_log_app in Hbox by done.
    + apply elem_of_app in Hbox as [Hbox|Hbox]; [elem_of_events Hbox |].
      destruct (_ !! _); elem_of_events Hbox.
    + elem_of_events Hbox.
  - cbn [snd] in Hbox. rewrite new_log_refl in Hbox. by apply elem_of_nil in Hbox.
Qed.

(** C5, as the code has it.  [run_inference] prints the message of the
    unsupported branch and exits exactly when its loop reaches an unlabeled
    image whose suffix and shape fit neither the 2D nor the 3D case, every
    file before it having been skipped or segmented; the message is then
    the last call made.  Two more conditions are handled, each by a message
    box and a normal return: [start_main] when a folder string is empty,
    [launch_napari_window] when no image or a name with ['_seg.tiff'] is
    selected; in no other state do these two show a box.  Nothing else is
    handled: [run_inference], the click and the construction of the viewer
    window never answer with a box.  Whatever exception an iteration raises
    is what the run raises, and an empty folder name makes the listing
    raise.  In the viewer the failed indexing of the Labels layers and the
    failed rename escape from the click, and a file found in neither folder
    makes the construction of the window raise. *)
Theorem run_inference_exit :
  (forall (self : MainWindow) (w : world),
      let E := mw_eval_data_path self in
      let files := list_files (listing (fs w) E) in
      Py.truthy E = true ->
      (fst (run_inference self w) = Raise SystemExit
       <-> exists pre n post img,
             files = pre ++ n :: post
             /\ Forall (completes E (fs w)) pre
             /\ unlabeled n = true
             /\ fs w !! OsPath.join E n = Some img
             /\ unsupported_shape n (np_shape img))
      /\ (fst (run_inference self w) = Raise SystemExit ->
          last (log (snd (run_inference self w))) = Some (EvPrint not_supported_message))
      /\ (forall e,
            fst (run_inference self w) = Raise e
            <-> exists pre n post evs wr,
                  files = pre ++ n :: post
                  /\ Forall (completes E (fs w)) pre
                  /\ iteration E n (fs w !! OsPath.join E n) (Raise e) evs wr))
  /\ (forall (self : MainWindow) (w : world),
        Py.truthy (mw_eval_data_path self) = false ->
        fst (run_inference self w) = Raise FileNotFoundError)
  /\ (forall (self : NapariWindow) (w : world) e,
        corrected_mask self = Raise e ->
        on_add_button_clicked self w = (Raise e, w))
  /\ (forall (self : NapariWindow) (w : world) seg,
        corrected_mask self = Ok seg ->
        fs w !! OsPath.join (nw_eval_data_path self) (nw_img_filename self) = None ->
        fst (on_add_button_clicked self w) = Raise FileNotFoundError)
  /\ (forall (name E T : string) (w : world),
        fs w !! OsPath.join E name = None ->
        fs w !! OsPath.join T name = None ->
        fst (NapariWindow_init name E T w) = Raise FileNotFoundError)
  /\ (forall (self : WelcomeWindow) (w : world),
        (handled (start_main self) w
         <-> filename_train self = "" \/ filename_val self = "")
        /\ (filename_train self = "" \/ filename_val self = "" ->
            start_main self w
            = (Ok self, World _ (fs w) (log w ++ [EvMsgBox select_folders_text]))))
  /\ (forall (self : MainWindow) (w : world),
        (handled (launch_napari_window self) w
         <-> ~ image_selected (cur_selected_img self))
        /\ (~ image_selected (cur_selected_img self) ->
            launch_napari_window self w
            = (Ok self, World _ (fs w) (log w ++ [EvMsgBox select_image_text]))))
  /\ (forall (self : MainWindow) (w : world), ~ handled (run_inference self) w)
  /\ (forall (self : NapariWindow) (w : world), ~ handled (on_add_button_clicked self) w)
  /\ (forall (name E T : string) (w : world), ~ handled (NapariWindow_init name E T) w).
Proof.
  split; [|split; [|split; [|split; [|split; [|split; [|split; [|split; [|split]]]]]]]].
  - intros self w E files HE. split; [|split].
  + rewrite (run_inference_raises self w SystemExit HE). fold E files. split.
    * intros (pre & n & post & evs1 & wr & Hl & Hpre & Hn).
      apply iteration_exit_inv in Hn as (Hseg & _ & _ & img & Himg & H2 & H3).
      assert (Py.str_in (PathLib.suffix n) accepted_types = true) as Hacc.
      { assert (n ∈ files) as Hin by (rewrite Hl; set_solver).
        by apply elem_of_list_files in Hin as [_ ?]. }
      exists pre, n, post, img. do 2 (split; [done |]).
      split; [unfold unlabeled; by rewrite Hacc, Hseg |]. split; [done |].
      by apply unsupported_shape_cond.
    * intros (pre & n & post & img & Hl & Hpre & Hun & Himg & Hshape).
      apply andb_true_iff in Hun as [Hacc Hseg%negb_true_iff].
      apply unsupported_shape_cond in Hshape as [H2 H3]; [|done].
      eexists pre, n, post, _, None. do 2 (split; [done |]).
      rewrite Himg. by apply it_unsupported.
  + destruct (run_inference_run self w) as (r & evs & f' & -> & _ & Hrun).
    fold E in Hrun. destruct Hrun as [[_ Hrun]|[? _]]; [|congruence].
    cbn [fst snd log]. intros ->.
    destruct (loop_run_raise_inv _ _ _ _ _ Hrun)
      as (pre & n & post & evs0 & evs1 & wr & _ & _ & Hn & ->).
    apply iteration_exit_inv in Hn as (_ & -> & _).
    apply last_Some.
    exists (log w ++ EvListdir E :: evs0 ++ [EvImread (OsPath.join E n)]).
    by rewrite <- !app_assoc, <- !app_comm_cons, <- !app_assoc.
  + intros e. apply (run_inference_raises self w e HE).
  - intros self w HE. by rewrite run_inference_no_folder.
  - intros self w e He. by rewrite on_add_button_clicked_run, He.
  - intros self w seg Hseg Himg. by rewrite on_add_button_clicked_run, Hseg, Himg.
  - intros name E T w HE HT. by rewrite NapariWindow_init_run, HE, HT.
  - intros self w. split; [apply start_main_handled |].
    intros Hempty. unfold start_main.
    assert (Py.truthy (filename_train self) && Py.truthy (filename_val self) = false) as ->.
    { destruct Hempty as [-> | ->]; [done | apply andb_false_r]. }
    done.
  - intros self w. split; [apply launch_napari_window_handled |].
    intros Hno. unfold launch_napari_window.
    destruct (launch_refused (cur_selected_img self)) eqn:Href; [done |].
    by apply launch_refused_spec in Href.
  - apply run_inference_not_handled.
  - apply on_add_button_clicked_not_handled.
  - intros name E T w (a & t & _ & Hbox).
    destruct (NapariWindow_init_calls name E T w) as (Hno & _). by apply (Hno t).
Qed.

End Errors.

(** ** The theorems at work on the sample worlds *)

(** The runnable instance behaves as the libraries are documented to. *)
Lemma shape_resize_shape (m shape : list Z) :
  (length m <= length shape)%nat -> shape_resize m shape = shape.
Proof.
  intros Hlen. unfold shape_resize. rewrite drop_ge by done. apply app_nil_r.
Defined.

Lemma shape_eval_ndim (x : list Z) (z : option Z) :
  (length (shape_eval x z) <= match z with None => 2 | Some _ => 3 end)%nat.
Proof. destruct z; simpl; rewrite length_take; lia. Defined.

(** The calls of a run of [run_inference] on [demo_world]. *)
Lemma demo_world_calls :
  new_log demo_world (snd (run_inference demo_main demo_world))
  = [EvListdir "/uncurated";
     EvImread "/uncurated/a.png";
     EvModelEval ([512; 384; 2]%Z : @ndarray shape_imaging) None;
     EvImsave "/uncurated/a_seg.tiff" ([1024; 768]%Z : @ndarray shape_imaging);
     EvImread "/uncurated/b.tif";
     EvPrint stack_warning;
     EvModelEval ([10; 512; 512]%Z : @ndarray shape_imaging) (Some 0%Z);
     EvImsave "/uncurated/b_seg.tiff" ([10; 256; 256]%Z : @ndarray shape_imaging)].
Proof. vm_compute. reflexivity. Qed.


(** C2 on [demo_world]: the photograph [a.png] and the stack [b.tif] get
    masks of their own resolution, and the mask saved as [a_seg.tiff] is the
    mask of [a.png]. *)
Lemma run_inference_restores_resolution_witness :
  (EvImsave (OsPath.join "/uncurated" (seg_name_of "a.png"))
     (spec_2d_strategy ([1024; 768; 3]%Z : @ndarray shape_imaging) 1024 768)
     ∈ new_log demo_world (snd (run_inference demo_main demo_world))
   /\ np_shape (spec_2d_strategy ([1024; 768; 3]%Z : @ndarray shape_imaging) 1024 768)
      = [1024; 768]%Z
   /\ [1024; 768]%Z = take 2 (np_shape ([1024; 768; 3]%Z : @ndarray shape_imaging)))
  /\ (exists img mask : @ndarray shape_imaging,
        fs demo_world !! OsPath.join "/uncurated" "b.tif" = Some img
        /\ EvImsave (OsPath.join "/uncurated" (seg_name_of "b.tif")) mask
             ∈ new_log demo_world (snd (run_inference demo_main demo_world))
        /\ ((spec_2d_case "b.tif" (np_shape img)
             /\ (exists height width rest,
                    np_shape img = height :: width :: rest
                    /\ mask = spec_2d_strategy img height width)
             /\ np_shape mask = take 2 (np_shape img)
             /\ length (np_shape mask) = 2%nat)
            \/ (spec_3d_case "b.tif" (np_shape img)
                /\ (exists depth height width,
                       np_shape img = [depth; height; width]
                       /\ mask = spec_3d_strategy img depth height width)
                /\ np_shape mask = np_shape img)))
  /\ exists n (img : @ndarray shape_imaging),
       n ∈ listing (fs demo_world) "/uncurated"
       /\ unlabeled n = true
       /\ fs demo_world !! OsPath.join "/uncurated" n = Some img
       /\ "/uncurated/a_seg.tiff" = OsPath.join "/uncurated" (seg_name_of n)
       /\ ((spec_2d_case n (np_shape img)
            /\ (exists height width rest,
                   np_shape img = height :: width :: rest
                   /\ ([1024; 768]%Z : @ndarray shape_imaging)
                      = spec_2d_strategy img height width)
            /\ [1024; 768]%Z = take 2 (np_shape img)
            /\ length ([1024; 768]%Z) = 2%nat)
           \/ (spec_3d_case n (np_shape img)
               /\ (exists depth height width,
                      np_shape img = [depth; height; width]
                      /\ ([1024; 768]%Z : @ndarray shape_imaging)
                         = spec_3d_strategy img depth height width)
               /\ [1024; 768]%Z = np_shape img)).
Proof.
  destruct (run_inference_restores_resolution demo_main demo_world
              shape_resize_shape shape_eval_ndim) as (Hreached & Hdone & Hsaved).
  split; [|split].
  - destruct (Hreached ["a_seg.tiff"] "a.png" ["b.tif"]
                ([1024; 768; 3]%Z : @ndarray shape_imaging)) as [H2d _].
    + reflexivity.
    + vm_compute. reflexivity.
    + apply Forall_cons. split; [|apply Forall_nil_2].
      exists [], None. apply it_skip. reflexivity.
    + reflexivity.
    + vm_compute. reflexivity.
    + apply (H2d 1024%Z 768%Z [3%Z]).
      * left. vm_compute. repeat constructor.
      * reflexivity.
      * discriminate.
  - apply (Hdone (eq_refl : fst (run_inference demo_main demo_world) = Ok tt) "b.tif").
    + vm_compute. repeat constructor.
    + reflexivity.
  - apply (Hsaved "/uncurated/a_seg.tiff" ([1024; 768]%Z : @ndarray shape_imaging)).
    rewrite demo_world_calls. do 3 apply list_elem_of_further. apply list_elem_of_here.
Defined.

(** C5 on the world with a four-dimensional TIFF, on a welcome window with
    one folder chosen and on a main window with nothing selected. *)
Lemma run_inference_exit_witness :
  Py.truthy (mw_eval_data_path demo_main) = true
  /\ fst (run_inference demo_main demo_world_4d) = Raise SystemExit
  /\ last (log (snd (run_inference demo_main demo_world_4d)))
     = Some (EvPrint not_supported_message)
  /\ (exists pre n post (img : @ndarray shape_imaging),
         list_files (listing (fs demo_world_4d) "/uncurated") = pre ++ n :: post
         /\ Forall (completes "/uncurated" (fs demo_world_4d)) pre
         /\ unlabeled n = true
         /\ fs demo_world_4d !! OsPath.join "/uncurated" n = Some img
         /\ unsupported_shape n (np_shape img))
  /\ handled (start_main demo_welcome_one) demo_world
  /\ handled (launch_napari_window demo_main) demo_world
  /\ ~ handled (launch_napari_window demo_main_selected) demo_world
  /\ ~ handled (run_inference demo_main) demo_world_4d
  /\ ~ handled (on_add_button_clicked (demo_viewer "/uncurated" "/curated"))
         (demo_viewer_world "/uncurated").
Proof.
  assert (fst (run_inference demo_main demo_world_4d) = Raise SystemExit) as Hexit
    by (vm_compute; reflexivity).
  destruct (@run_inference_exit shape_imaging)
    as (Hrun & _ & _ & _ & _ & Hstart & Hlaunch & Hnorun & Hnoclick & _).
  destruct (Hrun demo_main demo_world_4d eq_refl) as (Hiff & Hlast & _).
  split; [reflexivity |]. split; [exact Hexit |]. split; [exact (Hlast Hexit) |].
  split; [exact (proj1 Hiff Hexit) |].
  split; [apply (proj1 (Hstart demo_welcome_one demo_world)); left; reflexivity |].
  split; [apply (proj1 (Hlaunch demo_main demo_world)); intros (s & Hs & _);
          discriminate Hs |].
  split; [|split; [apply Hnorun | apply Hnoclick]].
  intros Hh. apply (proj1 (Hlaunch demo_main_selected demo_world)) in Hh. apply Hh.
  exists "a.png". split; [reflexivity |]. split; [discriminate | reflexivity].
Defined.

(** C5, as stated, fails: the exit of [run_inference] is not the only
    condition the program handles.  Start with one folder not chosen, and
    the launch of the viewer with nothing selected, are answered by a
    message box and a normal return. *)
Lemma unchosen_folder_is_handled :
  start_main demo_welcome_one demo_world
  = (Ok demo_welcome_one,
     World _ (fs demo_world) (log demo_world ++ [EvMsgBox select_folders_text]))
  /\ handled (start_main demo_welcome_one) demo_world
  /\ handled (launch_napari_window demo_main) demo_world
  /\ ~ @no_other_error_handled shape_imaging.
Proof.
  assert (handled (start_main demo_welcome_one) demo_world) as Hstart.
  { exists demo_welcome_one, select_folders_text. split; [reflexivity |].
    vm_compute. apply list_elem_of_here. }
  assert (handled (launch_napari_window demo_main) demo_world) as Hlaunch.
  { exists demo_main, select_image_text. split; [reflexivity |].
    vm_compute. apply list_elem_of_here. }
  split; [reflexivity |]. do 2 (split; [done |]).
  intros Hnone. destruct (Hnone demo_world) as [Hno _]. by apply (Hno demo_welcome_one).
Qed.

(** C7 on the same world: the mask of [a.png], saved before the exit, stays. *)
Lemma run_inference_exit_keeps_masks_witness :
  fst (run_inference demo_main demo_world_4d) = Raise SystemExit
  /\ exists pre n post (w1 : @world shape_imaging),
       list_files (listing (fs demo_world_4d) "/uncurated") = pre ++ n :: post
       /\ for_each pre (run_inference_body demo_main)
            (World _ (fs demo_world_4d) (log demo_world_4d ++ [EvListdir "/uncurated"]))
          = (Ok tt, w1)
       /\ snd (run_inference demo_main demo_world_4d)
          = World _ (fs w1)
              (log w1 ++ [EvImread (OsPath.join "/uncurated" n);
                          EvPrint not_supported_message])
       /\ (forall p mask,
             EvImsave p mask ∉ new_log w1 (snd (run_inference demo_main demo_world_4d)))
     /\ (forall p mask,
           EvImsave p mask
             ∈ new_log demo_world_4d (snd (run_inference demo_main demo_world_4d)) ->
           exists mask',
             fs (snd (run_inference demo_main demo_world_4d)) !! p = Some mask'
             /\ EvImsave p mask'
                  ∈ new_log demo_world_4d (snd (run_inference demo_main demo_world_4d))).
Proof.
  assert (fst (run_inference demo_main demo_world_4d) = Raise SystemExit) as Hexit
    by (vm_compute; reflexivity).
  split; [exact Hexit |].
  exact (run_inference_exit_keeps_masks demo_main demo_world_4d Hexit).
Defined.

(** C8 on a viewer that shows the image only. *)
Lemma click_without_labels_witness :
  (forall l, l ∈ nw_layers demo_viewer_unlabeled -> layer_kind l <> Labels)
  /\ on_add_button_clicked demo_viewer_unlabeled (demo_viewer_world "/uncurated")
     = (Raise IndexError, demo_viewer_world "/uncurated").
Proof.
  assert (forall l, l ∈ nw_layers demo_viewer_unlabeled -> layer_kind l <> Labels) as Hno.
  { intros l Hl. apply list_elem_of_singleton in Hl. rewrite Hl. discriminate. }
  split; [exact Hno |].
  exact (proj2 (click_without_labels demo_viewer_unlabeled
                  (demo_viewer_world "/uncurated") Hno)).
Defined.



(** C10, as stated, fails for a file selected inside a sub-folder: its name
    is a selected image name without ['_seg.tiff'], yet the file is in
    neither folder, the read raises, and neither a viewer nor a warning box
    appears. *)
Lemma selected_file_not_found :
  image_selected (Some "b.png")
  /\ ~ viewer_opened (main_window0 "/uncurated" "/curated" (Some "b.png")) demo_world_nested
  /\ new_log demo_world_nested
       (snd (launch_napari_window (main_window0 "/uncurated" "/curated" (Some "b.png"))
               demo_world_nested))
     = [EvExists "/uncurated/b.png"; EvImread "/curated/b.png"].
Proof.
  split; [by exists "b.png" |]. split; [|vm_compute; reflexivity].
  intros (self' & nw & Hfst & _). vm_compute in Hfst. discriminate Hfst.
Qed.

(** C3 on [demo_world] and on the viewer of [demo_viewer]: the mask saved
    for the stack [b.tif], the save for [a.png] in a completed run, the
    save and the probe of the click, and the probe and the read of the
    viewer window. *)
Lemma mask_names_share_stem_witness :
  (EvImsave "/uncurated/b_seg.tiff" ([10; 256; 256]%Z : @ndarray shape_imaging)
     ∈ new_log demo_world (snd (run_inference demo_main demo_world))
   /\ exists n,
        n ∈ listing (fs demo_world) (mw_eval_data_path demo_main)
        /\ unlabeled n = true
        /\ "/uncurated/b_seg.tiff"
           = OsPath.join (mw_eval_data_path demo_main) (PathLib.stem n +:+ "_seg.tiff"))
  /\ (exists mask : @ndarray shape_imaging,
        EvImsave (OsPath.join "/uncurated" (PathLib.stem "a.png" +:+ "_seg.tiff")) mask
          ∈ new_log demo_world (snd (run_inference demo_main demo_world)))
  /\ (EvImsave (OsPath.join "/curated" (PathLib.stem "a.png" +:+ "_seg.tiff"))
        ([4; 4; 1]%Z : @ndarray shape_imaging)
        ∈ new_log (demo_viewer_world "/uncurated")
            (snd (on_add_button_clicked (demo_viewer "/uncurated" "/curated")
                    (demo_viewer_world "/uncurated")))
      /\ EvExists (OsPath.join "/uncurated" (PathLib.stem "a.png" +:+ "_seg.tiff"))
           ∈ new_log (demo_viewer_world "/uncurated")
               (snd (on_add_button_clicked (demo_viewer "/uncurated" "/curated")
                       (demo_viewer_world "/uncurated")))
      /\ fs (snd (on_add_button_clicked (demo_viewer "/uncurated" "/curated")
                    (demo_viewer_world "/uncurated")))
           !! OsPath.join "/curated" (PathLib.stem "a.png" +:+ "_seg.tiff")
         = Some [4; 4; 1]%Z)
  /\ (EvExists (OsPath.join "/uncurated" (PathLib.stem "a.png" +:+ "_seg.tiff"))
        ∈ new_log (demo_viewer_world "/uncurated")
            (snd (NapariWindow_init "a.png" "/uncurated" "/curated"
                    (demo_viewer_world "/uncurated")))
      /\ EvImread (OsPath.join "/uncurated" (PathLib.stem "a.png" +:+ "_seg.tiff"))
           ∈ new_log (demo_viewer_world "/uncurated")
               (snd (NapariWindow_init "a.png" "/uncurated" "/curated"
                       (demo_viewer_world "/uncurated")))).
Proof.
  destruct (@mask_names_share_stem shape_imaging)
    as (Hsaved & _ & _ & _ & _ & Hdone & Hclick & Hview).
  split; [|split; [|split]].
  - assert (EvImsave "/uncurated/b_seg.tiff" ([10; 256; 256]%Z : @ndarray shape_imaging)
              ∈ new_log demo_world (snd (run_inference demo_main demo_world))) as Hin.
    { rewrite demo_world_calls. do 7 apply list_elem_of_further. apply list_elem_of_here. }
    split; [exact Hin |].
    exact (Hsaved demo_main demo_world "/uncurated/b_seg.tiff" [10; 256; 256]%Z Hin).
  - apply (Hdone demo_main demo_world
             (eq_refl : fst (run_inference demo_main demo_world) = Ok tt) "a.png").
    + vm_compute. repeat constructor.
    + reflexivity.
  - destruct (Hclick (demo_viewer "/uncurated" "/curated") (demo_viewer_world "/uncurated")
                (demo_viewer_closed "/uncurated" "/curated"))
      as (seg & Hseg & Hsave & Hprobe & Hfile).
    + vm_compute. reflexivity.
    + injection Hseg as <-.
      split; [exact Hsave |]. split; [exact Hprobe |]. apply Hfile.
      vm_compute. discriminate.
  - destruct (Hview "a.png" "/uncurated" "/curated" (demo_viewer_world "/uncurated")
                (@MkNapariWindow shape_imaging "a.png" "/uncurated" "/curated" [4; 4]%Z
                   [@Layer shape_imaging Image "Image" [4; 4]%Z;
                    @Layer shape_imaging Labels "seg" [4; 4]%Z] true))
      as (Hprobe & Hread).
    + vm_compute. reflexivity.
    + split; [exact Hprobe |]. apply Hread.
      exists ([4; 4]%Z : @ndarray shape_imaging). vm_compute. reflexivity.
Defined.

(** C6 on [demo_world]: the run completes and the model was called on
    [a.png]; the old mask and the text file were never read. *)
Lemma run_inference_walks_uncurated_witness :
  fst (run_inference demo_main demo_world) = Ok tt
  /\ (exists (img : @ndarray shape_imaging) scale axis z,
        fs demo_world !! OsPath.join "/uncurated" "a.png" = Some img
        /\ EvModelEval (rescale img scale axis) z
           ∈ new_log demo_world (snd (run_inference demo_main demo_world)))
  /\ (EvImread (OsPath.join "/uncurated" "a_seg.tiff")
      ∉ new_log demo_world (snd (run_inference demo_main demo_world)))
  /\ (EvImread (OsPath.join "/uncurated" "notes.txt")
      ∉ new_log demo_world (snd (run_inference demo_main demo_world))).
Proof.
  assert (fst (run_inference demo_main demo_world) = Ok tt) as Hok
    by (vm_compute; reflexivity).
  destruct (run_inference_walks_uncurated demo_main demo_world)
    as (_ & Hdone & _ & _ & Hskip).
  split; [exact Hok |]. split; [|split].
  - apply (Hdone Hok "a.png"); [vm_compute; repeat constructor | reflexivity].
  - apply (Hskip "a_seg.tiff"); [vm_compute; repeat constructor | reflexivity].
  - apply (Hskip "notes.txt"); [vm_compute; repeat constructor | reflexivity].
Defined.

(** C9 on a welcome window with both folders chosen, and with one. *)
Lemma start_main_guard_witness :
  start_main demo_welcome_both demo_world
  = (Ok (@MkWelcomeWindow shape_imaging "/curated" "/uncurated"
           (Some (MainWindow_init "/uncurated" "/curated")) false),
     demo_world)
  /\ start_main demo_welcome_one demo_world
     = (Ok demo_welcome_one,
        World _ (fs demo_world) (log demo_world ++ [EvMsgBox select_folders_text])).
Proof.
  split.
  - apply (proj1 (start_main_guard demo_welcome_both demo_world)).
    split; discriminate.
  - apply (proj1 (proj2 (start_main_guard demo_welcome_one demo_world))).
    left. reflexivity.
Defined.

(** C10 on [demo_world]: with [a.png] selected the viewer opens and no box
    is shown, with nothing selected the warning box is shown, and with a
    file of a sub-folder selected the read fails. *)
Lemma launch_napari_window_guard_witness :
  viewer_opened demo_main_selected demo_world
  /\ (forall t,
        EvMsgBox t ∉ new_log demo_world
                       (snd (launch_napari_window demo_main_selected demo_world)))
  /\ fs (snd (launch_napari_window demo_main_selected demo_world)) = fs demo_world
  /\ launch_napari_window demo_main demo_world
     = (Ok demo_main,
        World _ (fs demo_world) (log demo_world ++ [EvMsgBox select_image_text]))
  /\ fst (launch_napari_window (main_window0 "/uncurated" "/curated" (Some "b.png"))
            demo_world_nested)
     = Raise FileNotFoundError.
Proof.
  assert (image_selected (Some "a.png")) as Ha.
  { exists "a.png". split; [reflexivity |]. split; [discriminate | reflexivity]. }
  assert (image_selected (Some "b.png")) as Hb.
  { exists "b.png". split; [reflexivity |]. split; [discriminate | reflexivity]. }
  destruct (proj2 (launch_napari_window_guard demo_main_selected demo_world)
              "a.png" eq_refl Ha) as (Hbox & Hfs & _ & Hopen & _).
  destruct (proj2 (launch_napari_window_guard
                     (main_window0 "/uncurated" "/curated" (Some "b.png"))
                     demo_world_nested) "b.png" eq_refl Hb) as (_ & _ & _ & _ & Hmissing).
  split; [|split; [exact Hbox | split; [exact Hfs | split]]].
  - apply Hopen; [reflexivity |].
    left. exists ([1024; 768; 3]%Z). vm_compute. reflexivity.
  - apply (proj1 (launch_napari_window_guard demo_main demo_world)).
    intros (s & Hs & _). discriminate Hs.
  - apply Hmissing; vm_compute; reflexivity.
Defined.

(** ** Whole runs: which masks are on disk afterwards *)

Section Masks.

Context `{Imaging}.
Implicit Types (self : MainWindow) (w : world) (n : string) (l : list string).
Implicit Types (f : gmap string ndarray).

Lemma app_inv_tail_str (x y s : string) : x +:+ s = y +:+ s -> x = y.
Proof.
  intros Heq. destruct (str_app_eq_inv _ _ _ _ Heq) as [(q & -> & Hs)|(q & -> & Hs)];
    apply (f_equal String.length) in Hs; rewrite length_app_str in Hs;
    destruct q; simpl in Hs; try lia; by rewrite app_nil_r_str.
Qed.

(** Two files have the same mask file exactly when they have the same stem. *)
Lemma seg_path_inj E a b : seg_path E a = seg_path E b <-> PathLib.stem a = PathLib.stem b.
Proof.
  unfold seg_path. split.
  - intros Heq. apply join_plain_inj in Heq as [_ Heq]; try apply seg_name_plain.
    by apply app_inv_tail_str in Heq.
  - intros Heq. unfold seg_name_of. by rewrite Heq.
Qed.

Lemma iteration_event_unskipped E n c r evs wr e :
  iteration E n c r evs wr -> e ∈ evs -> Py.contains "_seg" n = false.
Proof. intros Hit Hin. inversion Hit; subst; try done. by apply elem_of_nil in Hin. Qed.

Lemma iteration_raise_unskipped E n c e evs wr :
  iteration E n c (Raise e) evs wr -> Py.contains "_seg" n = false.
Proof. intros Hit. by inversion Hit. Qed.

Lemma iteration_skipped E n c r evs wr :
  iteration E n c r evs wr -> Py.contains "_seg" n = true -> wr = None.
Proof. intros Hit Hn. inversion Hit; subst; congruence. Qed.

Lemma iteration_ok_saves E n c evs wr :
  iteration E n c (Ok tt) evs wr -> Py.contains "_seg" n = false ->
  exists mask, wr = Some mask.
Proof. intros Hit Hn. inversion Hit; subst; try congruence; by eexists. Qed.

(** The loop writes nothing under a path that is the mask path of none of
    its files. *)
Lemma for_each_untouched self l w p :
  (forall m, m ∈ l -> Py.contains "_seg" m = false ->
             seg_path (mw_eval_data_path self) m <> p) ->
  fs (snd (for_each l (run_inference_body self) w)) !! p = fs w !! p.
Proof.
  revert w. induction l as [|n l IH]; intros w Hp; [done |].
  rewrite for_each_cons.
  destruct (body_iteration self n w) as (r1 & evs1 & wr & Hit & ->).
  assert (save_mask (mw_eval_data_path self) n wr (fs w) !! p = fs w !! p) as Hstep.
  { destruct (Py.contains "_seg" n) eqn:Hn.
    - by rewrite (iteration_skipped _ _ _ _ _ _ Hit Hn).
    - destruct wr as [mask|]; [|done]. cbn [save_mask].
      apply lookup_insert_ne. apply Hp; [left | done]. }
  destruct r1 as [[]|e]; [|done].
  rewrite IH; [done |]. intros m Hm. apply Hp. by right.
Qed.

(** A completed loop leaves, under the mask path of each of its files, the
    mask of the last file that has this mask path. *)
Lemma for_each_last_write self pre n post f0 w w' :
  let E := mw_eval_data_path self in
  stable E f0 (fs w) ->
  for_each (pre ++ n :: post) (run_inference_body self) w = (Ok tt, w') ->
  Py.contains "_seg" n = false ->
  (forall m, m ∈ post -> Py.contains "_seg" m = false ->
             PathLib.stem m <> PathLib.stem n) ->
  exists mask, segments E f0 n mask /\ fs w' !! seg_path E n = Some mask.
Proof.
  intros E Hst Hrun Hn Hpost. rewrite for_each_app in Hrun.
  destruct (loop_run_sound self pre f0 w Hst) as (r1 & evs1 & f1 & _ & Hst1 & Hpre).
  rewrite Hpre in Hrun. destruct r1 as [[]|e]; [|done].
  rewrite for_each_cons in Hrun.
  destruct (body_iteration self n (World _ f1 (log w ++ evs1)))
    as (r2 & evs2 & wr & Hit & Hbody).
  rewrite Hbody in Hrun. fold E in Hit, Hrun. cbn [fs log] in Hit, Hrun.
  destruct r2 as [[]|e]; [|done].
  apply (iteration_content _ _ _ (f0 !! OsPath.join E n)) in Hit; [|by intros _; apply Hst1].
  destruct (iteration_ok_saves _ _ _ _ _ Hit Hn) as [mask ->].
  exists mask. split; [by exists evs2 |].
  apply (f_equal snd) in Hrun. cbn [snd] in Hrun. rewrite <- Hrun.
  rewrite for_each_untouched.
  - cbn [fs save_mask]. apply lookup_insert_eq.
  - intros m Hm Hskip Heq. apply seg_path_inj in Heq. by apply (Hpost m).
Qed.

(** What the mask of a file is: the result of the strategy its suffix and
    shape select. *)
Lemma segments_strategy E f n mask :
  Py.str_in (PathLib.suffix n) accepted_types = true ->
  segments E f n mask ->
  exists img,
    f !! OsPath.join E n = Some img
    /\ ((exists height width rest,
            spec_2d_case n (np_shape img)
            /\ np_shape img = height :: width :: rest
            /\ Z.max height width <> 0%Z
            /\ mask = spec_2d_strategy img height width)
        \/ (exists depth height width,
              spec_3d_case n (np_shape img)
              /\ np_shape img = [depth; height; width]
              /\ Z.max height width <> 0%Z
              /\ mask = spec_3d_strategy img depth height width)).
Proof.
  intros Hacc [evs Hit].
  inversion Hit as [| |img h wd rest s Hseg H2 Hsh Hs input m Hc
                     | | |img d h wd s Hseg H2 H3 Hsh Hs input m Hc| |]; subst.
  - exists img. split; [done |]. left. exists h, wd, rest.
    destruct (inverse_rescale_factor_cases (Z.max h wd)) as [[Hz E0]|[Hz E0]];
      rewrite E0 in Hs; [done |]. injection Hs as <-.
    split; [by apply cond_2d_spec |]. done.
  - exists img. split; [done |]. right. exists d, h, wd.
    destruct (inverse_rescale_factor_cases (Z.max h wd)) as [[Hz E0]|[Hz E0]];
      rewrite E0 in Hs; [done |]. injection Hs as <-.
    split; [by apply cond_3d_spec |]. done.
Qed.

(** In a completed loop over files with distinct stems, a path holds the
    mask of the file it is the mask path of, or what it held before. *)
Lemma for_each_fs self l f0 w w' p :
  let E := mw_eval_data_path self in
  stable E f0 (fs w) ->
  for_each l (run_inference_body self) w = (Ok tt, w') ->
  distinct_stems l ->
  (exists n mask,
      n ∈ l /\ Py.contains "_seg" n = false /\ seg_path E n = p
      /\ segments E f0 n mask /\ fs w' !! p = Some mask)
  \/ ((forall m, m ∈ l -> Py.contains "_seg" m = false -> seg_path E m <> p)
      /\ fs w' !! p = fs w !! p).
Proof.
  intros E Hst Hrun Hdist.
  destruct (decide (Exists (fun m => Py.contains "_seg" m = false /\ seg_path E m = p) l))
    as [Hex|Hno].
  - left. apply Exists_exists in Hex as (n & Hn & Hskip & Hp).
    destruct (list_elem_of_split_r l n Hn) as (pre & post & Hl & Hlast).
    rewrite Hl in Hrun.
    destruct (for_each_last_write self pre n post f0 w w' Hst Hrun Hskip)
      as (mask & Hmask & Hfs).
    { intros m Hm Hmskip Hstem. apply Hlast.
      rewrite <- (Hdist m n); [done | | | done..]; rewrite Hl, elem_of_app;
        right; [by apply list_elem_of_further | apply list_elem_of_here]. }
    exists n, mask. fold E in Hfs. rewrite Hp in Hfs. done.
  - right. assert (forall m, m ∈ l -> Py.contains "_seg" m = false -> seg_path E m <> p)
      as Hfree.
    { intros m Hm Hskip Hp. apply Hno, Exists_exists. by exists m. }
    split; [done |].
    pose proof (for_each_untouched self l w p Hfree) as Hsame.
    by rewrite Hrun in Hsame.
Qed.

(** Running the loop again, over the same images in any order and from any
    world in which the images are as they were: it completes, and it leaves
    under every mask path what the first run left. *)
Lemma for_each_rerun self l1 l2 f0 wa wb w1 :
  let E := mw_eval_data_path self in
  stable E f0 (fs wa) -> stable E f0 (fs wb) ->
  for_each l1 (run_inference_body self) wa = (Ok tt, w1) ->
  same_images l1 l2 -> distinct_stems l1 ->
  exists w2,
    for_each l2 (run_inference_body self) wb = (Ok tt, w2)
    /\ forall p,
         ((exists n, n ∈ l1 /\ Py.contains "_seg" n = false /\ seg_path E n = p) ->
          fs w2 !! p = fs w1 !! p)
         /\ ((forall m, m ∈ l1 -> Py.contains "_seg" m = false -> seg_path E m <> p) ->
             fs w2 !! p = fs wb !! p).
Proof.
  intros E Hsta Hstb Hrun1 Hsame Hdist.
  destruct (loop_run_sound self l1 f0 wa Hsta) as (r1 & evs1 & f1 & Hloop1 & _ & Hrun1').
  rewrite Hrun1 in Hrun1'. injection Hrun1' as <- _.
  destruct (loop_run_sound self l2 f0 wb Hstb) as (r2 & evs2 & f2 & Hloop2 & _ & Hrun2).
  fold E in Hloop1, Hloop2.
  assert (r2 = Ok tt) as ->.
  { destruct r2 as [[]|e]; [done | exfalso].
    destruct (loop_run_raise_inv _ _ _ _ _ Hloop2)
      as (pre & n & post & evs0 & evs3 & wr & Hl & _ & Hn & _).
    pose proof (iteration_raise_unskipped _ _ _ _ _ _ Hn) as Hskip.
    assert (n ∈ l1) as Hin 
      by (apply Hsame; [done | rewrite Hl, elem_of_app; right; apply list_elem_of_here]).
    destruct (loop_run_complete _ _ _ _ _ Hloop1 Hin) as (evs4 & wr4 & Hok & _).
    by destruct (iteration_det _ _ _ _ _ _ _ _ _ Hn Hok) as (? & _). }
  assert (distinct_stems l2) as Hdist2.
  { intros a b Ha Hb Hsa Hsb. apply Hdist; [by apply Hsame | by apply Hsame | done..]. }
  eexists. split; [exact Hrun2 |]. intros p.
  destruct (for_each_fs self l2 f0 wb _ p Hstb Hrun2 Hdist2)
    as [(n2 & mask2 & Hn2 & Hs2 & Hp2 & Hm2 & Hfs2)|[Hfree2 Hfs2]];
  destruct (for_each_fs self l1 f0 wa _ p Hsta Hrun1 Hdist)
    as [(n1 & mask1 & Hn1 & Hs1 & Hp1 & Hm1 & Hfs1)|[Hfree1 Hfs1]];
  repeat match goal with
         | Hx : context [mw_eval_data_path self] |- _ => progress fold E in Hx
         end.
  - assert (n1 = n2) as ->.
    { apply Hdist; [done | by apply Hsame | done | done |].
      apply (seg_path_inj E). by rewrite Hp1, Hp2. }
    destruct Hm1 as [e1 Hi1], Hm2 as [e2 Hi2].
    destruct (iteration_det _ _ _ _ _ _ _ _ _ Hi1 Hi2) as (_ & _ & [= ->]).
    split; [by rewrite Hfs1, Hfs2 |].
    intros Hfree. by destruct (Hfree n2 Hn1 Hs1).
  - exfalso. apply (Hfree1 n2); [by apply Hsame | done..].
  - exfalso. apply (Hfree2 n1); [by apply Hsame | done..].
  - split; [|done]. intros (n & Hn & Hs & Hp). by destruct (Hfree1 n Hn Hs).
Qed.

(** The mask a completed run leaves for an unlabeled image which no later
    file of the listing shares its stem with. *)
Lemma run_inference_last_write self w pre n post :
  let E := mw_eval_data_path self in
  fst (run_inference self w) = Ok tt ->
  list_files (listing (fs w) E) = pre ++ n :: post ->
  Py.contains "_seg" n = false ->
  (forall m, m ∈ post -> Py.contains "_seg" m = false ->
             PathLib.stem m <> PathLib.stem n) ->
  exists mask,
    segments E (fs w) n mask
    /\ fs (snd (run_inference self w)) !! seg_path E n = Some mask
    /\ n ∈ listing (fs w) E
    /\ Py.str_in (PathLib.suffix n) accepted_types = true.
Proof.
  intros E Hok Hl Hskip Hpost.
  destruct (Py.truthy E) eqn:HE; [|by rewrite run_inference_no_folder in Hok].
  rewrite run_inference_unfold in Hok |- * by done. fold E in Hok |- *.
  rewrite Hl in Hok |- *.
  destruct (for_each (pre ++ n :: post) _ _) as [r w'] eqn:Hrun.
  cbn [fst snd] in Hok |- *. subst r.
  destruct (for_each_last_write self pre n post (fs w)
              (World _ (fs w) (log w ++ [EvListdir E])) w'
              (stable_refl _ _) Hrun Hskip Hpost)
    as (mask & Hmask & Hfs).
  exists mask. do 2 (split; [done |]). apply elem_of_list_files.
  rewrite Hl, elem_of_app. right. apply list_elem_of_here.
Qed.

(** X1.  After a completed run of [run_inference], the mask of an unlabeled
    image is on disk under the image's stem with ['_seg.tiff'], unless a
    file later in the listing has the same stem: it is what the strategy for
    the image's suffix and shape computes from the image as it was when the
    run started. *)
Theorem run_inference_mask_on_disk self w pre n post :
  let E := mw_eval_data_path self in
  fst (run_inference self w) = Ok tt ->
  list_files (listing (fs w) E) = pre ++ n :: post ->
  Py.contains "_seg" n = false ->
  (forall m, m ∈ post -> Py.contains "_seg" m = false ->
             PathLib.stem m <> PathLib.stem n) ->
  exists img mask,
    fs w !! OsPath.join E n = Some img
    /\ fs (snd (run_inference self w)) !! OsPath.join E (PathLib.stem n +:+ "_seg.tiff")
       = Some mask
    /\ ((exists height width rest,
            spec_2d_case n (np_shape img)
            /\ np_shape img = height :: width :: rest
            /\ Z.max height width <> 0%Z
            /\ mask = spec_2d_strategy img height width)
        \/ (exists depth height width,
              spec_3d_case n (np_shape img)
              /\ np_shape img = [depth; height; width]
              /\ Z.max height width <> 0%Z
              /\ mask = spec_3d_strategy img depth height width)).
Proof.
  intros E Hok Hl Hskip Hpost.
  destruct (run_inference_last_write self w pre n post Hok Hl Hskip Hpost)
    as (mask & Hmask & Hfs & _ & Hacc).
  destruct (segments_strategy E (fs w) n mask Hacc Hmask) as (img & Himg & Hstrat).
  by exists img, mask.
Qed.

(** X2.  The order of the listing does not matter when the stems are
    distinct: had [os.listdir] returned the same images in another order,
    with any number of skipped names among them, a completed run would have
    left the same file system. *)
Theorem run_inference_order_irrelevant self w l :
  let E := mw_eval_data_path self in
  let w0 := World _ (fs w) (log w ++ [EvListdir E]) in
  fst (run_inference self w) = Ok tt ->
  same_images (list_files (listing (fs w) E)) l ->
  distinct_stems (list_files (listing (fs w) E)) ->
  exists w2,
    for_each l (run_inference_body self) w0 = (Ok tt, w2)
    /\ fs w2 = fs (snd (run_inference self w)).
Proof.
  intros E w0 Hok Hsame Hdist.
  destruct (Py.truthy E) eqn:HE; [|by rewrite run_inference_no_folder in Hok].
  rewrite run_inference_unfold in Hok |- * by done. fold E w0 in Hok |- *.
  destruct (for_each (list_files _) _ w0) as [r w1] eqn:Hrun.
  cbn [fst snd] in Hok |- *. subst r.
  destruct (for_each_rerun self _ l (fs w) w0 w0 w1 (stable_refl _ _) (stable_refl _ _)
              Hrun Hsame Hdist) as (w2 & Hrun2 & Hfs).
  exists w2. split; [done |]. apply map_eq. intros p.
  destruct (Hfs p) as [Hwritten Hfree].
  destruct (for_each_fs self _ (fs w) w0 w1 p (stable_refl _ _) Hrun Hdist)
    as [(n & mask & Hn & Hs & Hp & _)|[Hno Hsame1]].
  - apply Hwritten. by exists n.
  - rewrite Hfree by done. by rewrite Hsame1.
Qed.

(** The unlabeled images of the folder are the same before and after a run:
    a run adds only names with ['_seg'] to the folder. *)
Lemma same_images_stable E f f' :
  stable E f f' -> same_images (list_files (listing f E)) (list_files (listing f' E)).
Proof.
  intros Hst n Hn. rewrite !elem_of_list_files, !listing_spec.
  enough (plain_name n = true -> f' !! (dir_prefix E +:+ n) = f !! (dir_prefix E +:+ n))
    as Heq.
  { split; intros [[Hp Hf] Ha]; (split; [split; [done |] | done]);
      [rewrite Heq by done | rewrite <- Heq by done]; done. }
  intros Hp. rewrite <- join_plain by done. by apply Hst.
Qed.

(** X3.  A second run after a completed one changes nothing: when the
    images of the folder have distinct stems, [run_inference] run again
    completes and leaves the file system as the first run left it. *)
Theorem run_inference_idempotent self w :
  let E := mw_eval_data_path self in
  let w' := snd (run_inference self w) in
  fst (run_inference self w) = Ok tt ->
  distinct_stems (list_files (listing (fs w) E)) ->
  fst (run_inference self w') = Ok tt
  /\ fs (snd (run_inference self w')) = fs w'.
Proof.
  intros E w' Hok Hdist. subst w'.
  destruct (Py.truthy E) eqn:HE; [|by rewrite run_inference_no_folder in Hok].
  destruct (run_inference_run self w) as (r & evs & f' & Hrun & Hst & _). fold E in Hrun, Hst.
  rewrite (run_inference_unfold self w) in Hok, Hrun |- * by done. fold E in Hok, Hrun |- *.
  set (w0 := World _ (fs w) (log w ++ [EvListdir E])) in *.
  destruct (for_each (list_files (listing (fs w) E)) _ w0) as [r1 w1] eqn:Hrun1.
  cbn [fst snd] in Hok |- *. subst r1. injection Hrun as _ Hw1.
  assert (stable E (fs w) (fs w1)) as Hst1 by by rewrite Hw1.
  rewrite (run_inference_unfold self w1) by done. fold E.
  destruct (for_each_rerun self _ (list_files (listing (fs w1) E)) (fs w) w0
              (World _ (fs w1) (log w1 ++ [EvListdir E])) w1
              (stable_refl _ _) Hst1 Hrun1 (same_images_stable _ _ _ Hst1) Hdist)
    as (w2 & Hrun2 & Hfs).
  rewrite Hrun2. split; [done |]. cbn [snd]. apply map_eq. intros p.
  destruct (Hfs p) as [Hwritten Hfree].
  destruct (for_each_fs self _ (fs w) w0 w1 p (stable_refl _ _) Hrun1 Hdist)
    as [(n & mask & Hn & Hs & Hp & _)|[Hno _]].
  - apply Hwritten. by exists n.
  - by rewrite Hfree.
Qed.

(** A run leaves a path alone that is the mask path of none of the files
    it walks. *)
Lemma run_inference_untouched self w p :
  let E := mw_eval_data_path self in
  (forall m, m ∈ list_files (listing (fs w) E) -> Py.contains "_seg" m = false ->
             seg_path E m <> p) ->
  fs (snd (run_inference self w)) !! p = fs w !! p.
Proof.
  intros E Hfree. destruct (Py.truthy E) eqn:HE.
  - rewrite run_inference_unfold by done. fold E.
    by rewrite for_each_untouched.
  - by rewrite run_inference_no_folder.
Qed.

(** X4.  What a run of [run_inference] can do to the files, whether it
    completes, exits or raises: it deletes nothing, it leaves every file of
    the folder whose name has no ['_seg'] as it was, a path whose content
    differs afterwards is the mask path of an unlabeled image of the folder,
    and no file of another folder, the curated one among them, changes. *)
Theorem run_inference_frame self w :
  let E := mw_eval_data_path self in
  let w' := snd (run_inference self w) in
  (forall p, is_Some (fs w !! p) -> is_Some (fs w' !! p))
  /\ (forall n, Py.contains "_seg" n = false ->
                fs w' !! OsPath.join E n = fs w !! OsPath.join E n)
  /\ (forall p, fs w' !! p <> fs w !! p ->
        exists n,
          n ∈ listing (fs w) E
          /\ unlabeled n = true
          /\ p = OsPath.join E (PathLib.stem n +:+ "_seg.tiff"))
  /\ (forall T n, dir_prefix T <> dir_prefix E -> plain_name n = true ->
                  fs w' !! OsPath.join T n = fs w !! OsPath.join T n).
Proof.
  intros E w'. subst w'. split; [|split; [|split]].
  - intros p Hp. destruct (Py.truthy E) eqn:HE.
    2:{ by rewrite run_inference_no_folder. }
    rewrite run_inference_unfold by done. fold E.
    destruct (for_each_saves self (list_files (listing (fs w) E))
                (World _ (fs w) (log w ++ [EvListdir E]))) as (evs' & _ & Hkeep & _).
    destruct (Hkeep p) as [->|(mask & -> & _)]; done.
  - destruct (run_inference_run self w) as (r & evs & f' & -> & Hst & _). exact Hst.
  - intros p Hp.
    destruct (decide (Exists (fun m => Py.contains "_seg" m = false /\ seg_path E m = p)
                        (list_files (listing (fs w) E)))) as [Hex|Hno].
    + apply Exists_exists in Hex as (n & [Hn Hacc]%elem_of_list_files & Hskip & <-).
      exists n. split; [done |]. split; [|done].
      unfold unlabeled. by rewrite Hacc, Hskip.
    + exfalso. apply Hp, run_inference_untouched.
      intros m Hm Hskip Hpm. apply Hno, Exists_exists. by exists m.
  - intros T n HT Hn. apply run_inference_untouched.
    intros m _ _ Heq. unfold seg_path in Heq. fold E in Heq.
    apply join_plain_inj in Heq as [? _]; [by apply HT | apply seg_name_plain | done].
Qed.

Lemma str_prefix_app_l (a b s : string) :
  String.prefix (a +:+ b) s = true -> String.prefix a s = true.
Proof.
  revert s. induction a as [|x a IH]; intros s; [by destruct s |].
  destruct s as [|y s]; [done |].
  rewrite app_cons_str, !str_prefix_cons. intros [-> Hp]%andb_true_iff.
  by rewrite (IH s Hp).
Qed.

(** A name that holds [a ++ b] holds [a]: what the viewer refuses as a mask
    (['_seg.tiff']) the loop skips (['_seg']). *)
Lemma contains_app_sub (a b s : string) :
  Py.contains (a +:+ b) s = true -> Py.contains a s = true.
Proof.
  induction s as [|y s IH]; cbn [Py.contains].
  - rewrite !orb_false_r. apply str_prefix_app_l.
  - intros [Hp|Hc]%orb_true_iff; apply orb_true_iff;
      [left; by apply (str_prefix_app_l a b) | right; by apply IH].
Qed.

(** X5.  From inference to the viewer.  After a completed run, selecting
    an unlabeled image of the uncurated folder and launching the viewer
    opens it on that image with, as its Labels layer, the mask the run has
    just computed for it; no warning is shown and no file changes. *)
Theorem inference_then_launch self w pre n post :
  let E := mw_eval_data_path self in
  let w1 := snd (run_inference self w) in
  let opened := launch_napari_window (item_selected self n) w1 in
  fst (run_inference self w) = Ok tt ->
  list_files (listing (fs w) E) = pre ++ n :: post ->
  Py.contains "_seg" n = false ->
  (forall m, m ∈ post -> Py.contains "_seg" m = false ->
             PathLib.stem m <> PathLib.stem n) ->
  exists img mask self' nw,
    fs w !! OsPath.join E n = Some img
    /\ segments E (fs w) n mask
    /\ fst opened = Ok self'
    /\ nap_win self' = Some nw
    /\ nw_img_filename nw = n
    /\ nw_img nw = img
    /\ labels_of nw = Some mask
    /\ nw_visible nw = true
    /\ (forall t, EvMsgBox t ∉ new_log w1 (snd opened))
    /\ fs (snd opened) = fs w1.
Proof.
  intros E w1 opened Hok Hl Hskip Hpost. subst opened.
  destruct (run_inference_last_write self w pre n post Hok Hl Hskip Hpost)
    as (mask & Hmask & Hfs & Hin & Hacc). fold E w1 in Hfs.
  destruct (segments_strategy E (fs w) n mask Hacc Hmask) as (img & Himg & _).
  destruct (run_inference_run self w) as (r & evs & f' & Hrun & Hst & _).
  fold E in Hrun, Hst.
  assert (fs w1 !! OsPath.join E n = Some img) as Himg1.
  { unfold w1. rewrite Hrun. cbn [snd fs]. by rewrite Hst. }
  assert (launch_refused (Some n) = false) as Hguard.
  { apply listing_plain in Hin. unfold plain_name in Hin.
    apply andb_true_iff in Hin as [Hn _]. cbn [launch_refused]. rewrite Hn.
    destruct (Py.contains "_seg.tiff" n) eqn:Ht; [|done].
    apply (contains_app_sub "_seg" ".tiff") in Ht. congruence. }
  unfold launch_napari_window. cbn [item_selected cur_selected_img mw_eval_data_path
    mw_train_data_path mw_visible]. rewrite Hguard.
  change (default "" (Some n)) with n. fold E.
  unfold bind. rewrite NapariWindow_init_run, Himg1. unfold seg_path in Hfs.
  rewrite Hfs. unfold ret. cbn [fst snd fs log].
  exists img, mask. eexists _, _. do 2 (split; [done |]). split; [reflexivity |].
  do 5 (split; [done |]). split; [|done].
  intros t Ht. erewrite new_log_app in Ht by done.
  repeat (apply elem_of_cons in Ht as [[=]|Ht]). by apply elem_of_nil in Ht.
Qed.

End Masks.

(** ** The viewer: which mask a click saves, and what a click can do *)

Section Click.

Context `{Imaging}.
Implicit Types (self : NapariWindow) (w : world).

Lemma get_layer_names_filter self ty :
  get_layer_names self ty
  = map layer_name (List.filter (fun l => bool_decide (layer_kind l = ty)) (nw_layers self)).
Proof. unfold get_layer_names. by destruct (map _ _). Qed.

Lemma find_filter {A} (P : A -> bool) (l : list A) :
  List.find P l = head (List.filter P l).
Proof. induction l as [|x l IH]; [done |]. simpl. by destruct (P x). Qed.

Lemma find_some_elem {A} (P : A -> bool) (l : list A) x :
  List.find P l = Some x -> x ∈ l /\ P x = true.
Proof. intros [Hin HP]%find_some. by rewrite list_elem_of_In. Qed.

Lemma find_name_of_elem (layers : list layer) x :
  x ∈ layers ->
  exists y, List.find (fun l => String.eqb (layer_name l) (layer_name x)) layers = Some y
            /\ y ∈ layers /\ layer_name y = layer_name x.
Proof.
  intros Hx.
  destruct (List.find (fun l => String.eqb (layer_name l) (layer_name x)) layers)
    as [y|] eqn:Hfind.
  - apply find_some_elem in Hfind as [Hy Hn]. apply String.eqb_eq in Hn. by exists y.
  - exfalso. apply list_elem_of_In in Hx.
    pose proof (find_none _ _ Hfind x Hx) as Hn. simpl in Hn.
    by rewrite String.eqb_refl in Hn.
Qed.

Lemma NoDup_fmap_inj {A B} (f : A -> B) (l : list A) x y :
  NoDup (map f l) -> x ∈ l -> y ∈ l -> f x = f y -> x = y.
Proof.
  induction l as [|a l IH]; [by intros _ ?%elem_of_nil |].
  simpl. intros [Ha Hl]%NoDup_cons [->|Hx]%elem_of_cons [->|Hy]%elem_of_cons Heq.
  - done.
  - exfalso. apply Ha. rewrite Heq. apply list_elem_of_fmap. by exists y.
  - exfalso. apply Ha. rewrite <- Heq. apply list_elem_of_fmap. by exists x.
  - by apply IH.
Qed.

(** The mask of a click, read off the layers: the first Labels layer gives
    the name, the first layer of that name gives the data. *)
Lemma corrected_mask_cases self :
  (labels_of self = None /\ corrected_mask self = Raise IndexError)
  \/ (exists x y,
        List.find (fun l => bool_decide (layer_kind l = Labels)) (nw_layers self) = Some x
        /\ List.find (fun l => String.eqb (layer_name l) (layer_name x)) (nw_layers self)
           = Some y
        /\ y ∈ nw_layers self /\ x ∈ nw_layers self
        /\ layer_name y = layer_name x
        /\ corrected_mask self = Ok (layer_data y)).
Proof.
  unfold corrected_mask, labels_of. rewrite get_layer_names_filter, find_filter.
  destruct (List.filter _ (nw_layers self)) as [|x rest] eqn:Hf; [by left | right].
  assert (x ∈ nw_layers self) as Hx.
  { apply list_elem_of_In. eapply (proj1 (filter_In _ x (nw_layers self))).
    rewrite Hf. by left. }
  destruct (find_name_of_elem _ x Hx) as (y & Hfind & Hy & Hn).
  exists x, y. cbn [map head]. rewrite py_index_0. unfold layers_getitem. rewrite Hfind. done.
Qed.

(** X6.  Which mask the click saves.  napari keeps the names of the layers
    of a viewer distinct; then the mask of the click is the data of the
    first Labels layer, and the click raises IndexError exactly when there
    is none. *)
Theorem corrected_mask_first_labels self :
  NoDup (map layer_name (nw_layers self)) ->
  corrected_mask self
  = match labels_of self with
    | Some seg => Ok seg
    | None => Raise IndexError
    end.
Proof.
  intros Hnames.
  destruct (corrected_mask_cases self) as [[-> ->]|(x & y & Hx & _ & Hyin & Hxin & Hn & ->)];
    [done |].
  unfold labels_of. rewrite Hx. simpl.
  by rewrite (NoDup_fmap_inj layer_name _ y x Hnames Hyin Hxin Hn).
Qed.

(** X7.  Failures of the click before any file is touched.  Looking the
    first Labels layer up by its name never raises KeyError, and IndexError
    arises exactly when the viewer has no Labels layer; the click then ends
    with nothing done.  With a Labels layer and the image missing from the
    uncurated folder the click ends at [os.replace]: FileNotFoundError, the
    rename is the only call made, no file has changed and no mask was
    written. *)
Theorem click_fails_before_moving self w :
  let E := nw_eval_data_path self in
  let T := nw_train_data_path self in
  let name := nw_img_filename self in
  corrected_mask self <> Raise KeyError
  /\ (corrected_mask self = Raise IndexError <-> labels_of self = None)
  /\ (labels_of self = None -> on_add_button_clicked self w = (Raise IndexError, w))
  /\ (is_Some (labels_of self) ->
      fs w !! OsPath.join E name = None ->
      exists w',
        on_add_button_clicked self w = (Raise FileNotFoundError, w')
        /\ fs w' = fs w
        /\ new_log w w' = [EvReplace (OsPath.join E name) (OsPath.join T name)]).
Proof.
  intros E T name. rewrite on_add_button_clicked_run. fold E T name.
  destruct (corrected_mask_cases self) as [[Hl ->]|(x & y & Hx & _ & _ & _ & _ & ->)].
  - rewrite Hl. split; [done |]. split; [done |]. split; [done |]. by intros [? ?].
  - assert (labels_of self = Some (layer_data x)) as Hl by (unfold labels_of; by rewrite Hx).
    rewrite Hl. split; [done |]. split; [done |]. split; [done |].
    intros _ ->. eexists. split; [reflexivity |]. split; [done |].
    by apply new_log_app.
Qed.

(** What a completed click leaves: the pair in the curated folder, nothing
    of it in the uncurated one. *)
Lemma click_run_moved self w img seg :
  let E := nw_eval_data_path self in
  let T := nw_train_data_path self in
  let name := nw_img_filename self in
  corrected_mask self = Ok seg ->
  fs w !! OsPath.join E name = Some img ->
  plain_name name = true ->
  dir_prefix E <> dir_prefix T ->
  fst (on_add_button_clicked self w)
  = Ok (MkNapariWindow _ name E T (nw_img self) (nw_layers self) false)
  /\ pair_moved self img seg (fs (snd (on_add_button_clicked self w))).
Proof.
  intros E T name Hmask Himg Hplain Hdirs.
  rewrite on_add_button_clicked_run, Hmask. fold E T name. rewrite Himg.
  split; [done |]. cbn [snd fs].
  pose proof (seg_name_plain name) as Hsplain.
  assert (forall d1 d2 n1 n2, plain_name n1 = true -> plain_name n2 = true ->
            dir_prefix d1 <> dir_prefix d2 ->
            OsPath.join d1 n1 <> OsPath.join d2 n2) as Hdir.
  { intros d1 d2 n1 n2 H1 H2 Hne Heq. by apply join_plain_inj in Heq as [? _]. }
  assert (forall d, OsPath.join d name <> OsPath.join d (seg_name_of name)) as Hname.
  { intros d Heq. apply join_plain_inj in Heq as [_ Heq]; [|done..].
    by apply (seg_name_ne name). }
  unfold pair_moved. fold E T name. repeat split.
  - rewrite lookup_delete_ne by (intros Heq; by apply (Hname E)).
    rewrite lookup_insert_ne by by apply Hdir.
    rewrite lookup_insert_ne by by apply Hdir.
    apply lookup_delete_eq.
  - rewrite lookup_delete_ne by by apply Hdir.
    rewrite lookup_insert_ne by (intros Heq; by apply (Hname T)).
    apply lookup_insert_eq.
  - rewrite lookup_delete_ne by by apply Hdir.
    apply lookup_insert_eq.
  - apply lookup_delete_eq.
Qed.

(** X8.  After a click has moved a pair, the construction of the viewer
    for the same image takes the pair from the curated folder: it probes
    the image in the uncurated folder, reads it in the curated one, probes
    and reads there the mask file the click wrote, and makes no other
    call; the window opens with a Labels layer and no file changes. *)
Theorem click_then_reopen self w img seg :
  let E := nw_eval_data_path self in
  let T := nw_train_data_path self in
  let name := nw_img_filename self in
  let w1 := snd (on_add_button_clicked self w) in
  corrected_mask self = Ok seg ->
  fs w !! OsPath.join E name = Some img ->
  plain_name name = true ->
  dir_prefix E <> dir_prefix T ->
  fs w1 !! OsPath.join T (seg_name_of name) = Some seg
  /\ new_log w1 (snd (NapariWindow_init name E T w1))
     = [EvExists (OsPath.join E name); EvImread (OsPath.join T name);
        EvExists (OsPath.join T (seg_name_of name));
        EvImread (OsPath.join T (seg_name_of name))]
  /\ fs (snd (NapariWindow_init name E T w1)) = fs w1
  /\ exists nw,
       fst (NapariWindow_init name E T w1) = Ok nw
       /\ nw_img_filename nw = name
       /\ is_Some (labels_of nw)
       /\ nw_visible nw = true.
Proof.
  intros E T name w1 Hmask Himg Hplain Hdirs.
  destruct (click_run_moved self w img seg Hmask Himg Hplain Hdirs)
    as [_ (HE & HT & HTs & _)]. fold E T name w1 in HE, HT, HTs.
  split; [done |].
  rewrite NapariWindow_init_run, HE, HT, HTs. cbn [fst snd fs log].
  split; [by apply new_log_app |]. split; [done |].
  eexists. split; [done |]. split; [done |]. split; [by eexists | done].
Qed.

(** X9.  One folder in both roles.  When the curated folder is the
    uncurated folder, a click completes, and all it does to the files is to
    delete the mask of the image: the image stays where it is and the
    corrected mask is not kept. *)
Theorem click_same_folder self w img seg :
  let E := nw_eval_data_path self in
  let T := nw_train_data_path self in
  let name := nw_img_filename self in
  corrected_mask self = Ok seg ->
  fs w !! OsPath.join E name = Some img ->
  plain_name name = true ->
  dir_prefix E = dir_prefix T ->
  exists self',
    fst (on_add_button_clicked self w) = Ok self'
    /\ nw_visible self' = false
    /\ fs (snd (on_add_button_clicked self w))
       = delete (OsPath.join E (seg_name_of name)) (fs w).
Proof.
  intros E T name Hmask Himg Hplain Hdirs.
  rewrite on_add_button_clicked_run, Hmask. fold E T name. rewrite Himg.
  eexists. split; [done |]. split; [done |]. cbn [snd fs].
  pose proof (seg_name_plain name) as Hsplain.
  assert (OsPath.join T name = OsPath.join E name) as ->
    by by rewrite !join_plain, Hdirs.
  assert (OsPath.join T (seg_name_of name) = OsPath.join E (seg_name_of name)) as ->
    by by rewrite !join_plain, Hdirs.
  apply map_eq. intros p.
  destruct (decide (p = OsPath.join E (seg_name_of name))) as [->|Hp].
  - by rewrite !lookup_delete_eq.
  - rewrite !lookup_delete_ne by done. rewrite lookup_insert_ne by done.
    destruct (decide (p = OsPath.join E name)) as [->|Hp'].
    + by rewrite lookup_insert_eq.
    + rewrite lookup_insert_ne by done. by rewrite lookup_delete_ne.
Qed.

(** X10.  Curated data survives inference.  Once a click has moved a pair
    into the curated folder, a later run of [run_inference] on the
    uncurated folder, however it ends, leaves the image and its corrected
    mask in the curated folder as they are. *)
Theorem curated_pair_survives_inference self (main : MainWindow) w img seg :
  let E := nw_eval_data_path self in
  let T := nw_train_data_path self in
  let name := nw_img_filename self in
  let w1 := snd (on_add_button_clicked self w) in
  let w2 := snd (run_inference main w1) in
  mw_eval_data_path main = E ->
  corrected_mask self = Ok seg ->
  fs w !! OsPath.join E name = Some img ->
  plain_name name = true ->
  dir_prefix E <> dir_prefix T ->
  fs w2 !! OsPath.join T name = Some img
  /\ fs w2 !! OsPath.join T (seg_name_of name) = Some seg.
Proof.
  intros E T name w1 w2 Hmain Hmask Himg Hplain Hdirs.
  destruct (click_run_moved self w img seg Hmask Himg Hplain Hdirs)
    as [_ (HE & HT & HTs & _)]. fold E T name w1 in HE, HT, HTs.
  assert (forall n, plain_name n = true ->
            fs w2 !! OsPath.join T n = fs w1 !! OsPath.join T n) as Hkeep.
  { intros n Hn. apply run_inference_untouched. rewrite Hmain.
    intros m _ _ Heq. unfold seg_path in Heq.
    apply join_plain_inj in Heq as [? _]; [done | apply seg_name_plain | done]. }
  rewrite !Hkeep by (done || apply seg_name_plain). done.
Qed.

End Click.

(** ** File names: thumbnails and accepted files *)

Section Icons.

Lemma slice_from_length (s : string) : Py.slice_from (String.length s) s = "".
Proof. induction s as [|a s IH]; done. Qed.

(** [endswith] holds exactly of the strings that end in the suffix. *)
Lemma py_endswith_spec (s suf : string) :
  py_endswith s suf = true <-> exists x, s = x +:+ suf.
Proof.
  unfold py_endswith. split.
  - intros [Hlen Heq]%andb_true_iff. apply String.eqb_eq in Heq.
    exists (Py.slice_to (String.length s - String.length suf) s).
    rewrite <- Heq at 2. by rewrite slice_to_from.
  - intros [x ->]. rewrite length_app_str.
    replace (String.length x + String.length suf - String.length suf)%nat
      with (String.length x) by lia.
    rewrite slice_from_app, String.eqb_refl, andb_true_r. apply Nat.leb_le. lia.
Qed.

Lemma rfind_none c s : Py.contains (String c "") s = false -> Py.rfind c s = None.
Proof.
  induction s as [|a s IH]; [done |].
  rewrite contains_char_cons. intros [Ha Hs]%orb_false_iff.
  apply bool_decide_eq_false in Ha. simpl. rewrite (IH Hs).
  destruct (Ascii.eqb_spec a c); congruence.
Qed.

Lemma rfind_app c x r :
  Py.contains (String c "") r = false ->
  Py.rfind c (x +:+ String c r) = Some (String.length x).
Proof.
  intros Hr. induction x as [|a x IH].
  - rewrite app_nil_l_str. simpl. by rewrite (rfind_none _ _ Hr), Ascii.eqb_refl.
  - rewrite app_cons_str. simpl. by rewrite IH.
Qed.

(** The suffix of a plain name that ends in a dot and an extension without
    dots: the extension, unless nothing stands before the dot. *)
Lemma suffix_app x r :
  plain_name (x +:+ String "." r) = true ->
  Py.contains "." r = false -> r <> "" ->
  PathLib.suffix (x +:+ String "." r) = if x is "" then "" else String "." r.
Proof.
  intros Hplain Hr Hne. unfold PathLib.suffix.
  rewrite name_plain; [|done |].
  2:{ destruct x as [|a x]; [|destruct x; done].
      rewrite app_nil_l_str. intros [= ->]. done. }
  rewrite rfind_app by done. rewrite slice_from_app, length_app_str.
  destruct x as [|a x]; [done |].
  destruct r as [|b r]; [done |]. cbn [String.length].
  replace (0 <? S (String.length x))%nat with true by (symmetry; apply Nat.ltb_lt; lia).
  replace (S (String.length x) <? _)%nat with true by (symmetry; apply Nat.ltb_lt; lia).
  done.
Qed.

(** A path ends in a suffix without separators exactly when its last
    component does. *)
Lemma endswith_join d n suf :
  plain_name n = true -> Py.contains "/" suf = false ->
  (exists x, OsPath.join d n = x +:+ suf) <-> (exists y, n = y +:+ suf).
Proof.
  intros Hn Hsuf. rewrite join_plain by done. split.
  - intros [x Heq].
    destruct (str_app_eq_inv _ _ _ _ Heq) as [(q & -> & Hq)|(q & Hd & ->)]; [by exists q |].
    destruct q as [|a q]; [exists ""; by rewrite !app_nil_l_str |]. exfalso.
    destruct (dir_prefix_cases d) as [Hd0|Hd1].
    + rewrite Hd0 in Hd. by destruct x.
    + rewrite Hd, endswith_char_app in Hd1. apply endswith_char_contains in Hd1.
      apply (contains_app_r _ _ n) in Hd1. congruence.
  - intros [y ->]. exists (dir_prefix d +:+ y). by rewrite app_assoc_str.
Qed.

Lemma str_in_exists (x : string) (t : list string) :
  Py.str_in x t = true <-> x ∈ t.
Proof.
  unfold Py.str_in. rewrite existsb_exists. split.
  - intros (y & Hy%list_elem_of_In & ->%String.eqb_eq). done.
  - intros Hx. exists x. split; [by apply list_elem_of_In | apply String.eqb_refl].
Qed.

(** Every accepted suffix is a dot and an extension, with no other dot and
    no separator. *)
Lemma accepted_types_shape suf :
  suf ∈ accepted_types ->
  exists r, suf = String "." r /\ Py.contains "." r = false /\ r <> ""
            /\ Py.contains "/" suf = false.
Proof.
  unfold accepted_types. intros Hs.
  repeat (apply elem_of_cons in Hs as [->|Hs]; [eexists; by repeat split |]).
  by apply elem_of_nil in Hs.
Qed.

(** X11.  Thumbnails and accepted files.  A file of a folder is shown with a
    thumbnail of its content exactly when [run_inference] accepts its
    suffix, or its whole name is one of the accepted suffixes (a file
    called ['.png'] has a thumbnail and, for [pathlib], no suffix). *)
Theorem icon_thumbnail d n :
  plain_name n = true ->
  IconProvider_icon (OsPath.join d n) = Thumbnail (OsPath.join d n)
  <-> Py.str_in (PathLib.suffix n) accepted_types = true \/ n ∈ accepted_types.
Proof.
  intros Hn. unfold IconProvider_icon.
  assert (py_endswith_any (OsPath.join d n) accepted_types = true
          <-> exists suf y, suf ∈ accepted_types /\ n = y +:+ suf) as Hends.
  { unfold py_endswith_any. rewrite existsb_exists. split.
    - intros (suf & Hsuf%list_elem_of_In & He%py_endswith_spec).
      destruct (accepted_types_shape suf Hsuf) as (r & _ & _ & _ & Hslash).
      apply endswith_join in He as [y Hy]; [|done..]. by exists suf, y.
    - intros (suf & y & Hsuf & Hy).
      destruct (accepted_types_shape suf Hsuf) as (r & _ & _ & _ & Hslash).
      exists suf. split; [by apply list_elem_of_In |].
      apply py_endswith_spec, endswith_join; [done.. |]. by exists y. }
  transitivity (py_endswith_any (OsPath.join d n) accepted_types = true).
  { destruct (py_endswith_any _ _); split; done. }
  rewrite Hends, str_in_exists. split.
  - intros (suf & y & Hsuf & ->).
    destruct (accepted_types_shape suf Hsuf) as (r & -> & Hdot & Hne & _).
    rewrite suffix_app by done.
    destruct y as [|a y]; [right; by rewrite app_nil_l_str | by left].
  - intros [Hs|Hs].
    + exists (PathLib.suffix n), (PathLib.stem n). split; [done |].
      rewrite stem_suffix, name_plain; [done.. |].
      intros ->. change (PathLib.suffix ".") with "" in Hs. unfold accepted_types in Hs.
      repeat (apply elem_of_cons in Hs as [[=]|Hs]). by apply elem_of_nil in Hs.
    + exists n, "". by rewrite app_nil_l_str.
Qed.

End Icons.

(** ** The welcome window: browsing, then Start *)

Section Welcome.

Context `{Imaging}.

Lemma browse_fold_fields (cs : list browse_click) (self : WelcomeWindow) :
  filename_val (fold_left browse cs self)
  = default (filename_val self) (last_eval_choice cs)
  /\ filename_train (fold_left browse cs self)
     = default (filename_train self) (last_train_choice cs)
  /\ mw (fold_left browse cs self) = mw self
  /\ ww_visible (fold_left browse cs self) = ww_visible self.
Proof.
  induction cs as [|c cs IH] using rev_ind; [done |].
  rewrite fold_left_app. cbn [fold_left]. destruct IH as (IHv & IHt & IHm & IHs).
  unfold last_eval_choice, last_train_choice in *. rewrite !omap_app.
  destruct c as [[s|]|[s|]]; simpl; rewrite ?app_nil_r, ?last_snoc; simpl; done.
Qed.

(** X12.  Browsing, then Start.  After any sequence of clicks on the two
    browse buttons of a fresh welcome window, cancelled dialogs included,
    Start opens the main window exactly when a folder has been confirmed in
    each dialog: its uncurated folder is the one confirmed last in the
    dialog of the uncurated folder, its curated folder the one confirmed
    last in the other; else it shows the warning and changes nothing. *)
Theorem browse_then_start (cs : list browse_click) (w : world) :
  let ww := fold_left browse cs WelcomeWindow_init in
  (forall e t,
      last_eval_choice cs = Some e -> last_train_choice cs = Some t ->
      e <> "" -> t <> "" ->
      exists ww' main,
        start_main ww w = (Ok ww', w)
        /\ ww_visible ww' = false
        /\ mw ww' = Some main
        /\ mw_eval_data_path main = e
        /\ mw_train_data_path main = t
        /\ cur_selected_img main = None
        /\ nap_win main = None)
  /\ (last_eval_choice cs = None \/ last_train_choice cs = None ->
      start_main ww w = (Ok ww, World _ (fs w) (log w ++ [EvMsgBox select_folders_text]))
      /\ mw ww = None /\ ww_visible ww = true).
Proof.
  intros ww.
  destruct (browse_fold_fields cs WelcomeWindow_init) as (Hv & Ht & Hm & Hs).
  fold ww in Hv, Ht, Hm, Hs. cbn [WelcomeWindow_init filename_val filename_train mw
    ww_visible] in Hv, Ht, Hm, Hs.
  unfold start_main. rewrite Hv, Ht. split.
  - intros e t -> -> He Hne. cbn [default].
    destruct e as [|a e]; [done |]. destruct t as [|b t]; [done |].
    cbn [Py.truthy andb]. eexists _, _. split; [reflexivity |]. done.
  - intros Hnone. split; [|done].
    assert (Py.truthy (default "" (last_train_choice cs))
            && Py.truthy (default "" (last_eval_choice cs)) = false) as ->.
    { destruct Hnone as [->| ->]; cbn [default Py.truthy]; [apply andb_false_r | done]. }
    done.
Qed.

End Welcome.


(** ** One iteration: the failures before the model is called *)

Section Outcome.

Context `{Imaging}.

(** X13.  Two edge cases end an iteration of the loop on an unlabeled image
    before the model is called and before anything is written.  A .jpg,
    .jpeg or .png whose array has fewer than two axes raises IndexError
    (the width cannot be taken).  An image of the 2D or of the 3D case
    whose height and width have maximum 0 raises ZeroDivisionError (the
    rescale factor is 0).  In both the image has been read, a stack has
    got its warning printed, no other call was made and no file has
    changed. *)
Theorem run_inference_body_early_failure (self : MainWindow) n w img :
  let E := mw_eval_data_path self in
  let shape := np_shape img in
  Py.contains "_seg" n = false ->
  fs w !! OsPath.join E n = Some img ->
  (PathLib.suffix n ∈ [".jpg"; ".jpeg"; ".png"] -> (length shape < 2)%nat ->
   run_inference_body self n w
   = (Raise IndexError, World _ (fs w) (log w ++ [EvImread (OsPath.join E n)])))
  /\ (forall height width rest,
        spec_2d_case n shape -> shape = height :: width :: rest ->
        Z.max height width = 0%Z ->
        run_inference_body self n w
        = (Raise ZeroDivisionError,
           World _ (fs w) (log w ++ [EvImread (OsPath.join E n)])))
  /\ (forall depth height width,
        spec_3d_case n shape -> shape = [depth; height; width] ->
        Z.max height width = 0%Z ->
        run_inference_body self n w
        = (Raise ZeroDivisionError,
           World _ (fs w)
             (log w ++ [EvImread (OsPath.join E n); EvPrint stack_warning]))).
Proof.
  intros E shape Hseg Himg.
  destruct (body_iteration self n w) as (r & evs & wr & Hit & ->). fold E in Hit |- *.
  rewrite Himg in Hit. split; [|split].
  - intros Hs Hlt.
    assert (cond_2d n shape = true) as H2 by (apply spec_2d_case_cond; by left).
    pose proof (it_2d_index E n img Hseg H2 Hlt) as Hit'.
    by destruct (iteration_det _ _ _ _ _ _ _ _ _ Hit Hit') as (-> & -> & ->).
  - intros h wd rest Hc Hsh Hz.
    pose proof (it_2d_zero E n img h wd rest Hseg (spec_2d_case_cond _ _ Hc) Hsh Hz) as Hit'.
    by destruct (iteration_det _ _ _ _ _ _ _ _ _ Hit Hit') as (-> & -> & ->).
  - intros d h wd Hc Hsh Hz. destruct (spec_3d_case_cond _ _ Hc) as [H2 H3].
    pose proof (it_3d_zero E n img d h wd Hseg H2 H3 Hsh Hz) as Hit'.
    by destruct (iteration_det _ _ _ _ _ _ _ _ _ Hit Hit') as (-> & -> & ->).
Qed.

End Outcome.

(** ** The further theorems at work on the sample worlds *)

(** The files [run_inference] walks in [demo_world]. *)
Lemma demo_world_files :
  list_files (listing (fs demo_world) "/uncurated") = ["a_seg.tiff"; "a.png"; "b.tif"].
Proof. vm_compute. reflexivity. Defined.

Lemma demo_world_distinct_stems :
  distinct_stems (list_files (listing (fs demo_world) "/uncurated")).
Proof.
  rewrite demo_world_files. intros a b Ha Hb Hsa Hsb Hstem.
  repeat (apply elem_of_cons in Ha as [->|Ha]); [..|by apply elem_of_nil in Ha];
    (repeat (apply elem_of_cons in Hb as [->|Hb]); [..|by apply elem_of_nil in Hb]);
    first [reflexivity | discriminate Hsa | discriminate Hsb | discriminate Hstem].
Defined.

(** X1 on the photograph [a.png] of [demo_world], whose old mask the run
    replaces. *)
Lemma run_inference_mask_on_disk_witness :
  fst (run_inference demo_main demo_world) = Ok tt
  /\ exists img mask : @ndarray shape_imaging,
       fs demo_world !! OsPath.join "/uncurated" "a.png" = Some img
       /\ fs (snd (run_inference demo_main demo_world))
            !! OsPath.join "/uncurated" (PathLib.stem "a.png" +:+ "_seg.tiff") = Some mask
       /\ ((exists height width rest,
               spec_2d_case "a.png" (np_shape img)
               /\ np_shape img = height :: width :: rest
               /\ Z.max height width <> 0%Z
               /\ mask = spec_2d_strategy img height width)
           \/ (exists depth height width,
                 spec_3d_case "a.png" (np_shape img)
                 /\ np_shape img = [depth; height; width]
                 /\ Z.max height width <> 0%Z
                 /\ mask = spec_3d_strategy img depth height width)).
Proof.
  split; [vm_compute; reflexivity |].
  apply (run_inference_mask_on_disk demo_main demo_world ["a_seg.tiff"] "a.png" ["b.tif"]).
  - vm_compute. reflexivity.
  - exact demo_world_files.
  - reflexivity.
  - intros m Hm _ Hstem. apply list_elem_of_singleton in Hm. rewrite Hm in Hstem.
    discriminate Hstem.
Defined.

(** X2: the stack first, the photograph second, the old mask left out. *)
Lemma run_inference_order_irrelevant_witness :
  exists w2,
    for_each ["b.tif"; "a.png"] (run_inference_body demo_main)
      (World _ (fs demo_world) (log demo_world ++ [EvListdir "/uncurated"])) = (Ok tt, w2)
    /\ fs w2 = fs (snd (run_inference demo_main demo_world)).
Proof.
  apply (run_inference_order_irrelevant demo_main demo_world ["b.tif"; "a.png"]).
  - vm_compute. reflexivity.
  - change (mw_eval_data_path demo_main) with "/uncurated". rewrite demo_world_files.
    intros n Hn. split; intros Hin.
    + repeat (apply elem_of_cons in Hin as [->|Hin]); [..|by apply elem_of_nil in Hin].
      * discriminate Hn.
      * apply list_elem_of_further, list_elem_of_here.
      * apply list_elem_of_here.
    + repeat (apply elem_of_cons in Hin as [->|Hin]); [..|by apply elem_of_nil in Hin].
      * do 2 apply list_elem_of_further. apply list_elem_of_here.
      * apply list_elem_of_further, list_elem_of_here.
  - exact demo_world_distinct_stems.
Defined.

(** X3: a second run on [demo_world]. *)
Lemma run_inference_idempotent_witness :
  fst (run_inference demo_main (snd (run_inference demo_main demo_world))) = Ok tt
  /\ fs (snd (run_inference demo_main (snd (run_inference demo_main demo_world))))
     = fs (snd (run_inference demo_main demo_world)).
Proof.
  apply (run_inference_idempotent demo_main demo_world).
  - vm_compute. reflexivity.
  - exact demo_world_distinct_stems.
Defined.

(** X5: [a.png], selected and opened after the run. *)
Lemma inference_then_launch_witness :
  exists (img mask : @ndarray shape_imaging) self' nw,
    fs demo_world !! OsPath.join "/uncurated" "a.png" = Some img
    /\ segments "/uncurated" (fs demo_world) "a.png" mask
    /\ fst (launch_napari_window (item_selected demo_main "a.png")
              (snd (run_inference demo_main demo_world))) = Ok self'
    /\ nap_win self' = Some nw
    /\ nw_img_filename nw = "a.png"
    /\ nw_img nw = img
    /\ labels_of nw = Some mask
    /\ nw_visible nw = true
    /\ (forall t,
          EvMsgBox t ∉ new_log (snd (run_inference demo_main demo_world))
                         (snd (launch_napari_window (item_selected demo_main "a.png")
                                 (snd (run_inference demo_main demo_world)))))
    /\ fs (snd (launch_napari_window (item_selected demo_main "a.png")
                  (snd (run_inference demo_main demo_world))))
       = fs (snd (run_inference demo_main demo_world)).
Proof.
  apply (inference_then_launch demo_main demo_world ["a_seg.tiff"] "a.png" ["b.tif"]).
  - vm_compute. reflexivity.
  - exact demo_world_files.
  - reflexivity.
  - intros m Hm _ Hstem. apply list_elem_of_singleton in Hm. rewrite Hm in Hstem.
    discriminate Hstem.
Defined.

(** X6 on the viewer of [demo_viewer], whose layers are called [Image] and
    [seg]. *)
Lemma corrected_mask_first_labels_witness :
  NoDup (map layer_name (nw_layers (demo_viewer "/uncurated" "/curated")))
  /\ corrected_mask (demo_viewer "/uncurated" "/curated")
     = match labels_of (demo_viewer "/uncurated" "/curated") with
       | Some seg => Ok seg
       | None => Raise IndexError
       end.
Proof.
  assert (NoDup (map layer_name (nw_layers (demo_viewer "/uncurated" "/curated")))) as Hnames.
  { apply (bool_decide_unpack _). vm_compute. exact I. }
  split; [exact Hnames |].
  exact (corrected_mask_first_labels (demo_viewer "/uncurated" "/curated") Hnames).
Defined.

(** X8: the pair of [demo_viewer], moved and opened again. *)
Lemma click_then_reopen_witness :
  fs (snd (on_add_button_clicked (demo_viewer "/uncurated" "/curated")
             (demo_viewer_world "/uncurated")))
    !! OsPath.join "/curated" (seg_name_of "a.png") = Some [4; 4; 1]%Z
  /\ new_log (snd (on_add_button_clicked (demo_viewer "/uncurated" "/curated")
                     (demo_viewer_world "/uncurated")))
       (snd (NapariWindow_init "a.png" "/uncurated" "/curated"
               (snd (on_add_button_clicked (demo_viewer "/uncurated" "/curated")
                       (demo_viewer_world "/uncurated")))))
     = [EvExists (OsPath.join "/uncurated" "a.png");
        EvImread (OsPath.join "/curated" "a.png");
        EvExists (OsPath.join "/curated" (seg_name_of "a.png"));
        EvImread (OsPath.join "/curated" (seg_name_of "a.png"))]
  /\ fs (snd (NapariWindow_init "a.png" "/uncurated" "/curated"
                (snd (on_add_button_clicked (demo_viewer "/uncurated" "/curated")
                        (demo_viewer_world "/uncurated")))))
     = fs (snd (on_add_button_clicked (demo_viewer "/uncurated" "/curated")
                  (demo_viewer_world "/uncurated")))
  /\ exists nw,
       fst (NapariWindow_init "a.png" "/uncurated" "/curated"
              (snd (on_add_button_clicked (demo_viewer "/uncurated" "/curated")
                      (demo_viewer_world "/uncurated")))) = Ok nw
       /\ nw_img_filename nw = "a.png"
       /\ is_Some (labels_of nw)
       /\ nw_visible nw = true.
Proof.
  apply (click_then_reopen (demo_viewer "/uncurated" "/curated")
           (demo_viewer_world "/uncurated") [4; 4]%Z [4; 4; 1]%Z).
  - reflexivity.
  - vm_compute. reflexivity.
  - reflexivity.
  - vm_compute. discriminate.
Defined.

(** X9: one folder, [/data], in both roles. *)
Lemma click_same_folder_witness :
  exists self',
    fst (on_add_button_clicked (demo_viewer "/data" "/data") (demo_viewer_world "/data"))
    = Ok self'
    /\ nw_visible self' = false
    /\ fs (snd (on_add_button_clicked (demo_viewer "/data" "/data")
                  (demo_viewer_world "/data")))
       = delete (OsPath.join "/data" (seg_name_of "a.png")) (fs (demo_viewer_world "/data")).
Proof.
  apply (click_same_folder (demo_viewer "/data" "/data") (demo_viewer_world "/data")
           [4; 4]%Z [4; 4; 1]%Z).
  - reflexivity.
  - vm_compute. reflexivity.
  - reflexivity.
  - reflexivity.
Defined.

(** X10: the moved pair of [demo_viewer] after a run of the inference. *)
Lemma curated_pair_survives_inference_witness :
  fs (snd (run_inference demo_main
             (snd (on_add_button_clicked (demo_viewer "/uncurated" "/curated")
                     (demo_viewer_world "/uncurated")))))
    !! OsPath.join "/curated" "a.png" = Some [4; 4]%Z
  /\ fs (snd (run_inference demo_main
                (snd (on_add_button_clicked (demo_viewer "/uncurated" "/curated")
                        (demo_viewer_world "/uncurated")))))
       !! OsPath.join "/curated" (seg_name_of "a.png") = Some [4; 4; 1]%Z.
Proof.
  apply (curated_pair_survives_inference (demo_viewer "/uncurated" "/curated") demo_main
           (demo_viewer_world "/uncurated") [4; 4]%Z [4; 4; 1]%Z).
  - reflexivity.
  - reflexivity.
  - vm_compute. reflexivity.
  - reflexivity.
  - vm_compute. discriminate.
Defined.

(** X11 on [a.png] in the uncurated folder. *)
Lemma icon_thumbnail_witness :
  plain_name "a.png" = true
  /\ (IconProvider_icon (OsPath.join "/uncurated" "a.png")
      = Thumbnail (OsPath.join "/uncurated" "a.png")
      <-> Py.str_in (PathLib.suffix "a.png") accepted_types = true
          \/ "a.png" ∈ accepted_types).
Proof. split; [reflexivity |]. apply (icon_thumbnail "/uncurated" "a.png"). reflexivity. Defined.

(** X13 on a photograph without height and width. *)
Lemma run_inference_body_early_failure_witness :
  fs (world0 [("/uncurated/e.png", [0; 0; 3]%Z)]) !! OsPath.join "/uncurated" "e.png"
  = Some [0; 0; 3]%Z
  /\ run_inference_body demo_main "e.png" (world0 [("/uncurated/e.png", [0; 0; 3]%Z)])
     = (Raise ZeroDivisionError,
        World _ (fs (world0 [("/uncurated/e.png", [0; 0; 3]%Z)]))
          (log (world0 [("/uncurated/e.png", [0; 0; 3]%Z)])
             ++ [EvImread (OsPath.join "/uncurated" "e.png")])).
Proof.
  split; [vm_compute; reflexivity |].
  destruct (run_inference_body_early_failure demo_main "e.png"
              (world0 [("/uncurated/e.png", [0; 0; 3]%Z)])
              ([0; 0; 3]%Z : @ndarray shape_imaging)) as (_ & Hzero & _).
  - reflexivity.
  - vm_compute. reflexivity.
  - apply (Hzero 0%Z 0%Z [3%Z]).
    + left. vm_compute. repeat constructor.
    + reflexivity.
    + reflexivity.
Defined.

(** ** The path functions on examples *)

Example ex_suffix_png : PathLib.suffix "cells.01.png" = ".png".
Proof. reflexivity. Qed.

Example ex_stem_png : PathLib.stem "cells.01.png" = "cells.01".
Proof. reflexivity. Qed.

Example ex_suffix_hidden : PathLib.suffix ".bashrc" = "" /\ PathLib.stem ".bashrc" = ".bashrc".
Proof. split; reflexivity. Qed.

Example ex_suffix_trailing_dot : PathLib.suffix "a." = "" /\ PathLib.stem "a." = "a.".
Proof. split; reflexivity. Qed.

Example ex_name_nested : PathLib.name "/data/./run//img.tif" = "img.tif".
Proof. reflexivity. Qed.

Example ex_join_plain : OsPath.join "/data" "a.png" = "/data/a.png".
Proof. reflexivity. Qed.

Example ex_join_slash : OsPath.join "/data/" "a.png" = "/data/a.png".
Proof. reflexivity. Qed.

Example ex_join_abs : OsPath.join "/data" "/a.png" = "/a.png".
Proof. reflexivity. Qed.

Example ex_contains_seg : Py.contains "_seg" "a_seg.tiff" = true /\ Py.contains "_seg" "a.tiff" = false.
Proof. split; reflexivity. Qed.
